(** * matplotlib_playground: the three plotting scripts, embedded and verified

    - [two_x_axis/main.py]: the pressure / mean-free-path transform pair;
    - [diagram_with_residues/main.py]: the linear fit and its residuals;
    - [plot_one_x_many_y/main.py]: header extraction, colour cycle,
      spline fit and the scatter-plus-fit plot.

    Numbers.  The scripts compute with Python floats.  The embedding
    computes with exact rationals ([Q], compared with [==]): every
    statement below is about the closed-form expressions the code
    evaluates, not about binary64 rounding.  The one exception is
    [Residues.Binary64], which runs the fit of [diagram_with_residues]
    on binary64 values to show where rounding departs from the exact
    result.

    Exceptions.  A Python call either returns or raises; a function that
    can raise returns a [result]. *)

From Stdlib Require Import QArith Qfield Lia Lra Lqa List String Ascii ZArith Bool.
From Stdlib Require Floats Uint63.
From stdpp Require Import base gmap strings list fin_maps.

Set Default Proof Using "Type".

(** ** Python exceptions and results *)

Inductive exn : Type :=
| ZeroDivisionError
| ValueError
| TypeError
| IndexError.

Inductive result (A : Type) : Type :=
| Ok (a : A)
| Raise (e : exn).

Arguments Ok {A} a.
Arguments Raise {A} e.

Definition rbind {A B : Type} (r : result A) (k : A -> result B) : result B :=
  match r with
  | Ok a => k a
  | Raise e => Raise e
  end.

(** Python's true division [a / b] on numbers, in exact arithmetic:
    raises [ZeroDivisionError] when the divisor is zero.  On binary64
    values the divisor can also be a product that underflowed to zero,
    and numpy values give [inf] or [nan] with a warning where Python
    floats raise; neither is modelled, so the values below are those of
    the closed forms and say nothing about which binary64 calls raise. *)
Definition py_div (a b : Q) : result Q :=
  if Qeq_bool b 0 then Raise ZeroDivisionError else Ok (a / b)%Q.

(** ** two_x_axis/main.py *)

Module TwoXAxis.

(** [scipy.constants.k], the Boltzmann constant in J/K (exact in the SI). *)
Definition constants_k : Q := 1380649 # (10 ^ 29).

(** The float literals [1E6], [1E-6] and [1E-18]. *)
Definition lit_1E6 : Q := 1000000 # 1.
Definition lit_1Em6 : Q := 1 # 1000000.
Definition lit_1Em18 : Q := 1 # (10 ^ 18).

(** The default arguments of [x_tranform_functions]. *)
Definition default_temperature : Q := 400 # 1.
Definition default_cross_section : Q := lit_1Em18.

Section Transforms.

(** [k] stands for [constants.k]; [temperature] and [cross_section] are
    the arguments the two closures capture. *)
Variables (k temperature cross_section : Q).

(** [return (constants.k * temperature) / (pressure * cross_section) * 1E6] *)
Definition pressure_to_mean_free_path (pressure : Q) : result Q :=
  rbind (py_div (k * temperature) (pressure * cross_section))
        (fun q => Ok (q * lit_1E6)%Q).

(** [return (constants.k * temperature) / (mean_free_path * cross_section) * 1E-6] *)
Definition mean_free_path_to_pressure (mean_free_path : Q) : result Q :=
  rbind (py_div (k * temperature) (mean_free_path * cross_section))
        (fun q => Ok (q * lit_1Em6)%Q).

(** [return pressure_to_mean_free_path, mean_free_path_to_pressure] *)
Definition x_tranform_functions : (Q -> result Q) * (Q -> result Q) :=
  (pressure_to_mean_free_path, mean_free_path_to_pressure).

(** The expressions as the specification writes them:
    [mean_free_path(p) = k·T / (p·σ) · 1e6] and
    [pressure(λ) = k·T / (λ·σ) · 1e-6]. *)
Definition spec_mean_free_path (p : Q) : Q :=
  (k * temperature / (p * cross_section) * (10 ^ 6))%Q.

Definition spec_pressure (lam : Q) : Q :=
  (k * temperature / (lam * cross_section) * / (10 ^ 6))%Q.

(** Forward transform followed by the second function, as the secondary
    axis composes them. *)
Definition round_trip_pressure (p : Q) : result Q :=
  rbind (fst x_tranform_functions p) (snd x_tranform_functions).

Definition round_trip_mean_free_path (lam : Q) : result Q :=
  rbind (snd x_tranform_functions lam) (fst x_tranform_functions).

End Transforms.

End TwoXAxis.

(** ** diagram_with_residues/main.py *)

Module Residues.

(** [np.sum], [len] and [np.mean] of a one-dimensional array. *)
Definition Qsum (l : list Q) : Q := fold_right Qplus 0%Q l.

Definition Qlen (l : list Q) : Q := inject_Z (Z.of_nat (length l)).

Definition np_mean (l : list Q) : Q := (Qsum l / Qlen l)%Q.

(** [np.amax] and [np.amin] of a non-empty array given as head and tail. *)
Definition np_amax (x0 : Q) (xs : list Q) : Q :=
  fold_left (fun m x => if Qle_bool m x then x else m) xs x0.

Definition np_amin (x0 : Q) (xs : list Q) : Q :=
  fold_left (fun m x => if Qle_bool x m then x else m) xs x0.

(** The entries of [np.cov(x, y, bias=1)] that [linregress] reads: the
    mean squared deviation of [x] and the mean co-deviation of [x] and [y]. *)
Definition ssxm (x : list Q) : Q :=
  np_mean (map (fun xi => (xi - np_mean x) * (xi - np_mean x))%Q x).

Definition ssxym (x y : list Q) : Q :=
  np_mean (zip_with (fun xi yi => (xi - np_mean x) * (yi - np_mean y))%Q x y).

(** What [stats.linregress] hands back to the script.  Only [slope] and
    [intercept] are used by the script; [r_value], [p_value] and
    [std_err] (square roots and a t-distribution) are unpacked and
    dropped, and are left out here. *)
Inductive fit_outcome : Type :=
| Fit (slope intercept : Q)
| FitNaN
| FitRaises (e : exn).

(** [scipy.stats.linregress(x, y)], after scipy's implementation and in
    exact arithmetic: empty input and constant [x] raise [ValueError]
    (in the releases that check for them); arrays of different
    lengths make [np.cov] raise [ValueError]; a single point divides
    [0.0] by [0.0] and yields NaN (a warning, not an exception);
    otherwise [slope = ssxym / ssxm] and
    [intercept = ymean - slope * xmean].  The binary64 run of the same
    formulas is [Binary64.linregress] below; the two differ where
    rounding makes the deviations of [x] vanish. *)
Definition linregress (x y : list Q) : fit_outcome :=
  match x, y with
  | [], _ | _, [] => FitRaises ValueError
  | x0 :: xs, _ :: _ =>
      if Qeq_bool (np_amax x0 xs) (np_amin x0 xs) && (1 <? length x)%nat
      then FitRaises ValueError
      else if negb (length x =? length y)%nat then FitRaises ValueError
      else if Qeq_bool (ssxm x) 0 then FitNaN
      else
        let slope := (ssxym x y / ssxm x)%Q in
        let intercept := (np_mean y - slope * np_mean x)%Q in
        Fit slope intercept
  end.

(** [y - (intercept + slope * x)] on arrays of equal length. *)
Definition residuals_of (slope intercept : Q) (x y : list Q) : list Q :=
  zip_with (fun yi xi => yi - (intercept + slope * xi))%Q y x.

(** Lines 40-41 of the script:
    [slope, intercept, r_value, p_value, std_err = stats.linregress(x, y)]
    [y_residuals = y - (intercept + slope * x)]
    [Ok None] stands for the array of NaN a NaN fit gives. *)
Definition y_residuals (x y : list Q) : result (option (list Q)) :=
  match linregress x y with
  | Fit slope intercept => Ok (Some (residuals_of slope intercept x y))
  | FitNaN => Ok None
  | FitRaises e => Raise e
  end.

(** The squared error of the line [a * x + b] on the data: the sum over
    the points [(x_i, y_i)] of [(y_i - (a * x_i + b))^2]. *)
Definition squared_error (a b : Q) (x y : list Q) : Q :=
  Qsum (zip_with (fun xi yi => (yi - (a * xi + b)) * (yi - (a * xi + b)))%Q
                 x y).

(** [x] holds two different values. *)
Definition not_constant (x : list Q) : Prop :=
  exists a b, In a x /\ In b x /\ ~ (a == b)%Q.

(** *** The rest of the script *)

(** [linear_test_function(slope, y_intercept)]: the closure
    [function(x) = slope * x + y_intercept], here on the array the
    script passes; numpy evaluates the expression element by element. *)
Definition linear_test_function (slope y_intercept : Q) (x : list Q) : list Q :=
  map (fun xi => slope * xi + y_intercept)%Q x.

(** [a + b] on one-dimensional arrays with numpy's broadcasting: equal
    lengths add element by element, an array of one element is added
    to every element of the other, other shapes raise [ValueError]. *)
Definition np_add (a b : list Q) : result (list Q) :=
  if (length a =? length b)%nat then Ok (zip_with Qplus a b)
  else match a, b with
       | [a0], _ => Ok (map (fun bi => a0 + bi)%Q b)
       | _, [b0] => Ok (map (fun ai => ai + b0)%Q a)
       | _, _ => Raise ValueError
       end.

(** [rng.normal(0, sigma, n)]: [n] normal variates with mean 0 and
    standard deviation [sigma], each [0 + sigma * z] for a standard
    normal variate [z].  The variates the fresh generator yields are
    not determined by the program: [draw i] stands for the i-th one.
    A negative [sigma] raises [ValueError]. *)
Definition rng_normal (draw : nat -> Q) (sigma : Q) (n : nat) : result (list Q) :=
  if Qle_bool 0 sigma
  then Ok (map (fun i => 0 + sigma * draw i)%Q (seq 0 n))
  else Raise ValueError.

(** [create_noisy_y_data(x_data, function, sigma=3)]:
    [noise = rng.normal(0, sigma, len(x_data))]
    [return np.apply_along_axis(function, 0, x_data) + noise]
    On a one-dimensional array [apply_along_axis] calls [function] on
    the array itself. *)
Definition create_noisy_y_data (draw : nat -> Q) (x_data : list Q)
    (function : list Q -> list Q) (sigma : Q) : result (list Q) :=
  rbind (rng_normal draw sigma (length x_data))
        (fun noise => np_add (function x_data) noise).

Definition default_sigma : Q := 3.

(** [np.arange(start, stop)] for integers. *)
Definition np_arange (start stop : Z) : list Q :=
  map (fun i => inject_Z (start + Z.of_nat i)) (seq 0 (Z.to_nat (stop - start))).

(** Lines 29-30 and 40-41 of the script: the data and the fit.
    [x = np.arange(-10, 11)]
    [y = create_noisy_y_data(x, linear_test_function(4, 0))]
    [slope, intercept, ... = stats.linregress(x, y)] *)
Definition script_x : list Q := np_arange (-10) 11.

Definition script_y (draw : nat -> Q) : result (list Q) :=
  create_noisy_y_data draw script_x (linear_test_function 4 0) default_sigma.

Definition script_fit (draw : nat -> Q) : result fit_outcome :=
  rbind (script_y draw) (fun y => Ok (linregress script_x y)).

(** [sum(x * r)], the inner product of two arrays. *)
Definition np_dot (a b : list Q) : Q := Qsum (zip_with Qmult a b).

(** Lines 55-62 of the script, the common legend:
    [for axis in fig.get_axes():]
    [    handles_, labels_ = axis.get_legend_handles_labels()]
    [    handles.append(handles_); labels.append(labels_)]
    [labels = sum(labels, []); handles = sum(handles, [])]
    [per_axis] holds what [get_legend_handles_labels] returns for each
    axes of the figure, in the order of [fig.get_axes()]. *)
Definition py_sum {A : Type} (l : list (list A)) : list A :=
  fold_left (fun acc x => acc ++ x) l [].

Definition merge_legends {H : Type} (per_axis : list (list H * list string))
  : list H * list string :=
  let collected :=
    fold_left (fun acc hl => (fst acc ++ [fst hl], snd acc ++ [snd hl]))
              per_axis ([], []) in
  (py_sum (fst collected), py_sum (snd collected)).

(** *** Lines 40-41 on binary64 values

    The script's [x] is an int64 array ([np.arange]) and its [y] a
    float64 array.  [np.mean] and [np.cov] convert [x] to float64 and
    compute in binary64, rounding each operation to nearest, ties to
    even. *)

Module Binary64.

Import PrimFloat.

(** An int64 element converted to float64. *)
Definition np_float64 (n : Z) : float :=
  if (n <? 0)%Z then (- of_uint63 (Uint63.of_Z (- n)))%float
  else of_uint63 (Uint63.of_Z n).

(** [np.sum] of a float64 array.  numpy adds the elements of a short
    array (fewer than eight elements) from left to right; it adds a
    longer one in blocks, with the same formulas and another rounding. *)
Definition np_sum (l : list float) : float := fold_left add l 0%float.

Definition np_len (l : list float) : float :=
  np_float64 (Z.of_nat (length l)).

Definition np_mean (l : list float) : float := (np_sum l / np_len l)%float.

(** An entry of [np.cov(x, y, bias=1)]:
    [X -= avg[:, None]]; [c = dot(X, X.T)]; [c *= np.true_divide(1, n)]. *)
Definition cov_entry (a b : list float) : float :=
  (np_sum (zip_with mul (map (fun v => v - np_mean a) a)
                        (map (fun v => v - np_mean b) b))
   * (1 / np_len a))%float.

(** [np.amax(x)] and [np.amin(x)] of the int64 array. *)
Definition np_amax (x0 : Z) (xs : list Z) : Z := fold_left Z.max xs x0.

Definition np_amin (x0 : Z) (xs : list Z) : Z := fold_left Z.min xs x0.

(** [stats.linregress(x, y)]: the checks are made on the array as it is
    given, the sums on its float64 conversion; a quotient [0.0 / 0.0]
    of numpy values is NaN and raises nothing. *)
Definition linregress (x : list Z) (y : list float) : result (float * float) :=
  match x, y with
  | [], _ | _, [] => Raise ValueError
  | x0 :: xs, _ :: _ =>
      if (np_amax x0 xs =? np_amin x0 xs)%Z && (1 <? length x)%nat
      then Raise ValueError
      else if negb (length x =? length y)%nat then Raise ValueError
      else
        let xf := map np_float64 x in
        let slope := (cov_entry xf y / cov_entry xf xf)%float in
        let intercept := (np_mean y - slope * np_mean xf)%float in
        Ok (slope, intercept)
  end.

(** [y_residuals = y - (intercept + slope * x)] *)
Definition y_residuals (x : list Z) (y : list float) : result (list float) :=
  rbind (linregress x y)
        (fun fit =>
           Ok (zip_with
                 (fun yi xi => (yi - (snd fit + fst fit * np_float64 xi))%float)
                 y x)).

(** Two abscissae that differ as integers and round to the same
    binary64 value, with ordinates on a line through them. *)
Definition collapsing_x : list Z := [10000000000000000; 10000000000000001]%Z.

Definition collapsing_y : list float := [0; 1]%float.

Definition collapsing_y_exact : list Q := [0; 1]%Q.

End Binary64.

End Residues.

(** ** plot_one_x_many_y/main.py: header extraction *)

Module Header.

Local Open Scope string_scope.

(** *** Python [str] on ASCII text

    A [str] is modelled as a [string] of ASCII characters: the header
    lines the script reads are ASCII.  Characters above 127 are outside
    the model ([upper] and [isspace] leave them alone). *)

(** [c.isspace()] for an ASCII character: tab, line feed, vertical tab,
    form feed, carriage return, the separators 28-31 and the space. *)
Definition isspace (c : ascii) : bool :=
  let n := nat_of_ascii c in
  ((9 <=? n) && (n <=? 13) || (28 <=? n) && (n <=? 32))%nat.

(** [c.upper()] for an ASCII character. *)
Definition upper_ascii (c : ascii) : ascii :=
  let n := nat_of_ascii c in
  if ((97 <=? n) && (n <=? 122))%nat then ascii_of_nat (n - 32) else c.

(** [s.upper()] *)
Fixpoint upper (s : string) : string :=
  match s with
  | EmptyString => EmptyString
  | String c s' => String (upper_ascii c) (upper s')
  end.

(** [cur + c] *)
Definition snoc (cur : string) (c : ascii) : string :=
  cur ++ String c EmptyString.

(** [s.split()] / [s.split(None)]: the maximal runs of non-whitespace
    characters, in order; [cur] is the run being read. *)
Fixpoint split_whitespace_from (cur : string) (s : string) : list string :=
  match s with
  | EmptyString => if String.eqb cur "" then [] else [cur]
  | String c s' =>
      if isspace c
      then (if String.eqb cur "" then split_whitespace_from "" s'
            else cur :: split_whitespace_from "" s')
      else split_whitespace_from (snoc cur c) s'
  end.

Definition split_whitespace (s : string) : list string :=
  split_whitespace_from "" s.

(** [s.split(sep)] for a non-empty [sep]: the pieces between the
    occurrences of [sep], scanned left to right without overlap, empty
    pieces kept.  [skip] counts the characters of a matched separator
    that are still to be passed over. *)
Fixpoint split_sep_from (sep : string) (skip : nat) (cur : string) (s : string)
  : list string :=
  match s with
  | EmptyString => [cur]
  | String c s' =>
      match skip with
      | S n => split_sep_from sep n cur s'
      | O =>
          if String.prefix sep s
          then cur :: split_sep_from sep (String.length sep - 1) "" s'
          else split_sep_from sep 0 (snoc cur c) s'
      end
  end.

(** [s.split(sep)]: [sep=None] splits on whitespace, the empty
    separator raises [ValueError("empty separator")]. *)
Definition str_split (s : string) (sep : option string) : result (list string) :=
  match sep with
  | None => Ok (split_whitespace s)
  | Some d => if String.eqb d "" then Raise ValueError
              else Ok (split_sep_from d 0 "" s)
  end.

(** *** Files and [linecache] *)

Definition LF : ascii := ascii_of_nat 10.
Definition CR : ascii := ascii_of_nat 13.

(** Text-mode reading translates the line endings CR LF and CR to LF. *)
Fixpoint universal_newlines (s : string) : string :=
  match s with
  | EmptyString => EmptyString
  | String c s' =>
      if Ascii.eqb c CR then
        match s' with
        | String c' s'' =>
            if Ascii.eqb c' LF then String LF (universal_newlines s'')
            else String LF (universal_newlines s')
        | EmptyString => String LF EmptyString
        end
      else String c (universal_newlines s')
  end.

(** [fp.readlines()]: the lines of the text, each with its line feed;
    a last line without line feed is kept as it is. *)
Fixpoint readlines_from (cur : string) (s : string) : list string :=
  match s with
  | EmptyString => if String.eqb cur "" then [] else [cur]
  | String c s' =>
      if Ascii.eqb c LF then snoc cur c :: readlines_from "" s'
      else readlines_from (snoc cur c) s'
  end.

Definition readlines (s : string) : list string := readlines_from "" s.

(** [s.endswith('\n')] *)
Fixpoint endswith_LF (s : string) : bool :=
  match s with
  | EmptyString => false
  | String c EmptyString => Ascii.eqb c LF
  | String _ s' => endswith_LF s'
  end.

(** [if lines and not lines[-1].endswith('\n'): lines[-1] += '\n'] *)
Fixpoint terminate_last (lines : list string) : list string :=
  match lines with
  | [] => []
  | [l] => if endswith_LF l then [l] else [snoc l LF]
  | l :: ls => l :: terminate_last ls
  end.

(** The files the process can read: a path is mapped to the decoded
    text of the file [linecache] resolves it to.  A path that is absent
    stands for every way [linecache] fails to read a file (missing,
    unreadable, undecodable): [updatecache] catches the [OSError],
    [UnicodeDecodeError] and [SyntaxError] these give and yields no
    lines. *)
Abbreviation file_system := (gmap string string).



(** [s.startswith('<') and s.endswith('>')] *)
Fixpoint endswith_gt (s : string) : bool :=
  match s with
  | EmptyString => false
  | String c EmptyString => Ascii.eqb c ">"%char
  | String _ s' => endswith_gt s'
  end.

Definition is_pseudo_filename (s : string) : bool :=
  match s with
  | EmptyString => true
  | String c _ => Ascii.eqb c "<"%char && endswith_gt s
  end.

(** [linecache.getlines(filename)] on an empty cache, for a name that
    is an [ascii_path]: no lines for the empty name and for names like
    [<stdin>], else the lines of the file. *)
Definition getlines (fs : file_system) (filename : string) : list string :=
  if is_pseudo_filename filename then []
  else
    match fs !! filename with
    | None => []
    | Some text => terminate_last (readlines (universal_newlines text))
    end.

(** [linecache.getline(filename, lineno)]:
    [if 1 <= lineno <= len(lines): return lines[lineno - 1]]
    [return ''] *)
Definition getline (fs : file_system) (filename : string) (lineno : Z) : string :=
  let lines := getlines fs filename in
  if ((1 <=? lineno) && (lineno <=? Z.of_nat (length lines)))%Z
  then nth (Z.to_nat (lineno - 1)) lines ""
  else "".

(** [get_line(file_path, header_line=0, uppercase=True, delimiter=None)] *)
Definition get_line (fs : file_system) (file_path : string) (header_line : Z)
    (uppercase : bool) (delimiter : option string) : result (list string) :=
  let line := getline fs file_path (header_line + 1) in
  let line := if uppercase then upper line else line in
  str_split line delimiter.

Definition default_uppercase : bool := true.
Definition default_delimiter : option string := None.

(** The text of a line without its line feed. *)
Fixpoint chomp (s : string) : string :=
  match s with
  | EmptyString => EmptyString
  | String c EmptyString => if Ascii.eqb c LF then EmptyString else s
  | String c s' => String c (chomp s')
  end.

(** The specification's reading of header extraction: the tokens of the
    text of line [h] (the line without its terminator), split on
    whitespace or on the delimiter, upper-cased on request.  It says
    nothing for a line that does not exist or an empty delimiter. *)
Definition spec_tokens (fs : file_system) (file_path : string) (h : nat)
    (uppercase : bool) (delimiter : option string) : option (list string) :=
  match getlines fs file_path !! h with
  | None => None
  | Some l =>
      let text := chomp l in
      let text := if uppercase then upper text else text in
      match delimiter with
      | None => Some (split_whitespace text)
      | Some d => if String.eqb d "" then None
                  else Some (split_sep_from d 0 "" text)
      end
  end.


(** A three-line file with comma-separated columns. *)
Definition nl : string := String LF EmptyString.

Definition example_file_system : file_system :=
  {[ "example.csv" :=
       "x,y1,y2" ++ nl ++ "height,flux a,flux b" ++ nl ++ "1,2,3" ++ nl ]}.

(** *** Reading the tokens *)

(** [sep.join(tokens)] *)
Definition str_join (sep : string) (tokens : list string) : string :=
  String.concat sep tokens.

(** [c.islower()] for an ASCII character, and whether a string holds
    such a character. *)
Definition is_lower (c : ascii) : bool :=
  let n := nat_of_ascii c in ((97 <=? n) && (n <=? 122))%nat.

Fixpoint has_lower (s : string) : bool :=
  match s with
  | EmptyString => false
  | String c s' => is_lower c || has_lower s'
  end.

(** Whether a string holds a whitespace character. *)
Fixpoint has_space (s : string) : bool :=
  match s with
  | EmptyString => false
  | String c s' => isspace c || has_space s'
  end.

(** The line [get_line] splits: [linecache.getline], upper-cased on
    request. *)
Definition header_text (fs : file_system) (file_path : string) (header_line : Z)
    (uppercase : bool) : string :=
  let line := getline fs file_path (header_line + 1) in
  if uppercase then upper line else line.

End Header.

(** ** plot_one_x_many_y/main.py: colour cycle, fit and plot *)

Module Plot.

Local Open Scope string_scope.

(** *** Python list indexing *)

(** [l[i]] for a Python integer [i]: negative indices count from the
    end, an index out of range raises [IndexError]. *)
Definition py_index {A : Type} (l : list A) (i : Z) : result A :=
  let n := Z.of_nat (length l) in
  let j := (if i <? 0 then n + i else i)%Z in
  if ((0 <=? j) && (j <? n))%Z then
    match l !! Z.to_nat j with
    | Some a => Ok a
    | None => Raise IndexError
    end
  else Raise IndexError.

(** *** matplotlib objects *)

(** An RGBA colour; two colours are the same when their channels are. *)
Record Color : Type := RGBA { red : Q; green : Q; blue : Q; alpha : Q }.

Definition color_eq (c d : Color) : Prop :=
  (red c == red d /\ green c == green d /\ blue c == blue d
   /\ alpha c == alpha d)%Q.

(** A colormap, called on a float: [cm(x)]. *)
Definition Colormap : Type := Q -> Color.

(** The [colormap] argument of [plt.get_cmap]: [None], a registered
    name or a [Colormap] instance. *)
Inductive cmap_arg : Type :=
| CmapNone
| CmapName (name : string)
| CmapObject (cm : Colormap).

(** A dictionary of keyword arguments that the model passes on without
    reading it ([fig_kwargs], [ax_kwargs], [legend_kwargs]). *)
Abbreviation kwargs_dict := (gmap string string).

(** The spline [splrep] returns, [(t, c, k)]: the knots [t] and the
    coefficients [c] are FITPACK's numerical output and are kept
    symbolic, as the data and the smoothing they were fitted to; [k] is
    the degree. *)
Record spline : Type := Spline {
  spl_x : list Q;
  spl_y : list Q;
  spl_s : Q;
  spl_k : Z
}.

(** The y-data of a line: given points, or [splev(grid, spl)]. *)
Inductive ydata : Type :=
| YPoints (ys : list Q)
| YSplev (grid : list Q) (spl : spline).

(** The artist [ax.scatter] adds. *)
Record PathCollection : Type := {
  offsets_x : list Q;
  offsets_y : list Q;
  facecolor : Color
}.

(** The artist [ax.plot] adds; [line_label = None] when [plot] was
    called without [label]. *)
Record Line2D : Type := {
  line_xdata : list Q;
  line_ydata : ydata;
  line_fmt : option string;
  line_label : option string;
  line_color : Color
}.

Record Axes : Type := {
  prop_cycle : list Color;      (* the colours of the property cycle *)
  fill_idx : nat;               (* position of the cycle [scatter] draws from *)
  collections : list PathCollection;
  lines : list Line2D;
  ax_props : option kwargs_dict;           (* what [ax.set] received *)
  legend_ : option (list (string * Color)) (* entries of the legend, once drawn *)
}.

(** The state of [matplotlib.pyplot]: the colormap registry and the
    relevant [rcParams], and the axes created so far, one per figure;
    the current axes are the last created.  An axes handle is its
    position in [axes]. *)
Record pyplot : Type := {
  cmap_registry : gmap string Colormap;
  rc_image_cmap : string;
  rc_prop_cycle : list Color;
  axes : list Axes
}.

Definition with_axes (st : pyplot) (l : list Axes) : pyplot :=
  {| cmap_registry := cmap_registry st; rc_image_cmap := rc_image_cmap st;
     rc_prop_cycle := rc_prop_cycle st; axes := l |}.

(** *** Stateful computations that may raise

    A computation takes the state of [pyplot] and returns a value with
    the new state, or raises; what was drawn before an exception is not
    kept. *)

Definition M (A : Type) : Type := pyplot -> result (A * pyplot).

Definition raise {A : Type} (e : exn) : M A := fun _ => Raise e.

#[global] Instance M_ret : MRet M := fun A a st => Ok (a, st).

#[global] Instance M_bind : MBind M := fun A B k m st =>
  match m st with
  | Ok (a, st') => k a st'
  | Raise e => Raise e
  end.

Definition lift {A : Type} (r : result A) : M A :=
  fun st => match r with
            | Ok a => Ok (a, st)
            | Raise e => Raise e
            end.

(** [for a in l: body(a)] *)
Fixpoint mfor {A : Type} (l : list A) (body : A -> M unit) : M unit :=
  match l with
  | [] => mret tt
  | a :: l' => body a;; mfor l' body
  end.

(** Reading and updating the axes behind a handle.  Python has no
    dangling references: a handle the state does not hold is reported
    as [TypeError] and never arises from [subplots] or [gca]. *)
Definition get_axes (h : nat) : M Axes :=
  fun st => match axes st !! h with
            | Some a => Ok (a, st)
            | None => Raise TypeError
            end.

Definition update_axes (h : nat) (f : Axes -> Axes) : M unit :=
  fun st => match axes st !! h with
            | Some a => Ok (tt, with_axes st (<[h := f a]> (axes st)))
            | None => Raise TypeError
            end.

Definition new_axes (cycle : list Color) : Axes :=
  {| prop_cycle := cycle; fill_idx := 0; collections := []; lines := [];
     ax_props := None; legend_ := None |}.

(** [fig, ax = plt.subplots(1, 1, **fig_kwargs)]: a new figure with one
    axes, which becomes current; [**None] raises [TypeError]. *)
Definition subplots (fig_kwargs : option kwargs_dict) : M nat :=
  match fig_kwargs with
  | None => raise TypeError
  | Some _ =>
      fun st => Ok (length (axes st),
                    with_axes st (axes st ++ [new_axes (rc_prop_cycle st)])%list)
  end.

(** [plt.gca()]: the current axes, created when there is none. *)
Definition gca : M nat :=
  fun st => match axes st with
            | [] => Ok (0%nat, with_axes st [new_axes (rc_prop_cycle st)])
            | _ => Ok ((length (axes st) - 1)%nat, st)
            end.

(** [plt.get_cmap(colormap)]: an unknown name raises [ValueError]. *)
Definition get_cmap (colormap : cmap_arg) : M Colormap :=
  fun st =>
    match colormap with
    | CmapObject cm => Ok (cm, st)
    | CmapName name =>
        match cmap_registry st !! name with
        | Some cm => Ok (cm, st)
        | None => Raise ValueError
        end
    | CmapNone =>
        match cmap_registry st !! rc_image_cmap st with
        | Some cm => Ok (cm, st)
        | None => Raise ValueError
        end
    end.

(** [ax.set_prop_cycle(color=colors)] *)
Definition set_prop_cycle (ax : nat) (colors : list Color) : M unit :=
  update_axes ax (fun a =>
    {| prop_cycle := colors; fill_idx := 0; collections := collections a;
       lines := lines a; ax_props := ax_props a; legend_ := legend_ a |}).

(** [ax.scatter(x, y)] without [c] or [color]: the points take the next
    colour of the cycle, which advances and wraps around.  Arrays of
    different sizes raise [ValueError]; an empty cycle has no next
    colour. *)
Definition scatter (ax : nat) (x y : list Q) : M unit :=
  a ← get_axes ax;
  if negb (length x =? length y)%nat then raise ValueError
  else
    match prop_cycle a !! fill_idx a with
    | None => raise IndexError
    | Some c =>
        update_axes ax (fun a =>
          {| prop_cycle := prop_cycle a;
             fill_idx := (S (fill_idx a)) mod (length (prop_cycle a));
             collections := (collections a ++
               [{| offsets_x := x; offsets_y := y; facecolor := c |}])%list;
             lines := lines a; ax_props := ax_props a; legend_ := legend_ a |})
    end.

(** [ax.plot(xdata, ydata, fmt, label=label, color=color)]: with the
    colour given, the line cycle is not consulted. *)
Definition plot (ax : nat) (xdata : list Q) (yd : ydata) (fmt : option string)
    (label : option string) (color : Color) : M unit :=
  update_axes ax (fun a =>
    {| prop_cycle := prop_cycle a; fill_idx := fill_idx a;
       collections := collections a;
       lines := (lines a ++
         [{| line_xdata := xdata; line_ydata := yd; line_fmt := fmt;
             line_label := label; line_color := color |}])%list;
       ax_props := ax_props a; legend_ := legend_ a |}).

(** [plt.gca().collections[-1].get_facecolors()[0]] *)
Definition last_scatter_color : M Color :=
  h ← gca;
  a ← get_axes h;
  c ← lift (py_index (collections a) (-1));
  mret (facecolor c).

(** [ax.set( **ax_kwargs)] *)
Definition ax_set (ax : nat) (ax_kwargs : option kwargs_dict) : M unit :=
  match ax_kwargs with
  | None => raise TypeError
  | Some kw =>
      update_axes ax (fun a =>
        {| prop_cycle := prop_cycle a; fill_idx := fill_idx a;
           collections := collections a; lines := lines a;
           ax_props := Some kw; legend_ := legend_ a |})
  end.

(** A label the legend shows: not empty and not starting with an
    underscore. *)
Definition legend_visible (label : string) : bool :=
  match label with
  | EmptyString => false
  | String c _ => negb (Ascii.eqb c "_"%char)
  end.

(** The legend entries of an axes: its labelled lines, in the order
    they were added, each with its colour.  (The scatter collections
    carry no label in this script.) *)
Definition legend_entries (a : Axes) : list (string * Color) :=
  omap (fun l => match line_label l with
                 | Some s => if legend_visible s then Some (s, line_color l)
                             else None
                 | None => None
                 end) (lines a).

(** [ax.legend( **legend_kwargs)] *)
Definition legend (ax : nat) (legend_kwargs : option kwargs_dict) : M unit :=
  match legend_kwargs with
  | None => raise TypeError
  | Some _ =>
      update_axes ax (fun a =>
        {| prop_cycle := prop_cycle a; fill_idx := fill_idx a;
           collections := collections a; lines := lines a;
           ax_props := ax_props a; legend_ := Some (legend_entries a) |})
  end.

(** *** scipy and numpy *)

(** The keyword dictionary for [splrep], with the entries the model
    reads: the degree [k] and the smoothing [s]. *)
Record splrep_kw : Type := { kw_k : option Z; kw_s : option Q }.

(** [{}] and [dict(d, k=1)]. *)
Definition empty_splrep_kw : splrep_kw := {| kw_k := None; kw_s := None |}.

Definition dict_with_k (d : splrep_kw) (k : Z) : splrep_kw :=
  {| kw_k := Some k; kw_s := kw_s d |}.

Fixpoint increasing (strict : bool) (x : list Q) : bool :=
  match x with
  | a :: ((b :: _) as x') =>
      (if strict then negb (Qle_bool b a) else Qle_bool a b)
      && increasing strict x'
  | _ => true
  end.

(** [splrep(x, y, **kw)], after scipy's checks: [k] defaults to 3 and
    [s] (without weights) to 0; the arrays must have one length [m], the
    degree must satisfy [1 <= k <= 5] and [m > k] (each a [TypeError]);
    a negative [s] and abscissae that do not increase, strictly when
    [s = 0], are refused with [ValueError].  On these two scipy is more
    lenient or names the error differently (it can return a spline for
    a repeated abscissa, and raises FITPACK's own error for a negative
    [s]); the model refuses there, so what is stated of a call that
    returns is stated for [s >= 0] and increasing abscissae. *)
Definition splrep (x y : list Q) (kw : splrep_kw) : result spline :=
  let k := default 3%Z (kw_k kw) in
  let s := default 0%Q (kw_s kw) in
  if negb (length x =? length y)%nat then Raise TypeError
  else if negb ((1 <=? k) && (k <=? 5))%Z then Raise TypeError
  else if (Z.of_nat (length x) <=? k)%Z then Raise TypeError
  else if negb (Qle_bool 0 s) then Raise ValueError
  else if negb (increasing (Qeq_bool s 0) x) then Raise ValueError
  else Ok {| spl_x := x; spl_y := y; spl_s := s; spl_k := k |}.

(** The keyword dictionary [{'start': ..., 'stop': ...}] for
    [np.linspace]. *)
Record linspace_kw : Type := { ls_start : Q; ls_stop : Q }.

(** [np.linspace(start, stop)]: 50 samples, the last one [stop]. *)
Definition linspace_samples (start stop : Q) : list Q :=
  let step := ((stop - start) / 49)%Q in
  (map (fun i => (inject_Z (Z.of_nat i) * step + start)%Q) (seq 0 49)
   ++ [stop])%list.

(** [np.linspace( **kw)]; [**None] raises [TypeError]. *)
Definition linspace (kw : option linspace_kw) : result (list Q) :=
  match kw with
  | None => Raise TypeError
  | Some d => Ok (linspace_samples (ls_start d) (ls_stop d))
  end.

(** *** The script's functions *)

(** [set_color_cycle(ax, colormap, num_colors)]:
    [cm = plt.get_cmap(colormap)]
    [ax.set_prop_cycle(color=[cm(1. * i / num_colors) for i in range(num_colors)])] *)
Definition cycle_colors (cm : Colormap) (num_colors : nat) : list Color :=
  map (fun i => cm (1 * inject_Z (Z.of_nat i) / inject_Z (Z.of_nat num_colors))%Q)
      (seq 0 num_colors).

Definition set_color_cycle (ax : nat) (colormap : cmap_arg) (num_colors : nat)
  : M unit :=
  cm ← get_cmap colormap;
  set_prop_cycle ax (cycle_colors cm num_colors).

(** The [**kwargs] of [plot_fit]. *)
Record fit_kwargs : Type := {
  splrep_kwargs : option splrep_kw;
  linspace_kwargs : option linspace_kw;
  color : option Color
}.

(** Lines 84-86 of [plot_fit]:
    [if linear_condition:]
    [    if linear_condition(x, y):]
    [        kwargs["splrep_kwargs"] = dict(kwargs.get("splrep_kwargs", {}), k=1)] *)
Definition apply_linear_condition
    (linear_condition : option (list Q -> list Q -> bool))
    (x y : list Q) (kwargs : fit_kwargs) : fit_kwargs :=
  match linear_condition with
  | Some cond =>
      if cond x y then
        {| splrep_kwargs :=
             Some (dict_with_k (default empty_splrep_kw (splrep_kwargs kwargs)) 1);
           linspace_kwargs := linspace_kwargs kwargs;
           color := color kwargs |}
      else kwargs
  | None => kwargs
  end.

(** Line 88: [spl = splrep(x, y, **kwargs.get("splrep_kwargs", {}))] *)
Definition fit_spline (linear_condition : option (list Q -> list Q -> bool))
    (x y : list Q) (kwargs : fit_kwargs) : result spline :=
  let kwargs := apply_linear_condition linear_condition x y kwargs in
  splrep x y (default empty_splrep_kw (splrep_kwargs kwargs)).

(** [plot_fit(ax, x, y, linear_condition=None, **kwargs)].  The default
    of [kwargs.get("color", ...)] is evaluated whether or not [color]
    is given. *)
Definition plot_fit (ax : nat) (x y : list Q)
    (linear_condition : option (list Q -> list Q -> bool))
    (kwargs : fit_kwargs) : M spline :=
  let kwargs' := apply_linear_condition linear_condition x y kwargs in
  spl ← lift (splrep x y (default empty_splrep_kw (splrep_kwargs kwargs')));
  x_interpolation ← lift (linspace (linspace_kwargs kwargs'));
  c ← last_scatter_color;
  plot ax x_interpolation (YSplev x_interpolation spl) None None
       (default c (color kwargs'));;
  mret spl.

(** The [**kwargs] of [plot_data]; [color_cycle = None] when the key is
    absent. *)
Record data_kwargs : Type := {
  fig_kwargs : option kwargs_dict;
  color_cycle : option cmap_arg;
  linear_condition : option (list Q -> list Q -> bool);
  ax_kwargs : option kwargs_dict;
  legend_kwargs : option kwargs_dict
}.

(** The body of the loop of [plot_data] for series [i] with data
    [y = y_data[:, i]].  ([plt.draw()] renders the figure and changes
    nothing of the state kept here.) *)
Definition plot_series (ax : nat) (x_data : list Q) (labels : list string)
    (kwargs : data_kwargs) (iy : nat * list Q) : M unit :=
  let '(i, y) := iy in
  scatter ax x_data y;;
  scatter_color ← last_scatter_color;
  start ← lift (py_index x_data 0);
  stop ← lift (py_index x_data (-1));
  plot_fit ax x_data y (linear_condition kwargs)
    {| splrep_kwargs := None;
       linspace_kwargs := Some {| ls_start := start; ls_stop := stop |};
       color := None |};;
  label ← lift (py_index labels (Z.of_nat i - 1));
  plot ax [] (YPoints []) (Some "-o") (Some label) scatter_color.

(** [plot_data(x_data, y_data, labels, **kwargs)].  The array [y_data]
    of shape (n, m) is held as the list of its m columns:
    [y_data.shape[1]] is its length and [y_data[:, i]] its i-th entry.
    The computation returns the handle of the axes it drew on.
    ([plt.tight_layout()] changes nothing of the state kept here.) *)
Definition plot_data (x_data : list Q) (y_data : list (list Q))
    (labels : list string) (kwargs : data_kwargs) : M nat :=
  ax ← subplots (fig_kwargs kwargs);
  set_color_cycle ax (default (CmapName "viridis") (color_cycle kwargs))
                  (length labels);;
  mfor (zip (seq 0 (length y_data)) y_data)
       (plot_series ax x_data labels kwargs);;
  ax_set ax (ax_kwargs kwargs);;
  legend ax (legend_kwargs kwargs);;
  mret ax.

(** *** Reading the figure *)

(** A line that shows a fitted spline. *)
Definition is_fit_curve (l : Line2D) : bool :=
  match line_ydata l with
  | YSplev _ _ => true
  | YPoints _ => false
  end.

(** The labels of the legend, in the order of its entries. *)
Definition legend_labels (a : Axes) : option (list string) :=
  map fst <$> legend_ a.

(** The degree [plot_fit] is documented to fit with: 1 when the
    condition is given and holds, otherwise the [k] of
    [splrep_kwargs], 3 when there is none. *)
Definition requested_degree (cond : option (list Q -> list Q -> bool))
    (x y : list Q) (kwargs : fit_kwargs) : Z :=
  if match cond with Some c => c x y | None => false end
  then 1%Z
  else default 3%Z (kw_k (default empty_splrep_kw (splrep_kwargs kwargs))).

(** *** What the loop draws *)

(** What the loop of [plot_data] draws for series [i] with data [y] and
    colour [c]: a scatter group, the curve of the fitted spline on the
    grid over the range of [x_data], and an empty line carrying the
    legend label. *)
Definition series_scatter (x_data y : list Q) (c : Color) : PathCollection :=
  {| offsets_x := x_data; offsets_y := y; facecolor := c |}.

Definition series_curve (grid : list Q) (spl : spline) (c : Color) : Line2D :=
  {| line_xdata := grid; line_ydata := YSplev grid spl; line_fmt := None;
     line_label := None; line_color := c |}.

Definition series_handle (label : string) (c : Color) : Line2D :=
  {| line_xdata := []; line_ydata := YPoints []; line_fmt := Some "-o";
     line_label := Some label; line_color := c |}.

(** The label the loop gives series [i]: [labels[i - 1]], the last
    label for the first series. *)
Definition series_label (labels : list string) (i : nat) : option string :=
  match i with
  | O => last labels
  | S j => labels !! j
  end.

(** The keyword arguments the loop passes to [plot_fit]. *)
Definition loop_fit_kwargs (start stop : Q) : fit_kwargs :=
  {| splrep_kwargs := None;
     linspace_kwargs := Some {| ls_start := start; ls_stop := stop |};
     color := None |}.

(** The colour of series [i] out of [m]. *)
Definition series_color (cm : Colormap) (m i : nat) : Color :=
  cm (1 * inject_Z (Z.of_nat i) / inject_Z (Z.of_nat m))%Q.

(** The two lines the loop adds for series [i]. *)
Definition series_lines (cm : Colormap) (m : nat) (x_data : list Q)
    (labels : list string) (cond : option (list Q -> list Q -> bool))
    (start stop : Q) (i : nat) (y : list Q) : list Line2D :=
  [series_curve (linspace_samples start stop)
     {| spl_x := x_data; spl_y := y; spl_s := 0;
        spl_k := requested_degree cond x_data y (loop_fit_kwargs start stop) |}
     (series_color cm m i);
   series_handle (default "" (series_label labels i)) (series_color cm m i)].

(** The axes after the loop has drawn the series [j], [j+1], ... with the
    data [cols] on the axes [a]. *)
Definition after_series (cm : Colormap) (m : nat) (x_data : list Q)
    (labels : list string) (cond : option (list Q -> list Q -> bool))
    (start stop : Q) (j : nat) (cols : list (list Q)) (a : Axes) : Axes :=
  {| prop_cycle := prop_cycle a;
     fill_idx := (j + length cols) mod m;
     collections := collections a ++
       zip_with (fun i y => series_scatter x_data y (series_color cm m i))
                (seq j (length cols)) cols;
     lines := lines a ++
       concat (zip_with (series_lines cm m x_data labels cond start stop)
                        (seq j (length cols)) cols);
     ax_props := ax_props a;
     legend_ := legend_ a |}.

(** The legend entry of series [i], if its label is one the legend
    shows. *)
Definition series_entry (cm : Colormap) (m : nat) (labels : list string)
    (i : nat) : option (string * Color) :=
  let label := default "" (series_label labels i) in
  if legend_visible label then Some (label, series_color cm m i) else None.

(** *** Example data *)

(** A colormap that is injective: a ramp from blue to red. *)
Definition ramp_cmap : Colormap := fun q => RGBA q 0 (1 - q) 1.

(** A fresh [pyplot] with that colormap registered as viridis. *)
Definition example_pyplot : pyplot :=
  {| cmap_registry := {[ "viridis" := ramp_cmap ]};
     rc_image_cmap := "viridis";
     rc_prop_cycle := [RGBA 0 0 0 1];
     axes := [] |}.

(** A state whose only axes holds one scatter group. *)
Definition example_scatter_state : pyplot :=
  with_axes example_pyplot
    [{| prop_cycle := [RGBA 0 0 0 1]; fill_idx := 0;
        collections := [{| offsets_x := [0; 1; 2; 3]%Q;
                           offsets_y := [5; 4; 2; 1]%Q;
                           facecolor := RGBA 0 0 0 1 |}];
        lines := []; ax_props := None; legend_ := None |}].

(** Keyword arguments for [plot_data] with every dictionary present. *)
Definition example_data_kwargs : data_kwargs :=
  {| fig_kwargs := Some ∅; color_cycle := None; linear_condition := None;
     ax_kwargs := Some ∅; legend_kwargs := Some ∅ |}.

(** The predicate the script passes, [lambda x, y: y[-1] < 10], on a
    series that is not empty ([plot_data] reads [x_data[0]] before it
    calls the predicate, so an empty series never reaches it). *)
Definition script_linear_condition (x y : list Q) : bool :=
  match last y with
  | Some v => negb (Qle_bool 10 v)
  | None => false
  end.

(** The keyword arguments of the script's call, its dictionaries left
    empty. *)
Definition script_data_kwargs : data_kwargs :=
  {| fig_kwargs := Some ∅; color_cycle := None;
     linear_condition := Some script_linear_condition;
     ax_kwargs := Some ∅; legend_kwargs := Some ∅ |}.

End Plot.

(** * Theorems *)

(** ** Division *)

Section Division.

Local Open Scope Q_scope.

Lemma py_div_ok (a b : Q) : ~ b == 0 -> py_div a b = Ok (a / b).
Proof.
  intros Hb. unfold py_div.
  destruct (Qeq_bool b 0) eqn:E; [|reflexivity].
  apply Qeq_bool_iff in E. contradiction.
Qed.

Lemma py_div_zero (a b : Q) : b == 0 -> py_div a b = Raise ZeroDivisionError.
Proof.
  intros Hb. unfold py_div.
  apply Qeq_bool_iff in Hb. now rewrite Hb.
Qed.

Lemma Qmult_nonzero (a b : Q) : ~ a == 0 -> ~ b == 0 -> ~ a * b == 0.
Proof.
  intros Ha Hb H. apply Qmult_integral in H. tauto.
Qed.

Lemma Qpos_nonzero (a : Q) : 0 < a -> ~ a == 0.
Proof.
  intros Ha H. rewrite H in Ha. now apply Qlt_irrefl in Ha.
Qed.

End Division.

(** ** two_x_axis: the transform pair *)

Section TransformPair.

Import TwoXAxis.
Local Open Scope Q_scope.

Variables k T sigma : Q.

Lemma pressure_to_mean_free_path_ok (p : Q) :
  ~ p * sigma == 0 ->
  pressure_to_mean_free_path k T sigma p = Ok (k * T / (p * sigma) * lit_1E6).
Proof.
  intros H. unfold pressure_to_mean_free_path. now rewrite py_div_ok.
Qed.

Lemma mean_free_path_to_pressure_ok (lam : Q) :
  ~ lam * sigma == 0 ->
  mean_free_path_to_pressure k T sigma lam
  = Ok (k * T / (lam * sigma) * lit_1Em6).
Proof.
  intros H. unfold mean_free_path_to_pressure. now rewrite py_div_ok.
Qed.

Lemma pressure_to_mean_free_path_raises (p : Q) :
  p * sigma == 0 ->
  pressure_to_mean_free_path k T sigma p = Raise ZeroDivisionError.
Proof.
  intros H. unfold pressure_to_mean_free_path. now rewrite py_div_zero.
Qed.

Lemma mean_free_path_to_pressure_raises (lam : Q) :
  lam * sigma == 0 ->
  mean_free_path_to_pressure k T sigma lam = Raise ZeroDivisionError.
Proof.
  intros H. unfold mean_free_path_to_pressure. now rewrite py_div_zero.
Qed.

(** The two closures agree with the closed forms wherever the division
    is defined, and raise [ZeroDivisionError] only where it is not. *)
Lemma pressure_to_mean_free_path_spec (p : Q) :
  ~ p == 0 ->
  match pressure_to_mean_free_path k T sigma p with
  | Ok v => v == spec_mean_free_path k T sigma p /\ ~ sigma == 0
  | Raise e => e = ZeroDivisionError /\ sigma == 0
  end.
Proof.
  intros Hp. destruct (Qeq_dec sigma 0) as [Hs|Hs].
  - rewrite pressure_to_mean_free_path_raises; [easy|].
    rewrite Hs. ring.
  - rewrite pressure_to_mean_free_path_ok by now apply Qmult_nonzero.
    split; [|exact Hs]. unfold spec_mean_free_path, lit_1E6. reflexivity.
Qed.

Lemma mean_free_path_to_pressure_spec (lam : Q) :
  ~ lam == 0 ->
  match mean_free_path_to_pressure k T sigma lam with
  | Ok v => v == spec_pressure k T sigma lam /\ ~ sigma == 0
  | Raise e => e = ZeroDivisionError /\ sigma == 0
  end.
Proof.
  intros Hl. destruct (Qeq_dec sigma 0) as [Hs|Hs].
  - rewrite mean_free_path_to_pressure_raises; [easy|].
    rewrite Hs. ring.
  - rewrite mean_free_path_to_pressure_ok by now apply Qmult_nonzero.
    split; [|exact Hs]. unfold spec_pressure, lit_1Em6. reflexivity.
Qed.

(** Composing the two closures does not give the argument back: it
    scales it by 1e-12, in either order. *)
Lemma round_trip_pressure_scaled (p : Q) :
  ~ k == 0 -> ~ T == 0 -> ~ sigma == 0 -> ~ p == 0 ->
  exists v, round_trip_pressure k T sigma p = Ok v
            /\ v == p * (1 # 1000000000000).
Proof.
  intros Hk HT Hs Hp.
  unfold round_trip_pressure, x_tranform_functions; simpl.
  rewrite pressure_to_mean_free_path_ok by now apply Qmult_nonzero.
  simpl. rewrite mean_free_path_to_pressure_ok.
  - eexists; split; [reflexivity|].
    unfold lit_1E6, lit_1Em6. field. tauto.
  - apply Qmult_nonzero; [|exact Hs].
    apply Qmult_nonzero; [|discriminate].
    intros H. apply Qmult_nonzero in H; [exact H| |].
    + now apply Qmult_nonzero.
    + intros Hi. apply (Qmult_nonzero p sigma Hp Hs).
      rewrite <- (Qinv_involutive (p * sigma)), Hi. reflexivity.
Qed.

Lemma round_trip_mean_free_path_scaled (lam : Q) :
  ~ k == 0 -> ~ T == 0 -> ~ sigma == 0 -> ~ lam == 0 ->
  exists v, round_trip_mean_free_path k T sigma lam = Ok v
            /\ v == lam * (1000000000000 # 1).
Proof.
  intros Hk HT Hs Hl.
  unfold round_trip_mean_free_path, x_tranform_functions; simpl.
  rewrite mean_free_path_to_pressure_ok by now apply Qmult_nonzero.
  simpl. rewrite pressure_to_mean_free_path_ok.
  - eexists; split; [reflexivity|].
    unfold lit_1E6, lit_1Em6. field. tauto.
  - apply Qmult_nonzero; [|exact Hs].
    apply Qmult_nonzero; [|discriminate].
    intros H. apply Qmult_nonzero in H; [exact H| |].
    + now apply Qmult_nonzero.
    + intros Hi. apply (Qmult_nonzero lam sigma Hl Hs).
      rewrite <- (Qinv_involutive (lam * sigma)), Hi. reflexivity.
Qed.

(** The inverse of [pressure_to_mean_free_path] is that same
    expression, with the factor [1E6]: applying it twice is the
    identity. *)
Lemma pressure_to_mean_free_path_involutive (p : Q) :
  ~ k == 0 -> ~ T == 0 -> ~ sigma == 0 -> ~ p == 0 ->
  exists v, rbind (pressure_to_mean_free_path k T sigma p)
                  (pressure_to_mean_free_path k T sigma) = Ok v
            /\ v == p.
Proof.
  intros Hk HT Hs Hp.
  rewrite pressure_to_mean_free_path_ok by now apply Qmult_nonzero.
  simpl. rewrite pressure_to_mean_free_path_ok.
  - eexists; split; [reflexivity|].
    unfold lit_1E6. field. tauto.
  - apply Qmult_nonzero; [|exact Hs].
    apply Qmult_nonzero; [|discriminate].
    intros H. apply Qmult_nonzero in H; [exact H| |].
    + now apply Qmult_nonzero.
    + intros Hi. apply (Qmult_nonzero p sigma Hp Hs).
      rewrite <- (Qinv_involutive (p * sigma)), Hi. reflexivity.
Qed.

End TransformPair.

Section TransformClaims.

Import TwoXAxis.
Local Open Scope Q_scope.

(** C5.  The functions produced by [x_tranform_functions(temperature,
    cross_section)] compute the closed forms of the specification: for
    every [p <> 0], [pressure_to_mean_free_path(p)] is
    [k·T / (p·σ) · 1e6], and for every [lam <> 0],
    [mean_free_path_to_pressure(lam)] is [k·T / (lam·σ) · 1e-6].  The
    calls return these values whenever the cross-section is not zero;
    with a zero cross-section the quotient does not exist and the call
    raises [ZeroDivisionError]. *)
Theorem x_tranform_functions_closed_form (k T sigma p lam : Q) :
  ~ p == 0 -> ~ lam == 0 ->
  match fst (x_tranform_functions k T sigma) p with
  | Ok v => v == spec_mean_free_path k T sigma p /\ ~ sigma == 0
  | Raise e => e = ZeroDivisionError /\ sigma == 0
  end
  /\
  match snd (x_tranform_functions k T sigma) lam with
  | Ok v => v == spec_pressure k T sigma lam /\ ~ sigma == 0
  | Raise e => e = ZeroDivisionError /\ sigma == 0
  end.
Proof.
  intros Hp Hl. split; simpl.
  - now apply pressure_to_mean_free_path_spec.
  - now apply mean_free_path_to_pressure_spec.
Qed.

Lemma x_tranform_functions_closed_form_witness :
  (exists v, fst (x_tranform_functions constants_k default_temperature
                    default_cross_section) 2 = Ok v
             /\ v == spec_mean_free_path constants_k default_temperature
                        default_cross_section 2)
  /\
  (exists v, snd (x_tranform_functions constants_k default_temperature
                    default_cross_section) 3 = Ok v
             /\ v == spec_pressure constants_k default_temperature
                        default_cross_section 3).
Proof.
  pose proof (x_tranform_functions_closed_form
                constants_k default_temperature default_cross_section 2 3)
    as H.
  destruct H as [H1 H2]; [discriminate | discriminate |].
  split.
  - destruct (fst _ 2) as [v|e] eqn:E.
    + exists v. split; [reflexivity | apply H1].
    + vm_compute in E. discriminate E.
  - destruct (snd _ 3) as [v|e] eqn:E.
    + exists v. split; [reflexivity | apply H2].
    + vm_compute in E. discriminate E.
Defined.

Lemma quotient_decreasing (c a b s : Q) :
  0 < c -> 0 < s -> 0 < a -> a < b ->
  c / (b * s) < c / (a * s).
Proof.
  intros Hc Hs Ha Hab.
  assert (Hb : 0 < b) by (eapply Qlt_trans; eassumption).
  apply Qlt_minus_iff.
  assert (E : c / (a * s) + - (c / (b * s))
              == c * (b - a) * / (a * b * s)).
  { field. repeat split; apply Qpos_nonzero; assumption. }
  rewrite E.
  apply Qmult_lt_0_compat.
  - apply Qmult_lt_0_compat; [exact Hc|].
    unfold Qminus. now rewrite <- Qlt_minus_iff.
  - apply Qinv_lt_0_compat.
    repeat apply Qmult_lt_0_compat; assumption.
Qed.

(** C9.  Both transforms are strictly decreasing on the positive
    axis (for a positive Boltzmann constant, temperature and
    cross-section, as the script uses them): for pressures
    [0 < a < b] the mean free path at [a] is greater than at [b], and
    likewise for [mean_free_path_to_pressure]. *)
Theorem transforms_strictly_decreasing (k T sigma a b : Q) :
  0 < k -> 0 < T -> 0 < sigma -> 0 < a -> a < b ->
  (exists va vb,
      pressure_to_mean_free_path k T sigma a = Ok va
      /\ pressure_to_mean_free_path k T sigma b = Ok vb
      /\ vb < va)
  /\
  (exists va vb,
      mean_free_path_to_pressure k T sigma a = Ok va
      /\ mean_free_path_to_pressure k T sigma b = Ok vb
      /\ vb < va).
Proof.
  intros Hk HT Hs Ha Hab.
  assert (Hb : 0 < b) by (eapply Qlt_trans; eassumption).
  assert (Hc : 0 < k * T) by now apply Qmult_lt_0_compat.
  assert (Hq := quotient_decreasing (k * T) a b sigma Hc Hs Ha Hab).
  assert (Has : ~ a * sigma == 0)
    by (apply Qmult_nonzero; now apply Qpos_nonzero).
  assert (Hbs : ~ b * sigma == 0)
    by (apply Qmult_nonzero; now apply Qpos_nonzero).
  split.
  - rewrite !pressure_to_mean_free_path_ok by assumption.
    do 2 eexists. split; [reflexivity|]. split; [reflexivity|].
    apply Qmult_lt_compat_r; [reflexivity | exact Hq].
  - rewrite !mean_free_path_to_pressure_ok by assumption.
    do 2 eexists. split; [reflexivity|]. split; [reflexivity|].
    apply Qmult_lt_compat_r; [reflexivity | exact Hq].
Qed.

Lemma transforms_strictly_decreasing_witness :
  (exists va vb,
      pressure_to_mean_free_path constants_k default_temperature
        default_cross_section 1 = Ok va
      /\ pressure_to_mean_free_path constants_k default_temperature
           default_cross_section 10 = Ok vb
      /\ vb < va)
  /\
  (exists va vb,
      mean_free_path_to_pressure constants_k default_temperature
        default_cross_section 1 = Ok va
      /\ mean_free_path_to_pressure constants_k default_temperature
           default_cross_section 10 = Ok vb
      /\ vb < va).
Proof.
  apply (transforms_strictly_decreasing
           constants_k default_temperature default_cross_section 1 10);
    reflexivity.
Defined.

(** C1 (the code departs from it).  With the script's own constants,
    converting the pressure 1 Pa to a mean free path and back yields
    1e-12, not 1: the second closure multiplies by [1E-6] where the
    inverse of the first needs [1E6].  The same happens in the other
    direction, where the mean free path 1 comes back as 1e12. *)
Theorem round_trip_default_is_not_identity :
  (exists v, round_trip_pressure constants_k default_temperature
               default_cross_section 1 = Ok v
             /\ v == 1 # 1000000000000 /\ ~ v == 1)
  /\
  (exists v, round_trip_mean_free_path constants_k default_temperature
               default_cross_section 1 = Ok v
             /\ v == 1000000000000 # 1 /\ ~ v == 1).
Proof.
  split; eexists; (split; [vm_compute; reflexivity|]);
    (split; [reflexivity | discriminate]).
Qed.

End TransformClaims.

(** ** diagram_with_residues: the fit and its residuals *)

Section ResidualLemmas.

Import Residues.
Local Open Scope Q_scope.

Lemma Qlen_cons (a : Q) (l : list Q) : Qlen (a :: l) == Qlen l + 1.
Proof.
  unfold Qlen. cbn [length]. rewrite Nat2Z.inj_succ. unfold Z.succ.
  now rewrite inject_Z_plus.
Qed.

Lemma Qlen_pos (l : list Q) : (0 < length l)%nat -> 0 < Qlen l.
Proof.
  intros H. unfold Qlen. change 0 with (inject_Z 0). rewrite <- Zlt_Qlt. lia.
Qed.

Lemma Qsum_cons (a : Q) (l : list Q) : Qsum (a :: l) = a + Qsum l.
Proof. reflexivity. Qed.

(** The sum of the residuals of any line, in terms of the sums of the data. *)
Lemma Qsum_residuals_of (a b : Q) (x y : list Q) :
  length x = length y ->
  Qsum (residuals_of a b x y) == Qsum y - Qlen x * b - a * Qsum x.
Proof.
  revert y. induction x as [|x0 x IH]; intros [|y0 y] Hlen; try discriminate.
  - unfold Qlen, residuals_of; cbn. change (inject_Z (Z.of_nat 0)) with 0. ring.
  - injection Hlen as Hlen. specialize (IH y Hlen).
    unfold residuals_of in *. cbn [zip_with].
    rewrite !Qsum_cons, IH, Qlen_cons. ring.
Qed.

Lemma Qsum_residuals_zero (a : Q) (x y : list Q) :
  length x = length y -> (0 < length x)%nat ->
  Qsum (residuals_of a (np_mean y - a * np_mean x) x y) == 0.
Proof.
  intros Hlen Hpos. rewrite Qsum_residuals_of by exact Hlen.
  unfold np_mean. unfold Qlen at 2. rewrite <- Hlen. fold (Qlen x).
  field. apply Qpos_nonzero. now apply Qlen_pos.
Qed.

(** [np.amax] and [np.amin] bound every element. *)
Lemma np_amax_ge (xs : list Q) (m : Q) :
  m <= np_amax m xs /\ forall a, In a xs -> a <= np_amax m xs.
Proof.
  revert m. induction xs as [|x xs IH]; intros m; simpl.
  - split; [apply Qle_refl | tauto].
  - unfold np_amax in *. simpl.
    destruct (Qle_bool m x) eqn:E.
    + destruct (IH x) as [H1 H2]. apply Qle_bool_iff in E.
      split; [eapply Qle_trans; eassumption|].
      intros a [<-|Ha]; auto.
    + destruct (IH m) as [H1 H2].
      assert (x <= m).
      { apply Qlt_le_weak, Qnot_le_lt. intros H. apply Qle_bool_iff in H.
        congruence. }
      split; [exact H1|].
      intros a [<-|Ha]; [eapply Qle_trans; eassumption | auto].
Qed.

Lemma np_amin_le (xs : list Q) (m : Q) :
  np_amin m xs <= m /\ forall a, In a xs -> np_amin m xs <= a.
Proof.
  revert m. induction xs as [|x xs IH]; intros m; simpl.
  - split; [apply Qle_refl | tauto].
  - unfold np_amin in *. simpl.
    destruct (Qle_bool x m) eqn:E.
    + destruct (IH x) as [H1 H2]. apply Qle_bool_iff in E.
      split; [eapply Qle_trans; eassumption|].
      intros a [<-|Ha]; auto.
    + destruct (IH m) as [H1 H2].
      assert (m <= x).
      { apply Qlt_le_weak, Qnot_le_lt. intros H. apply Qle_bool_iff in H.
        congruence. }
      split; [exact H1|].
      intros a [<-|Ha]; [eapply Qle_trans; eassumption | auto].
Qed.

Lemma not_constant_amax_amin (x0 : Q) (xs : list Q) :
  not_constant (x0 :: xs) -> ~ np_amax x0 xs == np_amin x0 xs.
Proof.
  intros (a & b & Ha & Hb & Hab) E.
  destruct (np_amax_ge xs x0) as [M0 M], (np_amin_le xs x0) as [m0 m].
  assert (Hin : forall c, In c (x0 :: xs) ->
                          np_amin x0 xs <= c /\ c <= np_amax x0 xs).
  { intros c [<-|Hc]; split; auto. }
  destruct (Hin a Ha) as [A1 A2], (Hin b Hb) as [B1 B2].
  rewrite E in A2, B2.
  apply Hab. transitivity (np_amin x0 xs); [|symmetry];
    now apply Qle_antisym.
Qed.

Lemma Qsq_nonneg (t : Q) : 0 <= t * t.
Proof. nra. Qed.

(** A sum of squares is not negative, and vanishes only with each term. *)
Lemma Qsum_squares_nonneg (f : Q -> Q) (l : list Q) :
  0 <= Qsum (map (fun a => f a * f a) l).
Proof.
  induction l as [|a l IH]; [apply Qle_refl|].
  cbn [map]. rewrite Qsum_cons.
  assert (0 <= f a * f a) by nra.
  lra.
Qed.

Lemma Qsum_squares_zero (f : Q -> Q) (l : list Q) :
  Qsum (map (fun a => f a * f a) l) == 0 ->
  forall a, In a l -> f a == 0.
Proof.
  induction l as [|c l IH]; [intros _ a []|].
  cbn [map]. rewrite Qsum_cons. intros H.
  pose proof (Qsum_squares_nonneg f l) as Hl.
  assert (Hc : 0 <= f c * f c) by nra.
  assert (Hc0 : f c * f c == 0) by lra.
  assert (Hl0 : Qsum (map (fun a => f a * f a) l) == 0) by lra.
  intros a [<-|Ha]; [|now apply IH].
  apply Qmult_integral in Hc0. tauto.
Qed.

Lemma not_constant_length (x : list Q) :
  not_constant x -> (2 <= length x)%nat.
Proof.
  intros (a & b & Ha & Hb & Hab).
  destruct x as [|u [|v x]].
  - destruct Ha.
  - destruct Ha as [<-|[]], Hb as [<-|[]]. now destruct Hab.
  - simpl. lia.
Qed.

Lemma not_constant_ssxm (x : list Q) :
  not_constant x -> ~ ssxm x == 0.
Proof.
  intros Hx E. pose proof (not_constant_length x Hx) as Hlen.
  destruct Hx as (a & b & Ha & Hb & Hab).
  unfold ssxm, np_mean at 1 in E. 
  assert (Hn : 0 < Qlen x) by (apply Qlen_pos; lia).
  assert (E' : Qsum (map (fun xi => (xi - np_mean x) * (xi - np_mean x)) x) == 0).
  { unfold Qlen at 1 in E. rewrite length_map in E. fold (Qlen x) in E.
    apply (Qmult_inj_r _ _ (/ Qlen x)).
    - apply Qpos_nonzero. now apply Qinv_lt_0_compat.
    - rewrite Qmult_0_l. exact E. }
  pose proof (Qsum_squares_zero (fun xi => xi - np_mean x) x E') as Hz.
  apply Hab. pose proof (Hz a Ha). pose proof (Hz b Hb). simpl in *. lra.
Qed.

(** Under the hypotheses of the claim [linregress] returns a fit. *)
Lemma linregress_fits (x y : list Q) :
  length x = length y -> not_constant x ->
  linregress x y
  = Fit (ssxym x y / ssxm x)
        (np_mean y - ssxym x y / ssxm x * np_mean x).
Proof.
  intros Hlen Hx. pose proof (not_constant_length x Hx) as H2.
  pose proof (not_constant_ssxm x Hx) as Hs.
  destruct x as [|x0 xs]; [simpl in H2; lia|].
  destruct y as [|y0 ys]; [discriminate|].
  pose proof (not_constant_amax_amin x0 xs Hx) as Hm.
  unfold linregress.
  destruct (Qeq_bool (np_amax x0 xs) (np_amin x0 xs)) eqn:E1.
  { apply Qeq_bool_iff in E1. contradiction. }
  cbn [andb]. rewrite Hlen, Nat.eqb_refl. cbn [negb].
  destruct (Qeq_bool (ssxm (x0 :: xs)) 0) eqn:E2.
  { apply Qeq_bool_iff in E2. contradiction. }
  reflexivity.
Qed.

(** Expansions of the sums in terms of the power sums of the data. *)
Lemma squared_error_expand (a b : Q) (x y : list Q) :
  length x = length y ->
  squared_error a b x y
  == Qsum (map (fun yi => yi * yi) y)
     - 2 * a * Qsum (zip_with Qmult x y) - 2 * b * Qsum y
     + a * a * Qsum (map (fun xi => xi * xi) x)
     + 2 * a * b * Qsum x + Qlen x * (b * b).
Proof.
  revert y. induction x as [|x0 x IH]; intros [|y0 y] Hlen; try discriminate.
  - unfold Qlen, squared_error; cbn.
    change (inject_Z (Z.of_nat 0)) with 0. ring.
  - injection Hlen as Hlen. specialize (IH y Hlen).
    unfold squared_error in *. cbn [zip_with map].
    rewrite !Qsum_cons, IH, Qlen_cons. ring.
Qed.

Lemma deviation_squares_expand (m : Q) (x : list Q) :
  Qsum (map (fun xi => (xi - m) * (xi - m)) x)
  == Qsum (map (fun xi => xi * xi) x) - 2 * m * Qsum x + Qlen x * (m * m).
Proof.
  induction x as [|x0 x IH].
  - unfold Qlen; cbn. ring.
  - cbn [map]. rewrite !Qsum_cons, IH, Qlen_cons. ring.
Qed.

Lemma codeviation_expand (mx my : Q) (x y : list Q) :
  length x = length y ->
  Qsum (zip_with (fun xi yi => (xi - mx) * (yi - my)) x y)
  == Qsum (zip_with Qmult x y) - mx * Qsum y - my * Qsum x
     + Qlen x * (mx * my).
Proof.
  revert y. induction x as [|x0 x IH]; intros [|y0 y] Hlen; try discriminate.
  - unfold Qlen; cbn. ring.
  - injection Hlen as Hlen. specialize (IH y Hlen).
    cbn [zip_with]. rewrite !Qsum_cons, IH, Qlen_cons. ring.
Qed.

Lemma ssxm_nonneg (x : list Q) : (0 < length x)%nat -> 0 <= ssxm x.
Proof.
  intros Hx. unfold ssxm, np_mean at 1.
  apply Qle_shift_div_l.
  - apply Qlen_pos. now rewrite length_map.
  - rewrite Qmult_0_l.
    apply (Qsum_squares_nonneg (fun xi => xi - np_mean x)).
Qed.

(** The line [linregress] returns has the least squared error. *)
Lemma linregress_least_squares (x y : list Q) (a b : Q) :
  length x = length y -> not_constant x ->
  squared_error (ssxym x y / ssxm x)
                (np_mean y - ssxym x y / ssxm x * np_mean x) x y
  <= squared_error a b x y.
Proof.
  intros Hlen Hx. pose proof (not_constant_length x Hx) as H2.
  pose proof (not_constant_ssxm x Hx) as HV.
  assert (Hn : 0 < Qlen x) by (apply Qlen_pos; lia).
  assert (Hn0 : ~ Qlen x == 0) by now apply Qpos_nonzero.
  pose proof (ssxm_nonneg x ltac:(lia)) as HV0.
  assert (Hly : Qlen y = Qlen x) by (unfold Qlen; now rewrite Hlen).
  assert (Hxx : Qsum (map (fun xi => xi * xi) x)
                == ssxm x * Qlen x + Qsum x * Qsum x / Qlen x).
  { unfold ssxm at 1, np_mean at 1. unfold Qlen at 1. rewrite length_map.
    fold (Qlen x). rewrite deviation_squares_expand. unfold np_mean.
    field. exact Hn0. }
  assert (Hxy : Qsum (zip_with Qmult x y)
                == ssxym x y * Qlen x + Qsum x * Qsum y / Qlen x).
  { unfold ssxym at 1, np_mean at 1. unfold Qlen at 1.
    rewrite length_zip_with_l_eq by exact Hlen.
    fold (Qlen x). rewrite codeviation_expand by exact Hlen. unfold np_mean.
    rewrite Hly. field. exact Hn0. }
  rewrite !squared_error_expand by exact Hlen.
  rewrite Hxx, Hxy. unfold np_mean. rewrite Hly.
  set (n := Qlen x) in *. set (V := ssxm x) in *. set (C := ssxym x y) in *.
  set (Sx := Qsum x). set (Sy := Qsum y).
  set (Syy := Qsum (map (fun yi => yi * yi) y)).
  apply Qle_minus_iff.
  match goal with |- 0 <= ?e =>
    assert (E : e == n * ((b - (Sy / n - C / V * (Sx / n)) + (a - C / V) * (Sx / n))
                          * (b - (Sy / n - C / V * (Sx / n)) + (a - C / V) * (Sx / n)))
                     + (a - C / V) * (a - C / V) * (n * V))
  end.
  { field. split; assumption. }
  rewrite E.
  apply (Qplus_le_compat 0 _ 0 _).
  - apply Qmult_le_0_compat; [now apply Qlt_le_weak | apply Qsq_nonneg].
  - apply Qmult_le_0_compat; [apply Qsq_nonneg|].
    apply Qmult_le_0_compat; [now apply Qlt_le_weak | exact HV0].
Qed.

(** Conversely, the residuals of any line of least squared error sum to
    zero: moving the intercept by the mean residual would lower the
    error otherwise. *)
Lemma least_squares_residuals_sum (a b : Q) (x y : list Q) :
  length x = length y -> (0 < length x)%nat ->
  (forall a' b', squared_error a b x y <= squared_error a' b' x y) ->
  Qsum (residuals_of a b x y) == 0.
Proof.
  intros Hlen Hpos Hmin.
  assert (Hn : 0 < Qlen x) by now apply Qlen_pos.
  assert (Hn0 : ~ Qlen x == 0) by now apply Qpos_nonzero.
  set (R := Qsum (residuals_of a b x y)).
  assert (HR : R == Qsum y - Qlen x * b - a * Qsum x)
    by now apply Qsum_residuals_of.
  specialize (Hmin a (b + R / Qlen x)).
  rewrite !squared_error_expand in Hmin by exact Hlen.
  apply Qle_minus_iff in Hmin.
  match type of Hmin with 0 <= ?e =>
    assert (E : e == - (R * R) / Qlen x)
  end.
  { rewrite HR. field. exact Hn0. }
  rewrite E in Hmin.
  assert (H0 : R * R <= 0).
  { apply Qopp_le_compat in Hmin.
    assert (E2 : - (- (R * R) / Qlen x) == R * R / Qlen x)
      by (field; exact Hn0).
    rewrite E2 in Hmin. change (- 0) with 0 in Hmin.
    apply (Qmult_le_compat_r _ _ (Qlen x)) in Hmin;
      [|now apply Qlt_le_weak].
    rewrite Qmult_0_l in Hmin.
    assert (E3 : R * R / Qlen x * Qlen x == R * R) by (field; exact Hn0).
    now rewrite E3 in Hmin. }
  pose proof (Qsq_nonneg R) as H1.
  assert (H2 : R * R == 0) by now apply Qle_antisym.
  apply Qmult_integral in H2. tauto.
Qed.

(** The residuals, point by point. *)
Lemma residuals_of_length (a b : Q) (x y : list Q) :
  length x = length y -> length (residuals_of a b x y) = length x.
Proof.
  intros Hlen. unfold residuals_of.
  rewrite length_zip_with_l_eq by (symmetry; exact Hlen).
  symmetry; exact Hlen.
Qed.

Lemma residuals_of_lookup (a b : Q) (x y : list Q) (i : nat) (xi yi : Q) :
  x !! i = Some xi -> y !! i = Some yi ->
  residuals_of a b x y !! i = Some (yi - (b + a * xi)).
Proof.
  intros Hx Hy. unfold residuals_of.
  apply lookup_zip_with_Some. exists yi, xi. auto.
Qed.

(** A NaN is within no tolerance of anything. *)
Lemma nan_exceeds_tolerance (tol : PrimFloat.float) :
  PrimFloat.leb (PrimFloat.abs PrimFloat.nan) tol = false.
Proof.
  rewrite FloatAxioms.leb_spec. reflexivity.
Qed.

End ResidualLemmas.

Section ResidualClaims.

Import Residues.
Local Open Scope Q_scope.

(** C4, as stated, fails on its floating-point part.  The integers
    [10^16] and [10^16 + 1] differ, so [x] is not constant and
    [linregress] does not refuse it, but both convert to the binary64
    value [1e16]: the deviations of [x] from its mean vanish, the slope
    is [0.0 / 0.0], and every residual and their sum are NaN, within no
    tolerance of zero.  In exact arithmetic the same data give
    residuals that sum to zero. *)
Lemma y_residuals_binary64_nan :
  length Binary64.collapsing_x = length Binary64.collapsing_y
  /\ (2 <= length Binary64.collapsing_x)%nat
  /\ not_constant (map inject_Z Binary64.collapsing_x)
  /\ (exists res,
        y_residuals (map inject_Z Binary64.collapsing_x)
                    Binary64.collapsing_y_exact = Ok (Some res)
        /\ Qsum res == 0)
  /\ (exists res,
        Binary64.y_residuals Binary64.collapsing_x Binary64.collapsing_y
        = Ok res
        /\ Forall (fun r => PrimFloat.is_nan r = true) res
        /\ PrimFloat.is_nan (Binary64.np_sum res) = true
        /\ forall tol,
             PrimFloat.leb (PrimFloat.abs (Binary64.np_sum res)) tol = false).
Proof.
  split; [reflexivity|]. split; [simpl; lia|]. split; [|split].
  - exists (inject_Z 10000000000000000), (inject_Z 10000000000000001).
    split; [now left|]. split; [right; now left|]. discriminate.
  - eexists. split; [vm_compute; reflexivity|]. reflexivity.
  - exists [PrimFloat.nan; PrimFloat.nan].
    split; [vm_compute; reflexivity|].
    split; [repeat constructor|].
    split; [reflexivity|].
    intros tol.
    change (Binary64.np_sum [PrimFloat.nan; PrimFloat.nan]) with PrimFloat.nan.
    apply nan_exceeds_tolerance.
Qed.

(** C4, amended to exact arithmetic.  For equal-length sequences [x],
    [y] of length at least 2 with [x] not constant, [linregress]
    returns the slope and intercept of the line of least squared error;
    the residuals the script derives from them are, point by point,
    [y_i - (slope * x_i + intercept)], one for each point, and they sum
    to zero.  The same sum is zero for any line of least squared
    error. *)
Theorem y_residuals_sum_to_zero (x y : list Q) :
  length x = length y -> (2 <= length x)%nat -> not_constant x ->
  exists slope intercept res,
    linregress x y = Fit slope intercept
    /\ (forall a b, squared_error slope intercept x y
                    <= squared_error a b x y)
    /\ y_residuals x y = Ok (Some res)
    /\ length res = length x
    /\ (forall i xi yi,
          x !! i = Some xi -> y !! i = Some yi ->
          exists r, res !! i = Some r /\ r == yi - (slope * xi + intercept))
    /\ Qsum res == 0
    /\ (forall a b,
          (forall a' b', squared_error a b x y <= squared_error a' b' x y) ->
          Qsum (residuals_of a b x y) == 0).
Proof.
  intros Hlen H2 Hx.
  pose proof (linregress_fits x y Hlen Hx) as Hfit.
  do 3 eexists. split; [exact Hfit|].
  split; [|split; [|split; [|split; [|split]]]].
  - intros a b. now apply linregress_least_squares.
  - unfold y_residuals. now rewrite Hfit.
  - now apply residuals_of_length.
  - intros i xi yi Hxi Hyi. eexists. split.
    + exact (residuals_of_lookup _ _ x y i xi yi Hxi Hyi).
    + ring.
  - apply Qsum_residuals_zero; [exact Hlen | lia].
  - intros a b Hmin.
    apply least_squares_residuals_sum; [exact Hlen | lia | exact Hmin].
Qed.

Lemma y_residuals_sum_to_zero_witness :
  exists slope intercept res,
    linregress [1; 2; 3] [2; 4; 7] = Fit slope intercept
    /\ (forall a b, squared_error slope intercept [1; 2; 3] [2; 4; 7]
                    <= squared_error a b [1; 2; 3] [2; 4; 7])
    /\ y_residuals [1; 2; 3] [2; 4; 7] = Ok (Some res)
    /\ length res = 3%nat
    /\ (forall i xi yi,
          [1; 2; 3] !! i = Some xi -> [2; 4; 7] !! i = Some yi ->
          exists r, res !! i = Some r /\ r == yi - (slope * xi + intercept))
    /\ Qsum res == 0
    /\ (forall a b,
          (forall a' b', squared_error a b [1; 2; 3] [2; 4; 7]
                         <= squared_error a' b' [1; 2; 3] [2; 4; 7]) ->
          Qsum (residuals_of a b [1; 2; 3] [2; 4; 7]) == 0).
Proof.
  apply (y_residuals_sum_to_zero [1; 2; 3] [2; 4; 7]).
  - reflexivity.
  - simpl. lia.
  - exists 1, 2. split; [now left|]. split; [right; now left|].
    discriminate.
Defined.

End ResidualClaims.

(** ** plot_one_x_many_y: header extraction *)

Section HeaderLemmas.

Import Header.
Local Open Scope string_scope.

Implicit Types (fs : file_system) (s cur : string) (d : option string).


Lemma getline_present fs file_path (h : nat) (l : string) :
  getlines fs file_path !! h = Some l ->
  getline fs file_path (Z.of_nat h + 1) = l.
Proof.
  intros Hl. unfold getline.
  pose proof (lookup_lt_Some _ _ _ Hl) as Hlt.
  replace (1 <=? Z.of_nat h + 1)%Z with true by (symmetry; apply Z.leb_le; lia).
  replace (Z.of_nat h + 1 <=? Z.of_nat (length (getlines fs file_path)))%Z
    with true by (symmetry; apply Z.leb_le; lia).
  cbn [andb].
  replace (Z.to_nat (Z.of_nat h + 1 - 1)) with h by lia.
  now apply nth_lookup_Some.
Qed.


Lemma str_split_empty_delimiter s : str_split s (Some "") = Raise ValueError.
Proof. reflexivity. Qed.



(** Upper-casing and the final line feed. *)
Lemma upper_ascii_LF (c : ascii) : Ascii.eqb (upper_ascii c) LF = Ascii.eqb c LF.
Proof.
  destruct c as [[] [] [] [] [] [] [] []]; reflexivity.
Qed.

Lemma upper_chomp s : upper (chomp s) = chomp (upper s).
Proof.
  induction s as [|c s IH]; [reflexivity|].
  destruct s as [|c' s'].
  - cbn [chomp upper]. rewrite upper_ascii_LF.
    now destruct (Ascii.eqb c LF).
  - change (chomp (String c (String c' s')))
      with (String c (chomp (String c' s'))).
    cbn [upper] in *. rewrite IH. reflexivity.
Qed.

Lemma isspace_LF (c : ascii) : Ascii.eqb c LF = true -> isspace c = true.
Proof.
  intros H. apply Ascii.eqb_eq in H. now subst.
Qed.

Lemma split_whitespace_from_chomp cur s :
  split_whitespace_from cur (chomp s) = split_whitespace_from cur s.
Proof.
  revert cur. induction s as [|c s IH]; intros cur; [reflexivity|].
  destruct s as [|c' s'].
  - cbn [chomp]. destruct (Ascii.eqb c LF) eqn:E; [|reflexivity].
    cbn [split_whitespace_from]. rewrite (isspace_LF c E).
    now destruct (String.eqb cur "").
  - change (chomp (String c (String c' s')))
      with (String c (chomp (String c' s'))).
    cbn [split_whitespace_from].
    destruct (isspace c); [destruct (String.eqb cur "")|]; now rewrite IH.
Qed.

(** With the whitespace delimiter the code returns the tokens of the
    text of the line. *)

(** With the whitespace delimiter the code returns the tokens of the
    text of the line, as the specification reads it. *)
Lemma get_line_whitespace_tokens fs file_path (h : nat) (uppercase : bool)
    (toks : list string) :
  spec_tokens fs file_path h uppercase None = Some toks ->
  get_line fs file_path (Z.of_nat h) uppercase None = Ok toks.
Proof.
  unfold spec_tokens, get_line.
  destruct (getlines fs file_path !! h) as [l|] eqn:Hl; [|discriminate].
  intros [= <-]. rewrite (getline_present _ _ _ _ Hl).
  cbn [str_split]. f_equal. unfold split_whitespace.
  destruct uppercase.
  - now rewrite upper_chomp, split_whitespace_from_chomp.
  - now rewrite split_whitespace_from_chomp.
Qed.

End HeaderLemmas.

Section HeaderClaims.

Import Header.
Local Open Scope string_scope.

(** C6 (the code departs from it).  On a three-line file with a comma
    delimiter and [header_line=1], the specification's reading gives
    the upper-cased tokens of the second line; the code splits the line
    together with its line feed, so its last token ends in a line feed.
    With the default whitespace delimiter both agree. *)
Theorem get_line_delimiter_keeps_line_feed :
  get_line example_file_system "example.csv" 1 default_uppercase (Some ",")
  = Ok ["HEIGHT"; "FLUX A"; "FLUX B" ++ nl]
  /\ spec_tokens example_file_system "example.csv" 1 default_uppercase (Some ",")
     = Some ["HEIGHT"; "FLUX A"; "FLUX B"]
  /\ get_line example_file_system "example.csv" 1 default_uppercase
       default_delimiter
     = Ok ["HEIGHT,FLUX"; "A,FLUX"; "B"]
  /\ spec_tokens example_file_system "example.csv" 1 default_uppercase
       default_delimiter
     = Some ["HEIGHT,FLUX"; "A,FLUX"; "B"].
Proof. repeat split; vm_compute; reflexivity. Qed.







End HeaderClaims.

(** ** plot_one_x_many_y: colour cycle, fit and plot *)

Section PlotLemmas.

Import Plot.
Local Open Scope string_scope.

Lemma cycle_colors_length (cm : Colormap) (m : nat) :
  length (cycle_colors cm m) = m.
Proof. unfold cycle_colors. now rewrite length_map, length_seq. Qed.

Lemma cycle_colors_lookup (cm : Colormap) (m i : nat) :
  (i < m)%nat ->
  cycle_colors cm m !! i
  = Some (cm (1 * inject_Z (Z.of_nat i) / inject_Z (Z.of_nat m))%Q).
Proof.
  intros Hi. unfold cycle_colors.
  rewrite list_lookup_fmap, lookup_seq_lt by exact Hi. reflexivity.
Qed.

Lemma cycle_colors_lookup_inv (cm : Colormap) (m i : nat) (c : Color) :
  cycle_colors cm m !! i = Some c ->
  (i < m)%nat /\ c = cm (1 * inject_Z (Z.of_nat i) / inject_Z (Z.of_nat m))%Q.
Proof.
  intros H. pose proof (lookup_lt_Some _ _ _ H) as Hi.
  rewrite cycle_colors_length in Hi. split; [exact Hi|].
  rewrite cycle_colors_lookup in H by exact Hi. congruence.
Qed.

(** The fractions [i / m] for [i < m] lie in [0, 1) and differ for
    different [i]. *)
Lemma fraction_range (m i : nat) :
  (i < m)%nat ->
  (0 <= 1 * inject_Z (Z.of_nat i) / inject_Z (Z.of_nat m)
   /\ 1 * inject_Z (Z.of_nat i) / inject_Z (Z.of_nat m) < 1)%Q.
Proof.
  intros Hi.
  assert (Hm : (0 < inject_Z (Z.of_nat m))%Q).
  { change 0%Q with (inject_Z 0). rewrite <- Zlt_Qlt. lia. }
  split.
  - apply Qle_shift_div_l; [exact Hm|]. rewrite Qmult_0_l, Qmult_1_l.
    change 0%Q with (inject_Z 0). rewrite <- Zle_Qle. lia.
  - apply Qlt_shift_div_r; [exact Hm|]. rewrite !Qmult_1_l.
    rewrite <- Zlt_Qlt. lia.
Qed.

Lemma fraction_inj (m i j : nat) :
  (i < m)%nat ->
  (1 * inject_Z (Z.of_nat i) / inject_Z (Z.of_nat m)
   == 1 * inject_Z (Z.of_nat j) / inject_Z (Z.of_nat m))%Q ->
  i = j.
Proof.
  intros Hi E.
  assert (Hm : ~ (inject_Z (Z.of_nat m) == 0)%Q).
  { change 0%Q with (inject_Z 0). rewrite inject_Z_injective. lia. }
  apply (Qmult_inj_r _ _ _ Hm) in E.
  unfold Qdiv in E.
  rewrite <- !Qmult_assoc, (Qmult_comm (/ _)), Qmult_inv_r, !Qmult_1_r, !Qmult_1_l in E
    by exact Hm.
  rewrite inject_Z_injective in E. lia.
Qed.

(** *** Running the state monad *)

Lemma bind_ok {A B : Type} (m : M A) (k : A -> M B) (st st' : pyplot) (a : A) :
  m st = Ok (a, st') -> (m ≫= k) st = k a st'.
Proof. intros H. unfold mbind, M_bind. now rewrite H. Qed.

Lemma bind_raise {A B : Type} (m : M A) (k : A -> M B) (st : pyplot) (e : exn) :
  m st = Raise e -> (m ≫= k) st = Raise e.
Proof. intros H. unfold mbind, M_bind. now rewrite H. Qed.

Lemma lift_ok {A : Type} (r : result A) (a : A) (st : pyplot) :
  r = Ok a -> lift r st = Ok (a, st).
Proof. now intros ->. Qed.

Lemma get_axes_ok (h : nat) (st : pyplot) (a : Axes) :
  axes st !! h = Some a -> get_axes h st = Ok (a, st).
Proof. intros H. unfold get_axes. now rewrite H. Qed.

Lemma update_axes_ok (h : nat) (f : Axes -> Axes) (st : pyplot) (a : Axes) :
  axes st !! h = Some a ->
  update_axes h f st = Ok (tt, with_axes st (<[h := f a]> (axes st))).
Proof. intros H. unfold update_axes. now rewrite H. Qed.

Lemma lookup_with_axes_insert (st : pyplot) (h : nat) (a b : Axes) :
  axes st !! h = Some a ->
  axes (with_axes st (<[h := b]> (axes st))) !! h = Some b.
Proof.
  intros H. cbn [with_axes axes].
  apply list_lookup_insert_eq. now apply lookup_lt_Some in H.
Qed.

(** *** Python indexing *)

Lemma py_index_nat {A : Type} (l : list A) (i : nat) (a : A) :
  l !! i = Some a -> py_index l (Z.of_nat i) = Ok a.
Proof.
  intros H. pose proof (lookup_lt_Some _ _ _ H) as Hi. unfold py_index.
  replace (Z.of_nat i <? 0)%Z with false by (symmetry; apply Z.ltb_ge; lia).
  replace ((0 <=? Z.of_nat i) && (Z.of_nat i <? Z.of_nat (length l)))%Z
    with true
    by (symmetry; apply andb_true_iff; split;
        [apply Z.leb_le | apply Z.ltb_lt]; lia).
  now rewrite Nat2Z.id, H.
Qed.

Lemma py_index_last {A : Type} (l : list A) (a : A) :
  last l = Some a -> py_index l (-1) = Ok a.
Proof.
  intros H. rewrite last_lookup in H.
  pose proof (lookup_lt_Some _ _ _ H) as Hi. unfold py_index.
  change (-1 <? 0)%Z with true. cbv iota.
  replace ((0 <=? Z.of_nat (length l) + -1)
           && (Z.of_nat (length l) + -1 <? Z.of_nat (length l)))%Z
    with true
    by (symmetry; apply andb_true_iff; split;
        [apply Z.leb_le | apply Z.ltb_lt]; lia).
  replace (Z.to_nat (Z.of_nat (length l) + -1)) with (pred (length l)) by lia.
  now rewrite H.
Qed.

(** *** The colour cycle *)

Lemma set_color_cycle_ok (st : pyplot) (ax : nat) (a : Axes)
    (colormap : cmap_arg) (cm : Colormap) (m : nat) :
  axes st !! ax = Some a ->
  get_cmap colormap st = Ok (cm, st) ->
  set_color_cycle ax colormap m st
  = Ok (tt, with_axes st
              (<[ax := {| prop_cycle := cycle_colors cm m; fill_idx := 0;
                          collections := collections a; lines := lines a;
                          ax_props := ax_props a; legend_ := legend_ a |}]>
                 (axes st))).
Proof.
  intros Ha Hcm. unfold set_color_cycle.
  rewrite (bind_ok _ _ _ _ _ Hcm). unfold set_prop_cycle.
  now rewrite (update_axes_ok _ _ _ _ Ha).
Qed.

(** *** The fit *)

Lemma gca_ok (st : pyplot) (a_last : Axes) :
  last (axes st) = Some a_last ->
  gca st = Ok ((length (axes st) - 1)%nat, st).
Proof.
  unfold gca. destruct (axes st); [discriminate | reflexivity].
Qed.

Lemma last_scatter_color_ok (st : pyplot) (a_last : Axes) (pc : PathCollection) :
  last (axes st) = Some a_last ->
  last (collections a_last) = Some pc ->
  last_scatter_color st = Ok (facecolor pc, st).
Proof.
  intros Ha Hc. unfold last_scatter_color.
  rewrite (bind_ok _ _ _ _ _ (gca_ok st a_last Ha)).
  assert (Hl : axes st !! (length (axes st) - 1)%nat = Some a_last).
  { rewrite last_lookup in Ha.
    now replace (length (axes st) - 1)%nat with (pred (length (axes st))) by lia. }
  rewrite (bind_ok _ _ _ _ _ (get_axes_ok _ _ _ Hl)).
  rewrite (bind_ok _ _ _ _ _ (lift_ok _ _ _ (py_index_last _ _ Hc))).
  reflexivity.
Qed.

Lemma splrep_ok (x y : list Q) (kw : splrep_kw) :
  length x = length y ->
  (1 <= default 3 (kw_k kw) <= 5)%Z ->
  (default 3 (kw_k kw) < Z.of_nat (length x))%Z ->
  Qle_bool 0 (default 0%Q (kw_s kw)) = true ->
  increasing (Qeq_bool (default 0%Q (kw_s kw)) 0) x = true ->
  splrep x y kw
  = Ok {| spl_x := x; spl_y := y; spl_s := default 0%Q (kw_s kw);
          spl_k := default 3%Z (kw_k kw) |}.
Proof.
  intros Hlen [Hk1 Hk5] Hm Hs Hinc. unfold splrep.
  rewrite Hlen, Nat.eqb_refl. cbn [negb].
  replace (1 <=? default 3 (kw_k kw))%Z with true
    by (symmetry; now apply Z.leb_le).
  replace (default 3 (kw_k kw) <=? 5)%Z with true
    by (symmetry; now apply Z.leb_le).
  cbn [andb negb].
  replace (Z.of_nat (length y) <=? default 3 (kw_k kw))%Z with false
    by (symmetry; apply Z.leb_gt; lia).
  now rewrite Hs, Hinc.
Qed.

Lemma splrep_degree (x y : list Q) (kw : splrep_kw) (spl : spline) :
  splrep x y kw = Ok spl -> spl_k spl = default 3%Z (kw_k kw).
Proof.
  unfold splrep. repeat (case_match; try discriminate). now intros [= <-].
Qed.

(** What lines 84-86 leave in the dictionary handed to [splrep]. *)
Lemma apply_linear_condition_k (cond : option (list Q -> list Q -> bool))
    (x y : list Q) (kwargs : fit_kwargs) :
  default 3%Z (kw_k (default empty_splrep_kw
                       (splrep_kwargs (apply_linear_condition cond x y kwargs))))
  = requested_degree cond x y kwargs.
Proof.
  unfold apply_linear_condition, requested_degree.
  destruct cond as [c|]; [destruct (c x y)|]; reflexivity.
Qed.

Lemma apply_linear_condition_s (cond : option (list Q -> list Q -> bool))
    (x y : list Q) (kwargs : fit_kwargs) :
  kw_s (default empty_splrep_kw
          (splrep_kwargs (apply_linear_condition cond x y kwargs)))
  = kw_s (default empty_splrep_kw (splrep_kwargs kwargs)).
Proof.
  unfold apply_linear_condition.
  destruct cond as [c|]; [destruct (c x y)|]; reflexivity.
Qed.

Lemma apply_linear_condition_rest (cond : option (list Q -> list Q -> bool))
    (x y : list Q) (kwargs : fit_kwargs) :
  linspace_kwargs (apply_linear_condition cond x y kwargs)
  = linspace_kwargs kwargs
  /\ color (apply_linear_condition cond x y kwargs) = color kwargs.
Proof.
  unfold apply_linear_condition.
  destruct cond as [c|]; [destruct (c x y)|]; split; reflexivity.
Qed.

Lemma cycle_colors_distinct (cm : Colormap) (m i j : nat) (ci cj : Color) :
  (forall p q : Q, (0 <= p)%Q -> (p < 1)%Q -> (0 <= q)%Q -> (q < 1)%Q ->
                   color_eq (cm p) (cm q) -> (p == q)%Q) ->
  i <> j ->
  cycle_colors cm m !! i = Some ci -> cycle_colors cm m !! j = Some cj ->
  ~ color_eq ci cj.
Proof.
  intros Hinj Hij Hi Hj Hc.
  apply cycle_colors_lookup_inv in Hi as [Hi ->].
  apply cycle_colors_lookup_inv in Hj as [Hj ->].
  destruct (fraction_range m i Hi) as [Hi0 Hi1].
  destruct (fraction_range m j Hj) as [Hj0 Hj1].
  apply Hij, (fraction_inj m i j Hi).
  now apply Hinj.
Qed.

(** *** The loop of [plot_data] *)

Lemma py_index_series_label (labels : list string) (i : nat) (s : string) :
  series_label labels i = Some s ->
  py_index labels (Z.of_nat i - 1) = Ok s.
Proof.
  destruct i as [|j]; cbn [series_label]; intros H.
  - now apply py_index_last.
  - replace (Z.of_nat (S j) - 1)%Z with (Z.of_nat j) by lia.
    now apply py_index_nat.
Qed.

Lemma scatter_ok (st : pyplot) (ax : nat) (a : Axes) (x y : list Q) (c : Color) :
  axes st !! ax = Some a ->
  length x = length y ->
  prop_cycle a !! fill_idx a = Some c ->
  scatter ax x y st
  = Ok (tt, with_axes st
              (<[ax := {| prop_cycle := prop_cycle a;
                          fill_idx := S (fill_idx a) mod length (prop_cycle a);
                          collections := collections a ++ [series_scatter x y c];
                          lines := lines a; ax_props := ax_props a;
                          legend_ := legend_ a |}]> (axes st))).
Proof.
  intros Ha Hlen Hc. unfold scatter.
  rewrite (bind_ok _ _ _ _ _ (get_axes_ok _ _ _ Ha)).
  rewrite Hlen, Nat.eqb_refl. cbn [negb]. rewrite Hc.
  now rewrite (update_axes_ok _ _ _ _ Ha).
Qed.

Lemma plot_ok (st : pyplot) (ax : nat) (a : Axes) (xd : list Q) (yd : ydata)
    (fmt label : option string) (c : Color) :
  axes st !! ax = Some a ->
  plot ax xd yd fmt label c st
  = Ok (tt, with_axes st
              (<[ax := {| prop_cycle := prop_cycle a; fill_idx := fill_idx a;
                          collections := collections a;
                          lines := lines a ++
                            [{| line_xdata := xd; line_ydata := yd;
                                line_fmt := fmt; line_label := label;
                                line_color := c |}];
                          ax_props := ax_props a; legend_ := legend_ a |}]>
                 (axes st))).
Proof.
  intros Ha. unfold plot. now rewrite (update_axes_ok _ _ _ _ Ha).
Qed.

Lemma with_axes_with_axes (st : pyplot) (l l' : list Axes) :
  with_axes (with_axes st l) l' = with_axes st l'.
Proof. reflexivity. Qed.

Lemma last_insert_last (l : list Axes) (ax : nat) (b : Axes) :
  length l = S ax -> last (<[ax := b]> l) = Some b.
Proof.
  intros Hl. rewrite last_lookup, length_insert, Hl. cbn [pred].
  apply list_lookup_insert_eq. lia.
Qed.

(** [plot_fit] run to its end: the spline and the state it leaves. *)
Lemma plot_fit_ok (st : pyplot) (ax : nat) (a a_last : Axes)
    (pc : PathCollection) (x y : list Q)
    (cond : option (list Q -> list Q -> bool)) (kwargs : fit_kwargs)
    (ls : linspace_kw) :
  let kw := default empty_splrep_kw (splrep_kwargs kwargs) in
  let k := requested_degree cond x y kwargs in
  let spl := {| spl_x := x; spl_y := y; spl_s := default 0%Q (kw_s kw);
                spl_k := k |} in
  let grid := linspace_samples (ls_start ls) (ls_stop ls) in
  axes st !! ax = Some a ->
  last (axes st) = Some a_last ->
  last (collections a_last) = Some pc ->
  linspace_kwargs kwargs = Some ls ->
  length x = length y ->
  (1 <= k <= 5)%Z ->
  (k < Z.of_nat (length x))%Z ->
  Qle_bool 0 (default 0%Q (kw_s kw)) = true ->
  increasing (Qeq_bool (default 0%Q (kw_s kw)) 0) x = true ->
  plot_fit ax x y cond kwargs st
  = Ok (spl, with_axes st
               (<[ax := {| prop_cycle := prop_cycle a; fill_idx := fill_idx a;
                           collections := collections a;
                           lines := lines a ++
                             [series_curve grid spl
                                (default (facecolor pc) (color kwargs))];
                           ax_props := ax_props a; legend_ := legend_ a |}]>
                  (axes st))).
Proof.
  intros kw k spl grid Ha Hlast Hpc Hls Hlen Hk Hm Hs Hinc.
  pose proof (apply_linear_condition_k cond x y kwargs) as Ek.
  pose proof (apply_linear_condition_s cond x y kwargs) as Es.
  destruct (apply_linear_condition_rest cond x y kwargs) as [El Ec].
  fold k in Ek. fold kw in Es.
  unfold plot_fit.
  set (kwargs' := apply_linear_condition cond x y kwargs) in *.
  set (kw' := default empty_splrep_kw (splrep_kwargs kwargs')) in *.
  assert (Hfit : splrep x y kw' = Ok spl).
  { rewrite splrep_ok; rewrite ?Ek, ?Es; try assumption. reflexivity. }
  assert (Hgrid : linspace (linspace_kwargs kwargs') = Ok grid).
  { now rewrite El, Hls. }
  rewrite (bind_ok _ _ _ _ _ (lift_ok _ _ _ Hfit)).
  rewrite (bind_ok _ _ _ _ _ (lift_ok _ _ _ Hgrid)).
  rewrite (bind_ok _ _ _ _ _ (last_scatter_color_ok _ _ _ Hlast Hpc)).
  rewrite (bind_ok _ _ _ _ _ (plot_ok _ _ _ _ _ _ _ _ Ha)).
  rewrite Ec. reflexivity.
Qed.

(** The degree the loop of [plot_data] asks for is 1 or 3. *)
Lemma loop_degree (cond : option (list Q -> list Q -> bool)) (x y : list Q)
    (ls : option linspace_kw) :
  let k := requested_degree cond x y
             {| splrep_kwargs := None; linspace_kwargs := ls; color := None |} in
  k = 1%Z \/ k = 3%Z.
Proof.
  unfold requested_degree. cbn.
  destruct (match cond with Some c => c x y | None => false end); auto.
Qed.

(** One turn of the loop of [plot_data]. *)
Lemma plot_series_ok (st : pyplot) (ax : nat) (a : Axes) (x_data y : list Q)
    (labels : list string) (kwargs : data_kwargs) (i : nat) (c : Color)
    (label : string) (start stop : Q) :
  let fit_kw := {| splrep_kwargs := None;
                   linspace_kwargs := Some {| ls_start := start; ls_stop := stop |};
                   color := None |} in
  let spl := {| spl_x := x_data; spl_y := y; spl_s := 0;
                spl_k := requested_degree (linear_condition kwargs) x_data y fit_kw |} in
  let grid := linspace_samples start stop in
  axes st !! ax = Some a ->
  length (axes st) = S ax ->
  prop_cycle a !! fill_idx a = Some c ->
  length x_data = length y ->
  head x_data = Some start ->
  last x_data = Some stop ->
  (4 <= length x_data)%nat ->
  increasing true x_data = true ->
  series_label labels i = Some label ->
  plot_series ax x_data labels kwargs (i, y) st
  = Ok (tt, with_axes st
              (<[ax := {| prop_cycle := prop_cycle a;
                          fill_idx := S (fill_idx a) mod length (prop_cycle a);
                          collections := collections a ++ [series_scatter x_data y c];
                          lines := lines a ++ [series_curve grid spl c;
                                               series_handle label c];
                          ax_props := ax_props a; legend_ := legend_ a |}]>
                 (axes st))).
Proof.
  intros fit_kw spl grid Ha Hlast Hc Hlen Hhead Hstop Hn Hinc Hlabel.
  unfold plot_series.
  rewrite (bind_ok _ _ _ _ _ (scatter_ok _ _ _ _ _ _ Ha Hlen Hc)).
  set (a1 := {| prop_cycle := prop_cycle a;
                fill_idx := S (fill_idx a) mod length (prop_cycle a);
                collections := collections a ++ [series_scatter x_data y c];
                lines := lines a; ax_props := ax_props a;
                legend_ := legend_ a |}).
  set (st1 := with_axes st (<[ax := a1]> (axes st))).
  assert (Ha1 : axes st1 !! ax = Some a1)
    by exact (lookup_with_axes_insert st ax a a1 Ha).
  assert (Hlast1 : last (axes st1) = Some a1)
    by (apply last_insert_last; exact Hlast).
  assert (Hpc : last (collections a1) = Some (series_scatter x_data y c))
    by (cbn [collections a1]; apply last_snoc).
  rewrite (bind_ok _ _ _ _ _ (last_scatter_color_ok _ _ _ Hlast1 Hpc)).
  assert (Hstart : py_index x_data 0 = Ok start).
  { apply (py_index_nat x_data 0). now rewrite <- head_lookup. }
  rewrite (bind_ok _ _ _ _ _ (lift_ok _ _ _ Hstart)).
  rewrite (bind_ok _ _ _ _ _ (lift_ok _ _ _ (py_index_last _ _ Hstop))).
  fold fit_kw.
  pose proof (loop_degree (linear_condition kwargs) x_data y
                (Some {| ls_start := start; ls_stop := stop |})) as Hk.
  cbv zeta in Hk. fold fit_kw in Hk.
  rewrite (bind_ok _ _ _ _ _
             (plot_fit_ok st1 ax a1 a1 _ x_data y (linear_condition kwargs)
                fit_kw _ Ha1 Hlast1 Hpc eq_refl Hlen
                ltac:(destruct Hk as [-> | ->]; lia)
                ltac:(destruct Hk as [-> | ->]; lia)
                eq_refl Hinc)).
  rewrite (bind_ok _ _ _ _ _ (lift_ok _ _ _ (py_index_series_label _ _ _ Hlabel))).
  set (a2 := {| prop_cycle := prop_cycle a1; fill_idx := fill_idx a1;
                collections := collections a1;
                lines := lines a1 ++ _; ax_props := ax_props a1;
                legend_ := legend_ a1 |}).
  set (st2 := with_axes st1 (<[ax := a2]> (axes st1))).
  assert (Ha2 : axes st2 !! ax = Some a2)
    by exact (lookup_with_axes_insert st1 ax a1 a2 Ha1).
  rewrite (plot_ok _ _ _ _ _ _ _ _ Ha2).
  unfold st2, st1. cbn [with_axes axes cmap_registry rc_image_cmap rc_prop_cycle].
  rewrite !list_insert_insert_eq.
  cbn. rewrite <- app_assoc. reflexivity.
Qed.

Lemma with_axes_id (st : pyplot) : with_axes st (axes st) = st.
Proof. now destruct st. Qed.

(** The loop of [plot_data] from series [j] on. *)
Lemma plot_loop_ok (ax : nat) (x_data : list Q) (labels : list string)
    (kwargs : data_kwargs) (cm : Colormap) (m : nat) (start stop : Q)
    (cols : list (list Q)) :
  head x_data = Some start ->
  last x_data = Some stop ->
  (4 <= length x_data)%nat ->
  increasing true x_data = true ->
  forall (j : nat) (st : pyplot) (a : Axes),
    axes st !! ax = Some a ->
    length (axes st) = S ax ->
    prop_cycle a = cycle_colors cm m ->
    fill_idx a = j mod m ->
    (j + length cols <= m)%nat ->
    Forall (fun y => length y = length x_data) cols ->
    (forall i, (j <= i < j + length cols)%nat ->
               is_Some (series_label labels i)) ->
    mfor (zip (seq j (length cols)) cols) (plot_series ax x_data labels kwargs) st
    = Ok (tt, with_axes st
                (<[ax := after_series cm m x_data labels
                           (linear_condition kwargs) start stop j cols a]>
                   (axes st))).
Proof.
  intros Hhead Hstop Hn Hinc.
  induction cols as [|y cols IH]; intros j st a Ha Hlast Hcyc Hfill Hjm Hall Hlab.
  - cbn [length seq zip zip_with mfor]. unfold mret, M_ret.
    assert (E : after_series cm m x_data labels (linear_condition kwargs)
                  start stop j [] a = a).
    { unfold after_series. cbn [length seq zip_with concat].
      rewrite Nat.add_0_r, <- Hfill, !app_nil_r. now destruct a. }
    now rewrite E, list_insert_id, with_axes_id.
  - cbn [length] in *. inversion Hall as [|? ? Hy Hall']; subst.
    assert (Hj : (j < m)%nat) by lia.
    assert (Hfj : fill_idx a = j) by (rewrite Hfill; now apply Nat.mod_small).
    assert (Hc : prop_cycle a !! fill_idx a = Some (series_color cm m j)).
    { rewrite Hfj, Hcyc. now apply cycle_colors_lookup. }
    destruct (Hlab j ltac:(lia)) as [label Hlabel].
    change (zip (seq j (S (length cols))) (y :: cols))
      with ((j, y) :: zip (seq (S j) (length cols)) cols).
    cbn [mfor].
    rewrite (bind_ok _ _ _ _ _
               (plot_series_ok st ax a x_data y labels kwargs j _ label
                  start stop Ha Hlast Hc (eq_sym Hy) Hhead Hstop Hn Hinc Hlabel)).
    set (a1 := {| prop_cycle := prop_cycle a;
                  fill_idx := S (fill_idx a) mod length (prop_cycle a);
                  collections := _; lines := _; ax_props := ax_props a;
                  legend_ := legend_ a |}).
    set (st1 := with_axes st (<[ax := a1]> (axes st))).
    assert (Ha1 : axes st1 !! ax = Some a1)
      by exact (lookup_with_axes_insert st ax a a1 Ha).
    rewrite (IH (S j) st1 a1 Ha1).
    + unfold st1. cbn [with_axes axes cmap_registry rc_image_cmap rc_prop_cycle].
      rewrite list_insert_insert_eq. do 3 f_equal.
      unfold after_series, a1. cbn [prop_cycle collections lines ax_props legend_ length].
      cbn [seq zip_with concat]. rewrite <- !app_assoc.
      replace (S j + length cols)%nat with (j + S (length cols))%nat by lia.
      unfold series_lines at 2. rewrite Hlabel. reflexivity.
    + unfold st1. cbn [with_axes axes]. now rewrite length_insert.
    + exact Hcyc.
    + cbn [fill_idx a1]. now rewrite Hfj, Hcyc, cycle_colors_length.
    + lia.
    + exact Hall'.
    + intros i Hi. apply Hlab. lia.
Qed.

Lemma get_cmap_with_axes (colormap : cmap_arg) (st : pyplot) (cm : Colormap)
    (l : list Axes) :
  get_cmap colormap st = Ok (cm, st) ->
  get_cmap colormap (with_axes st l) = Ok (cm, with_axes st l).
Proof.
  unfold get_cmap. cbn [with_axes cmap_registry rc_image_cmap].
  destruct colormap as [|name|cm'].
  - destruct (cmap_registry st !! rc_image_cmap st); [|discriminate].
    now intros [= ->].
  - destruct (cmap_registry st !! name); [|discriminate].
    now intros [= ->].
  - now intros [= ->].
Qed.

(** Reading the artists the loop has added. *)
Lemma series_scatters_length (cm : Colormap) (m : nat) (x_data : list Q)
    (j : nat) (cols : list (list Q)) :
  length (zip_with (fun i y => series_scatter x_data y (series_color cm m i))
                   (seq j (length cols)) cols) = length cols.
Proof.
  rewrite length_zip_with_r_eq; [reflexivity | now rewrite length_seq].
Qed.

Lemma series_scatters_lookup (cm : Colormap) (m : nat) (x_data : list Q)
    (j : nat) (cols : list (list Q)) (i : nat) (y : list Q) :
  cols !! i = Some y ->
  zip_with (fun i y => series_scatter x_data y (series_color cm m i))
           (seq j (length cols)) cols !! i
  = Some (series_scatter x_data y (series_color cm m (j + i))).
Proof.
  intros Hy. pose proof (lookup_lt_Some _ _ _ Hy) as Hi.
  rewrite lookup_zip_with, lookup_seq_lt by exact Hi.
  cbn. now rewrite Hy.
Qed.

Lemma series_curves_count (cm : Colormap) (m : nat) (x_data : list Q)
    (labels : list string) (cond : option (list Q -> list Q -> bool))
    (start stop : Q) (cols : list (list Q)) (j : nat) :
  length (filter (fun l => is_fit_curve l = true)
            (concat (zip_with (series_lines cm m x_data labels cond start stop)
                              (seq j (length cols)) cols)))
  = length cols.
Proof.
  revert j. induction cols as [|y cols IH]; intros j; [reflexivity|].
  cbn [length seq zip_with concat]. unfold series_lines at 1.
  cbn [app]. rewrite filter_cons_True by reflexivity.
  rewrite filter_cons_False by discriminate.
  cbn [length]. now rewrite IH.
Qed.

Lemma series_legend_entries (cm : Colormap) (m : nat) (x_data : list Q)
    (labels : list string) (cond : option (list Q -> list Q -> bool))
    (start stop : Q) (cols : list (list Q)) (j : nat) :
  omap (fun l => match line_label l with
                 | Some s => if legend_visible s then Some (s, line_color l)
                             else None
                 | None => None
                 end)
       (concat (zip_with (series_lines cm m x_data labels cond start stop)
                         (seq j (length cols)) cols))
  = omap (series_entry cm m labels) (seq j (length cols)).
Proof.
  revert j. induction cols as [|y cols IH]; intros j; [reflexivity|].
  cbn [length seq zip_with concat]. unfold series_lines at 1.
  cbn [app omap list_omap series_curve series_handle line_label line_color].
  fold (@omap list _ _ _
          (fun l : Line2D =>
             match line_label l with
             | Some s => if legend_visible s then Some (s, line_color l) else None
             | None => None
             end)).
  rewrite IH. reflexivity.
Qed.

(** The labels the loop hands out, read off a list of labels that ends
    in [z]: the last label first, then the others in order. *)
Lemma series_labels_rotated (init : list string) (z : string) :
  map (fun i => default "" (series_label (init ++ [z]) i))
      (seq 0 (S (length init)))
  = z :: init.
Proof.
  cbn [seq map series_label]. rewrite last_snoc. cbn [default]. f_equal.
  rewrite <- seq_shift, map_map. cbn [series_label].
  apply list_eq. intros i.
  rewrite list_lookup_fmap.
  destruct (decide (i < length init)%nat) as [Hi|Hi].
  - rewrite lookup_seq_lt by exact Hi. cbn.
    rewrite lookup_app_l by exact Hi.
    destruct (lookup_lt_is_Some_2 init i Hi) as [s Hs]. now rewrite Hs.
  - rewrite lookup_seq_ge by lia. cbn. symmetry. apply lookup_ge_None. lia.
Qed.

Lemma zero_mod (m : nat) : (0 = 0 mod m)%nat.
Proof. symmetry. apply Nat.Div0.mod_0_l. Qed.

Lemma series_label_is_Some (labels : list string) (i : nat) :
  (i < length labels)%nat -> is_Some (series_label labels i).
Proof.
  intros Hi. destruct i as [|j]; cbn [series_label].
  - rewrite last_lookup. apply lookup_lt_is_Some_2. lia.
  - apply lookup_lt_is_Some_2. lia.
Qed.

(** [plot_data] run to its end, for as many labels as series, at least
    four strictly increasing abscissae and every keyword dictionary
    present: the state it leaves. *)
Lemma plot_data_ok (st : pyplot) (x_data : list Q) (y_data : list (list Q))
    (labels : list string) (kwargs : data_kwargs) (cm : Colormap)
    (fk ak lk : kwargs_dict) (start stop : Q) :
  let ax := length (axes st) in
  let m := length labels in
  let drawn :=
    after_series cm m x_data labels (linear_condition kwargs) start stop
      0 y_data
      {| prop_cycle := cycle_colors cm m; fill_idx := 0; collections := [];
         lines := []; ax_props := None; legend_ := None |} in
  let final :=
    {| prop_cycle := prop_cycle drawn; fill_idx := fill_idx drawn;
       collections := collections drawn; lines := lines drawn;
       ax_props := Some ak;
       legend_ := Some (omap (series_entry cm m labels) (seq 0 m)) |} in
  fig_kwargs kwargs = Some fk ->
  ax_kwargs kwargs = Some ak ->
  legend_kwargs kwargs = Some lk ->
  get_cmap (default (CmapName "viridis") (color_cycle kwargs)) st = Ok (cm, st) ->
  length labels = length y_data ->
  Forall (fun y => length y = length x_data) y_data ->
  head x_data = Some start ->
  last x_data = Some stop ->
  (4 <= length x_data)%nat ->
  increasing true x_data = true ->
  plot_data x_data y_data labels kwargs st
  = Ok (ax, with_axes st (axes st ++ [final])).
Proof.
  intros ax m drawn final Hfk Hak Hlk Hcm Hm Hall Hhead Hstop Hn Hinc.
  unfold plot_data. rewrite Hfk, Hak, Hlk.
  set (a0 := new_axes (rc_prop_cycle st)).
  set (st0 := with_axes st (axes st ++ [a0])).
  assert (Hsub : subplots (Some fk) st = Ok (ax, st0)) by reflexivity.
  rewrite (bind_ok _ _ _ _ _ Hsub).
  assert (Ha0 : axes st0 !! ax = Some a0)
    by (cbn [st0 with_axes axes]; apply list_lookup_middle; reflexivity).
  rewrite (bind_ok _ _ _ _ _
             (set_color_cycle_ok st0 ax a0 _ cm m Ha0
                (get_cmap_with_axes _ _ _ _ Hcm))).
  set (a1 := {| prop_cycle := cycle_colors cm m; fill_idx := 0;
                collections := collections a0; lines := lines a0;
                ax_props := ax_props a0; legend_ := legend_ a0 |}).
  set (st1 := with_axes st0 (<[ax := a1]> (axes st0))).
  assert (Ha1 : axes st1 !! ax = Some a1)
    by exact (lookup_with_axes_insert st0 ax a0 a1 Ha0).
  assert (Hlen1 : length (axes st1) = S ax).
  { cbn [st1 st0 with_axes axes]. rewrite length_insert, length_app.
    cbn [length]. unfold ax. lia. }
  rewrite (bind_ok _ _ _ _ _
             (plot_loop_ok ax x_data labels kwargs cm m start stop y_data
                Hhead Hstop Hn Hinc 0 st1 a1 Ha1 Hlen1 eq_refl
                (zero_mod m)
                ltac:(unfold m; lia) Hall
                ltac:(intros i Hi; apply series_label_is_Some; lia))).
  set (a2 := after_series _ _ _ _ _ _ _ _ _ a1).
  set (st2 := with_axes st1 (<[ax := a2]> (axes st1))).
  assert (Ha2 : axes st2 !! ax = Some a2)
    by exact (lookup_with_axes_insert st1 ax a1 a2 Ha1).
  unfold ax_set. rewrite (bind_ok _ _ _ _ _ (update_axes_ok _ _ _ _ Ha2)).
  set (a3 := {| prop_cycle := prop_cycle a2; fill_idx := fill_idx a2;
                collections := collections a2; lines := lines a2;
                ax_props := Some ak; legend_ := legend_ a2 |}).
  set (st3 := with_axes st2 (<[ax := a3]> (axes st2))).
  assert (Ha3 : axes st3 !! ax = Some a3)
    by exact (lookup_with_axes_insert st2 ax a2 a3 Ha2).
  unfold legend. rewrite (bind_ok _ _ _ _ _ (update_axes_ok _ _ _ _ Ha3)).
  unfold mret, M_ret. do 2 f_equal.
  cbn [st3 st2 st1 st0 with_axes axes cmap_registry rc_image_cmap rc_prop_cycle].
  rewrite !list_insert_insert_eq.
  f_equal.
  replace ax with (length (axes st) + 0)%nat by (unfold ax; lia).
  rewrite insert_app_r. cbn [insert list_insert]. do 2 f_equal.
  unfold final, drawn. fold a1.
  change (after_series cm m x_data labels (linear_condition kwargs) start stop
            0 y_data a1) with a2.
  f_equal.
  unfold legend_entries. cbn [lines a3 a2 after_series a1 a0 new_axes app].
  rewrite series_legend_entries. now rewrite <- Hm.
Qed.

Lemma head_last_exist (x : list Q) :
  (4 <= length x)%nat -> exists start stop, head x = Some start /\ last x = Some stop.
Proof.
  intros Hn. destruct x as [|x0 x]; [cbn in Hn; lia|].
  exists x0. destruct (last (x0 :: x)) as [z|] eqn:E; [now exists z|].
  apply last_None in E. discriminate E.
Qed.

(** What [plot_data] draws: one scatter group per series, in series
    order and in the colours of the cycle, one fitted curve per series,
    and a legend whose entry for series [i] carries the label
    [labels[i - 1]]. *)
Lemma plot_data_draws (st : pyplot) (x_data : list Q) (y_data : list (list Q))
    (labels : list string) (kwargs : data_kwargs) (cm : Colormap)
    (fk ak lk : kwargs_dict) :
  fig_kwargs kwargs = Some fk ->
  ax_kwargs kwargs = Some ak ->
  legend_kwargs kwargs = Some lk ->
  get_cmap (default (CmapName "viridis") (color_cycle kwargs)) st = Ok (cm, st) ->
  length labels = length y_data ->
  Forall (fun y => length y = length x_data) y_data ->
  (4 <= length x_data)%nat ->
  increasing true x_data = true ->
  exists st' a,
    plot_data x_data y_data labels kwargs st = Ok (length (axes st), st')
    /\ axes st' !! length (axes st) = Some a
    /\ length (collections a) = length y_data
    /\ length (filter (fun l => is_fit_curve l = true) (lines a))
       = length y_data
    /\ (forall i y, y_data !! i = Some y ->
          collections a !! i
          = Some (series_scatter x_data y
                    (series_color cm (length labels) i)))
    /\ legend_ a
       = Some (omap (series_entry cm (length labels) labels)
                    (seq 0 (length labels))).
Proof.
  intros Hfk Hak Hlk Hcm Hm Hall Hn Hinc.
  destruct (head_last_exist x_data Hn) as (start & stop & Hhead & Hstop).
  do 2 eexists.
  split; [exact (plot_data_ok st x_data y_data labels kwargs cm fk ak lk
                   start stop Hfk Hak Hlk Hcm Hm Hall Hhead Hstop Hn Hinc)|].
  split; [cbn [with_axes axes]; apply list_lookup_middle; reflexivity|].
  cbn [collections lines legend_ after_series app].
  split; [apply series_scatters_length|].
  split; [apply series_curves_count|].
  split; [|reflexivity].
  intros i y Hy. now rewrite (series_scatters_lookup _ _ _ _ _ _ _ Hy).
Qed.

Lemma series_label_elem (labels : list string) (i : nat) (s : string) :
  series_label labels i = Some s -> s ∈ labels.
Proof.
  destruct i as [|j]; cbn [series_label]; intros H.
  - rewrite last_lookup in H. eapply list_elem_of_lookup_2, H.
  - eapply list_elem_of_lookup_2, H.
Qed.

(** With labels the legend shows, the legend lists the last label
    first and then the others in order. *)
Lemma series_entries_labels (cm : Colormap) (init : list string) (z : string) :
  Forall (fun s => legend_visible s = true) (init ++ [z])%list ->
  map fst (omap (series_entry cm (length (init ++ [z])%list) (init ++ [z])%list)
                (seq 0 (length (init ++ [z])%list)))
  = z :: init.
Proof.
  intros Hvis. set (labels := (init ++ [z])%list) in *.
  assert (E : omap (series_entry cm (length labels) labels)
                   (seq 0 (length labels))
              = map (fun i => (default "" (series_label labels i),
                               series_color cm (length labels) i))
                    (seq 0 (length labels))).
  { generalize (length labels) at 1 3 as m. intros m.
    assert (Hin : forall i, i ∈ seq 0 (length labels) ->
                            (i < length labels)%nat)
      by (intros i Hi; apply elem_of_seq in Hi; lia).
    induction (seq 0 (length labels)) as [|i l IH]; [reflexivity|].
    cbn [omap list_omap map]. unfold series_entry at 1. cbv zeta.
    destruct (series_label_is_Some labels i) as [s Hs];
      [apply Hin; left|].
    rewrite Hs. change (default "" (Some s)) with s.
    rewrite Forall_forall in Hvis.
    rewrite (Hvis s (series_label_elem _ _ _ Hs)).
    f_equal. apply IH. intros j Hj. apply Hin. now right. }
  rewrite E, map_map. cbn [fst].
  unfold labels. rewrite length_app. cbn [length].
  replace (length init + 1)%nat with (S (length init)) by lia.
  apply series_labels_rotated.
Qed.

End PlotLemmas.

Section ColorClaims.

Import Plot.
Local Open Scope string_scope.

(** C7.  [set_color_cycle] with a colormap [cm] and [m] colours installs
    on the axes a cycle of exactly [m] colours; the colour at index [i]
    is [cm] evaluated at [i / m], so the order is the index order; the
    cycle starts at index 0; for a colormap that is injective on [0, 1)
    the colours are pairwise different; and the cycle is a function of
    the colormap and [m] alone, so that a second run on any other axes
    installs the same cycle. *)
Theorem set_color_cycle_assignment (st : pyplot) (ax : nat) (a : Axes)
    (colormap : cmap_arg) (cm : Colormap) (m : nat) :
  axes st !! ax = Some a ->
  get_cmap colormap st = Ok (cm, st) ->
  exists st' a',
    set_color_cycle ax colormap m st = Ok (tt, st')
    /\ axes st' !! ax = Some a'
    /\ length (prop_cycle a') = m
    /\ fill_idx a' = 0%nat
    /\ (forall i, (i < m)%nat ->
          exists q, (q == inject_Z (Z.of_nat i) / inject_Z (Z.of_nat m))%Q
                    /\ prop_cycle a' !! i = Some (cm q))
    /\ ((forall p q : Q, (0 <= p)%Q -> (p < 1)%Q -> (0 <= q)%Q -> (q < 1)%Q ->
                         color_eq (cm p) (cm q) -> (p == q)%Q) ->
        forall i j ci cj, i <> j ->
          prop_cycle a' !! i = Some ci -> prop_cycle a' !! j = Some cj ->
          ~ color_eq ci cj)
    /\ (forall st2 ax2 a2,
          axes st2 !! ax2 = Some a2 ->
          get_cmap colormap st2 = Ok (cm, st2) ->
          exists st2' a2',
            set_color_cycle ax2 colormap m st2 = Ok (tt, st2')
            /\ axes st2' !! ax2 = Some a2'
            /\ prop_cycle a2' = prop_cycle a').
Proof.
  intros Ha Hcm.
  do 2 eexists. split; [exact (set_color_cycle_ok _ _ _ _ _ m Ha Hcm)|].
  split; [exact (lookup_with_axes_insert st ax a _ Ha)|].
  cbn [prop_cycle fill_idx].
  split; [apply cycle_colors_length|]. split; [reflexivity|].
  split; [|split].
  - intros i Hi. eexists. split; [|now apply cycle_colors_lookup].
    now rewrite Qmult_1_l.
  - intros Hinj i j ci cj. now apply cycle_colors_distinct.
  - intros st2 ax2 a2 Ha2 Hcm2.
    do 2 eexists. split; [exact (set_color_cycle_ok _ _ _ _ _ m Ha2 Hcm2)|].
    split; [exact (lookup_with_axes_insert st2 ax2 a2 _ Ha2)|].
    reflexivity.
Qed.

Lemma set_color_cycle_assignment_witness :
  exists st' a',
    set_color_cycle 0 (CmapName "viridis") 3
      (with_axes example_pyplot [new_axes []]) = Ok (tt, st')
    /\ axes st' !! 0%nat = Some a'
    /\ length (prop_cycle a') = 3%nat.
Proof.
  destruct (set_color_cycle_assignment
              (with_axes example_pyplot [new_axes []]) 0 (new_axes [])
              (CmapName "viridis") ramp_cmap 3 eq_refl eq_refl)
    as (st' & a' & H1 & H2 & H3 & _).
  exists st', a'. repeat split; assumption.
Defined.

End ColorClaims.

Section FitClaims.

Import Plot.
Local Open Scope string_scope.

(** C8, as stated, fails: without any predicate, a caller who passes
    [splrep_kwargs={'k': 2}] gets a spline of degree 2, not 3. *)
Lemma plot_fit_degree_from_splrep_kwargs :
  exists spl st',
    plot_fit 0 [0; 1; 2; 3]%Q [5; 4; 2; 1]%Q None
      {| splrep_kwargs := Some {| kw_k := Some 2%Z; kw_s := None |};
         linspace_kwargs := Some {| ls_start := 0; ls_stop := 3 |};
         color := None |}
      example_scatter_state
    = Ok (spl, st')
    /\ spl_k spl = 2%Z /\ spl_k spl <> 3%Z.
Proof.
  do 2 eexists. split; [vm_compute; reflexivity|].
  split; [reflexivity | discriminate].
Qed.

(** C8, amended.  In [plot_fit] the fitted spline has degree 1 when the
    predicate is supplied and holds on [(x, y)]; when the predicate is
    absent or does not hold, the degree is the [k] of the caller's
    [splrep_kwargs] if there is one, and the default cubic degree 3
    otherwise.  The fit is the one drawn: [plot_fit] returns after
    adding to the axes the curve of that spline.  The hypotheses are
    what the call needs to go through: a valid axes, a scatter group on
    the current axes to take the colour from, [linspace_kwargs], and
    data that [splrep] accepts for that degree. *)
Theorem plot_fit_degree (st : pyplot) (ax : nat) (a a_last : Axes)
    (pc : PathCollection) (x y : list Q)
    (cond : option (list Q -> list Q -> bool)) (kwargs : fit_kwargs)
    (ls : linspace_kw) :
  let kw := default empty_splrep_kw (splrep_kwargs kwargs) in
  let k := requested_degree cond x y kwargs in
  axes st !! ax = Some a ->
  last (axes st) = Some a_last ->
  last (collections a_last) = Some pc ->
  linspace_kwargs kwargs = Some ls ->
  length x = length y ->
  (1 <= k <= 5)%Z ->
  (k < Z.of_nat (length x))%Z ->
  Qle_bool 0 (default 0%Q (kw_s kw)) = true ->
  increasing (Qeq_bool (default 0%Q (kw_s kw)) 0) x = true ->
  exists spl st' a' grid,
    plot_fit ax x y cond kwargs st = Ok (spl, st')
    /\ (forall c, cond = Some c -> c x y = true -> spl_k spl = 1%Z)
    /\ (cond = None \/ (exists c, cond = Some c /\ c x y = false) ->
        spl_k spl = default 3%Z (kw_k kw))
    /\ (splrep_kwargs kwargs = None -> spl_k spl = 1%Z \/ spl_k spl = 3%Z)
    /\ axes st' !! ax = Some a'
    /\ lines a' = (lines a ++
                     [{| line_xdata := grid; line_ydata := YSplev grid spl;
                         line_fmt := None; line_label := None;
                         line_color := default (facecolor pc) (color kwargs) |}])%list
    /\ collections a' = collections a.
Proof.
  intros kw k Ha Hlast Hpc Hls Hlen Hk Hm Hs Hinc.
  do 4 eexists.
  split; [exact (plot_fit_ok st ax a a_last pc x y cond kwargs ls
                   Ha Hlast Hpc Hls Hlen Hk Hm Hs Hinc)|].
  cbn [spl_k]. unfold requested_degree.
  split; [|split; [|split; [|split; [|split]]]].
  - intros c -> Hc. now rewrite Hc.
  - intros [->|(c & -> & Hc)]; [reflexivity | now rewrite Hc].
  - intros Hnone. rewrite Hnone. cbn.
    destruct (match cond with Some c => c x y | None => false end); auto.
  - exact (lookup_with_axes_insert st ax a _ Ha).
  - reflexivity.
  - reflexivity.
Qed.

Lemma plot_fit_degree_witness :
  exists spl st',
    plot_fit 0 [0; 1; 2; 3]%Q [5; 4; 2; 1]%Q (Some (fun _ _ => true))
      {| splrep_kwargs := Some {| kw_k := Some 2%Z; kw_s := None |};
         linspace_kwargs := Some {| ls_start := 0; ls_stop := 3 |};
         color := None |}
      example_scatter_state
    = Ok (spl, st')
    /\ spl_k spl = 1%Z.
Proof.
  destruct (plot_fit_degree example_scatter_state 0
              {| prop_cycle := [RGBA 0 0 0 1]; fill_idx := 0;
                 collections := [{| offsets_x := [0; 1; 2; 3]%Q;
                                    offsets_y := [5; 4; 2; 1]%Q;
                                    facecolor := RGBA 0 0 0 1 |}];
                 lines := []; ax_props := None; legend_ := None |}
              _ _
              [0; 1; 2; 3]%Q [5; 4; 2; 1]%Q (Some (fun _ _ => true))
              {| splrep_kwargs := Some {| kw_k := Some 2%Z; kw_s := None |};
                 linspace_kwargs := Some {| ls_start := 0; ls_stop := 3 |};
                 color := None |}
              {| ls_start := 0; ls_stop := 3 |}
              eq_refl eq_refl eq_refl eq_refl eq_refl)
    as (spl & st' & a' & grid & H & H1 & _).
  - vm_compute. split; discriminate.
  - reflexivity.
  - reflexivity.
  - reflexivity.
  - exists spl, st'. split; [exact H|]. now apply (H1 (fun _ _ => true)).
Defined.

End FitClaims.

Section PlotDataClaims.

Import Plot.
Local Open Scope string_scope.

(** C2 (the code departs from it).  For three series with the labels
    A, B, C, [plot_data] adds three scatter groups and three fitted
    curves and draws a legend of three entries, but the entries are
    labelled C, A, B: the loop labels series [i] with [labels[i - 1]],
    so the first series takes the last label. *)
Theorem plot_data_legend_order :
  exists ax st' a,
    plot_data [0; 1; 2; 3]%Q
      [[1; 2; 3; 4]%Q; [4; 3; 2; 1]%Q; [0; 0; 1; 1]%Q]
      ["A"; "B"; "C"] example_data_kwargs example_pyplot
    = Ok (ax, st')
    /\ axes st' !! ax = Some a
    /\ length (collections a) = 3%nat
    /\ length (filter (fun l => is_fit_curve l = true) (lines a)) = 3%nat
    /\ legend_labels a = Some ["C"; "A"; "B"]
    /\ legend_labels a <> Some ["A"; "B"; "C"].
Proof.
  do 3 eexists. split; [vm_compute; reflexivity|].
  split; [reflexivity|]. split; [reflexivity|]. split; [reflexivity|].
  split; [reflexivity | discriminate].
Qed.

End PlotDataClaims.

(** * Further properties of the scripts *)

(** ** two_x_axis *)

Section TransformExtras.

Import TwoXAxis.
Local Open Scope Q_scope.

(** X1.  For every non-zero Boltzmann constant, temperature,
    cross-section and argument, converting a pressure to a mean free
    path and back returns the pressure scaled by 1e-12, and converting a
    mean free path to a pressure and back returns it scaled by 1e12. *)
Theorem round_trip_scales (k T sigma x : Q) :
  ~ k == 0 -> ~ T == 0 -> ~ sigma == 0 -> ~ x == 0 ->
  (exists v, round_trip_pressure k T sigma x = Ok v
             /\ v == x * (1 # 1000000000000))
  /\ (exists v, round_trip_mean_free_path k T sigma x = Ok v
                /\ v == x * (1000000000000 # 1)).
Proof.
  intros Hk HT Hs Hx. split.
  - now apply round_trip_pressure_scaled.
  - now apply round_trip_mean_free_path_scaled.
Qed.

Lemma round_trip_scales_witness :
  (exists v, round_trip_pressure constants_k default_temperature
               default_cross_section 5 = Ok v
             /\ v == 5 * (1 # 1000000000000))
  /\ (exists v, round_trip_mean_free_path constants_k default_temperature
                  default_cross_section 5 = Ok v
                /\ v == 5 * (1000000000000 # 1)).
Proof.
  apply (round_trip_scales constants_k default_temperature
           default_cross_section 5); discriminate.
Defined.

Lemma transform_value_nonzero (k T sigma x c : Q) :
  ~ k == 0 -> ~ T == 0 -> ~ sigma == 0 -> ~ x == 0 -> ~ c == 0 ->
  ~ k * T / (x * sigma) * c * sigma == 0.
Proof.
  intros Hk HT Hs Hx Hc.
  apply Qmult_nonzero; [|exact Hs].
  apply Qmult_nonzero; [|exact Hc].
  intros H. apply Qmult_nonzero in H; [exact H| |].
  - now apply Qmult_nonzero.
  - intros Hi. apply (Qmult_nonzero x sigma Hx Hs).
    rewrite <- (Qinv_involutive (x * sigma)), Hi. reflexivity.
Qed.

Lemma mean_free_path_to_pressure_involutive (k T sigma x : Q) :
  ~ k == 0 -> ~ T == 0 -> ~ sigma == 0 -> ~ x == 0 ->
  exists v, rbind (mean_free_path_to_pressure k T sigma x)
                  (mean_free_path_to_pressure k T sigma) = Ok v
            /\ v == x.
Proof.
  intros Hk HT Hs Hx.
  rewrite mean_free_path_to_pressure_ok by now apply Qmult_nonzero.
  simpl. rewrite mean_free_path_to_pressure_ok
    by (apply transform_value_nonzero; try assumption; discriminate).
  eexists; split; [reflexivity|].
  unfold lit_1Em6. field. tauto.
Qed.

(** X2.  Each of the two closures is its own inverse: for non-zero
    constants and a non-zero argument, applying
    [pressure_to_mean_free_path] twice gives the argument back, and so
    does applying [mean_free_path_to_pressure] twice. *)
Theorem closures_are_involutions (k T sigma x : Q) :
  ~ k == 0 -> ~ T == 0 -> ~ sigma == 0 -> ~ x == 0 ->
  (exists v, rbind (pressure_to_mean_free_path k T sigma x)
                   (pressure_to_mean_free_path k T sigma) = Ok v
             /\ v == x)
  /\ (exists v, rbind (mean_free_path_to_pressure k T sigma x)
                      (mean_free_path_to_pressure k T sigma) = Ok v
                /\ v == x).
Proof.
  intros Hk HT Hs Hx. split.
  - now apply pressure_to_mean_free_path_involutive.
  - now apply mean_free_path_to_pressure_involutive.
Qed.

Lemma closures_are_involutions_witness :
  (exists v, rbind (pressure_to_mean_free_path constants_k default_temperature
                      default_cross_section 7)
                   (pressure_to_mean_free_path constants_k default_temperature
                      default_cross_section) = Ok v
             /\ v == 7)
  /\ (exists v, rbind (mean_free_path_to_pressure constants_k default_temperature
                         default_cross_section 7)
                      (mean_free_path_to_pressure constants_k default_temperature
                         default_cross_section) = Ok v
                /\ v == 7).
Proof.
  apply (closures_are_involutions constants_k default_temperature
           default_cross_section 7); discriminate.
Defined.

(** X5.  Inverse proportionality: for a non-zero cross-section the
    product of a non-zero argument with the value of a closure does not
    depend on the argument; it is [k·T/σ·1e6] for
    [pressure_to_mean_free_path] and [k·T/σ·1e-6] for
    [mean_free_path_to_pressure]. *)
Theorem closures_inversely_proportional (k T sigma x : Q) :
  ~ sigma == 0 -> ~ x == 0 ->
  (exists v, pressure_to_mean_free_path k T sigma x = Ok v
             /\ x * v == k * T / sigma * lit_1E6)
  /\ (exists v, mean_free_path_to_pressure k T sigma x = Ok v
                /\ x * v == k * T / sigma * lit_1Em6).
Proof.
  intros Hs Hx.
  rewrite pressure_to_mean_free_path_ok, mean_free_path_to_pressure_ok
    by now apply Qmult_nonzero.
  split; eexists; (split; [reflexivity|]); field; tauto.
Qed.

Lemma closures_inversely_proportional_witness :
  (exists v, pressure_to_mean_free_path constants_k default_temperature
               default_cross_section 3 = Ok v
             /\ 3 * v == constants_k * default_temperature
                         / default_cross_section * lit_1E6)
  /\ (exists v, mean_free_path_to_pressure constants_k default_temperature
                  default_cross_section 3 = Ok v
                /\ 3 * v == constants_k * default_temperature
                            / default_cross_section * lit_1Em6).
Proof.
  apply (closures_inversely_proportional constants_k default_temperature
           default_cross_section 3); discriminate.
Defined.

(** X6.  With a positive Boltzmann constant, temperature and
    cross-section, both closures map positive arguments to positive
    values, as the logarithmic axes need. *)
Theorem closures_positive (k T sigma x : Q) :
  0 < k -> 0 < T -> 0 < sigma -> 0 < x ->
  (exists v, pressure_to_mean_free_path k T sigma x = Ok v /\ 0 < v)
  /\ (exists v, mean_free_path_to_pressure k T sigma x = Ok v /\ 0 < v).
Proof.
  intros Hk HT Hs Hx.
  assert (Hxs : 0 < x * sigma) by now apply Qmult_lt_0_compat.
  assert (Hq : 0 < k * T / (x * sigma)).
  { apply Qlt_shift_div_l; [exact Hxs|]. rewrite Qmult_0_l.
    now apply Qmult_lt_0_compat. }
  rewrite pressure_to_mean_free_path_ok, mean_free_path_to_pressure_ok
    by now apply Qpos_nonzero.
  split; eexists; (split; [reflexivity|]);
    (apply Qmult_lt_0_compat; [exact Hq | reflexivity]).
Qed.

Lemma closures_positive_witness :
  (exists v, pressure_to_mean_free_path constants_k default_temperature
               default_cross_section (1 # 100) = Ok v /\ 0 < v)
  /\ (exists v, mean_free_path_to_pressure constants_k default_temperature
                  default_cross_section (1 # 100) = Ok v /\ 0 < v).
Proof.
  apply (closures_positive constants_k default_temperature
           default_cross_section (1 # 100)); reflexivity.
Defined.

End TransformExtras.

(** ** diagram_with_residues *)

Section ResidualExtras.
Import Residues.
Local Open Scope Q_scope.

Lemma Qsum_proper (a b : list Q) : Forall2 Qeq a b -> Qsum a == Qsum b.
Proof.
  induction 1 as [|x y a b Hxy _ IH]; [reflexivity|].
  rewrite !Qsum_cons. now rewrite Hxy, IH.
Qed.

(** The sums of data that lie on a line plus noise. *)
Lemma noisy_sum (s b : Q) (x noise : list Q) :
  length x = length noise ->
  Qsum (zip_with Qplus (linear_test_function s b x) noise)
  == s * Qsum x + Qlen x * b + Qsum noise.
Proof.
  revert noise. induction x as [|x0 x IH]; intros [|n0 noise] Hlen;
    try discriminate.
  - unfold Qlen; cbn. ring.
  - injection Hlen as Hlen. specialize (IH noise Hlen).
    unfold linear_test_function in *. cbn [map zip_with].
    rewrite !Qsum_cons, IH, Qlen_cons. ring.
Qed.

Lemma noisy_dot (s b : Q) (x noise : list Q) :
  length x = length noise ->
  np_dot x (zip_with Qplus (linear_test_function s b x) noise)
  == s * Qsum (map (fun xi => xi * xi) x) + b * Qsum x + np_dot x noise.
Proof.
  unfold np_dot.
  revert noise. induction x as [|x0 x IH]; intros [|n0 noise] Hlen;
    try discriminate.
  - cbn. ring.
  - injection Hlen as Hlen. specialize (IH noise Hlen).
    unfold linear_test_function in *. cbn [map zip_with].
    rewrite !Qsum_cons, IH. ring.
Qed.

Lemma noisy_length (s b : Q) (x noise : list Q) :
  length x = length noise ->
  length (zip_with Qplus (linear_test_function s b x) noise) = length x.
Proof.
  intros Hlen. unfold linear_test_function.
  rewrite length_zip_with_l_eq; rewrite length_map; [reflexivity | exact Hlen].
Qed.

(** [ssxm] and [ssxym] through the sums of the data. *)
Lemma ssxm_sums (x : list Q) :
  (0 < length x)%nat ->
  ssxm x * Qlen x
  == Qsum (map (fun xi => xi * xi) x) - Qsum x * Qsum x / Qlen x.
Proof.
  intros Hx.
  assert (Hn0 : ~ Qlen x == 0) by now apply Qpos_nonzero, Qlen_pos.
  unfold ssxm at 1, np_mean at 1. unfold Qlen at 1. rewrite length_map.
  fold (Qlen x). rewrite deviation_squares_expand. unfold np_mean.
  field. exact Hn0.
Qed.

Lemma ssxym_sums (x y : list Q) :
  length x = length y -> (0 < length x)%nat ->
  ssxym x y * Qlen x == np_dot x y - Qsum x * Qsum y / Qlen x.
Proof.
  intros Hlen Hx.
  assert (Hn0 : ~ Qlen x == 0) by now apply Qpos_nonzero, Qlen_pos.
  assert (Hly : Qlen y = Qlen x) by (unfold Qlen; now rewrite Hlen).
  unfold ssxym at 1, np_mean at 1. unfold Qlen at 1.
  rewrite length_zip_with_l_eq by exact Hlen.
  fold (Qlen x). rewrite codeviation_expand by exact Hlen. unfold np_mean, np_dot.
  rewrite Hly. field. exact Hn0.
Qed.

(** The fit of a line plus noise is the line plus the fit of the noise. *)
Lemma noisy_fit (s b : Q) (x noise : list Q) :
  length x = length noise -> not_constant x ->
  let y := zip_with Qplus (linear_test_function s b x) noise in
  ssxym x y / ssxm x == s + ssxym x noise / ssxm x
  /\ np_mean y - ssxym x y / ssxm x * np_mean x
     == b + (np_mean noise - ssxym x noise / ssxm x * np_mean x).
Proof.
  intros Hlen Hx y.
  pose proof (not_constant_length x Hx) as H2.
  pose proof (not_constant_ssxm x Hx) as HV.
  assert (Hpos : (0 < length x)%nat) by lia.
  assert (Hn0 : ~ Qlen x == 0) by now apply Qpos_nonzero, Qlen_pos.
  assert (Hleny : length x = length y)
    by (symmetry; now apply noisy_length).
  assert (Hly : Qlen y = Qlen x) by (unfold Qlen; now rewrite Hleny).
  assert (Hln : Qlen noise = Qlen x) by (unfold Qlen; now rewrite Hlen).
  pose proof (ssxm_sums x Hpos) as EV.
  pose proof (ssxym_sums x y Hleny Hpos) as EC.
  pose proof (ssxym_sums x noise Hlen Hpos) as ECn.
  unfold y in EC at 2 3. rewrite noisy_dot, noisy_sum in EC by exact Hlen.
  assert (Ey : Qsum y == s * Qsum x + Qlen x * b + Qsum noise)
    by now apply noisy_sum.
  assert (EVx : Qsum (map (fun xi => xi * xi) x)
                == ssxm x * Qlen x + Qsum x * Qsum x / Qlen x).
  { rewrite EV. field. exact Hn0. }
  assert (ECx : np_dot x noise
                == ssxym x noise * Qlen x + Qsum x * Qsum noise / Qlen x).
  { rewrite ECn. field. exact Hn0. }
  rewrite EVx, ECx in EC.
  assert (E1 : ssxym x y == s * ssxm x + ssxym x noise).
  { apply (Qmult_inj_r _ _ (Qlen x) Hn0). rewrite EC. field. exact Hn0. }
  split.
  - rewrite E1. field. exact HV.
  - unfold np_mean. rewrite Hly, Hln, Ey, E1. field. split; assumption.
Qed.

Lemma create_noisy_y_data_ok (draw : nat -> Q) (x : list Q) (s b sigma : Q) :
  0 <= sigma ->
  let noise := map (fun i => 0 + sigma * draw i) (seq 0 (length x)) in
  rng_normal draw sigma (length x) = Ok noise
  /\ create_noisy_y_data draw x (linear_test_function s b) sigma
     = Ok (zip_with Qplus (linear_test_function s b x) noise)
  /\ length x = length noise.
Proof.
  intros Hs noise.
  assert (Hr : rng_normal draw sigma (length x) = Ok noise).
  { unfold rng_normal. apply Qle_bool_iff in Hs. now rewrite Hs. }
  assert (Hl : length x = length noise)
    by (unfold noise; now rewrite length_map, length_seq).
  split; [exact Hr|]. split; [|exact Hl].
  unfold create_noisy_y_data. rewrite Hr. cbn [rbind]. unfold np_add.
  replace (length (linear_test_function s b x) =? length noise)%nat with true;
    [reflexivity|].
  symmetry. apply Nat.eqb_eq. unfold linear_test_function.
  now rewrite length_map.
Qed.

Lemma residuals_of_noisy (s b sn icn sl ic : Q) (x noise : list Q) :
  length x = length noise ->
  sl == s + sn -> ic == b + icn ->
  Forall2 Qeq
    (residuals_of sl ic x (zip_with Qplus (linear_test_function s b x) noise))
    (residuals_of sn icn x noise).
Proof.
  intros Hlen Hsl Hic. revert noise Hlen.
  induction x as [|x0 x IH]; intros [|n0 noise] Hlen; try discriminate.
  - constructor.
  - injection Hlen as Hlen. unfold residuals_of, linear_test_function in *.
    cbn [map zip_with]. constructor; [|now apply IH].
    rewrite Hsl, Hic. ring.
Qed.

Lemma np_dot_residuals (a b : Q) (x y : list Q) :
  length x = length y ->
  np_dot x (residuals_of a b x y)
  == np_dot x y - b * Qsum x - a * Qsum (map (fun xi => xi * xi) x).
Proof.
  unfold np_dot, residuals_of.
  revert y. induction x as [|x0 x IH]; intros [|y0 y] Hlen; try discriminate.
  - cbn. ring.
  - injection Hlen as Hlen. specialize (IH y Hlen).
    cbn [map zip_with]. rewrite !Qsum_cons, IH. ring.
Qed.

Lemma Qsum_zero (l : list Q) : Forall (fun a => a == 0) l -> Qsum l == 0.
Proof.
  induction 1 as [|a l Ha _ IH]; [reflexivity|].
  rewrite Qsum_cons, Ha, IH. ring.
Qed.

Lemma np_dot_zero (x l : list Q) : Forall (fun a => a == 0) l -> np_dot x l == 0.
Proof.
  intros Hl. unfold np_dot. apply Qsum_zero.
  revert x. induction Hl as [|a l Ha _ IH]; intros [|x0 x]; cbn [zip_with];
    constructor; [rewrite Ha; ring | apply IH].
Qed.

Lemma residuals_zero_noise (x noise : list Q) :
  Forall (fun a => a == 0) noise ->
  Forall (fun r => r == 0) (residuals_of 0 0 x noise).
Proof.
  intros Hz. unfold residuals_of. revert x.
  induction Hz as [|n0 noise Hn _ IH]; intros [|x0 x]; cbn [zip_with];
    constructor; [rewrite Hn; ring | apply IH].
Qed.

Lemma Forall2_zero (l1 l2 : list Q) :
  Forall2 Qeq l1 l2 -> Forall (fun r => r == 0) l2 ->
  Forall (fun r => r == 0) l1.
Proof.
  induction 1 as [|r1 r2 l1 l2 Hr12 _ IH]; intros Hres; [constructor|].
  inversion Hres; subst. constructor; [now rewrite Hr12 | now apply IH].
Qed.

End ResidualExtras.

Section ResidualExtraClaims.
Import Residues.
Local Open Scope Q_scope.

(** X7.  Data made by [create_noisy_y_data] from the line
    [linear_test_function(s, b)] are fitted by that line plus the fit of
    the noise alone: slope and intercept are [s] and [b] plus the slope
    and intercept [linregress] finds for the noise, and the residuals
    are those of the noise, whatever [s] and [b]. *)
Theorem noisy_fit_decomposes (draw : nat -> Q) (x : list Q) (s b sigma : Q) :
  not_constant x -> 0 <= sigma ->
  exists noise y sn icn sl ic,
    rng_normal draw sigma (length x) = Ok noise
    /\ create_noisy_y_data draw x (linear_test_function s b) sigma = Ok y
    /\ linregress x noise = Fit sn icn
    /\ linregress x y = Fit sl ic
    /\ sl == s + sn /\ ic == b + icn
    /\ Forall2 Qeq (residuals_of sl ic x y) (residuals_of sn icn x noise).
Proof.
  intros Hx Hs.
  destruct (create_noisy_y_data_ok draw x s b sigma Hs) as (Hr & Hy & Hlen).
  set (noise := map (fun i => 0 + sigma * draw i) (seq 0 (length x))) in *.
  set (y := zip_with Qplus (linear_test_function s b x) noise) in *.
  assert (Hleny : length x = length y)
    by (symmetry; now apply noisy_length).
  destruct (noisy_fit s b x noise Hlen Hx) as [E1 E2]. fold y in E1, E2.
  exists noise, y. do 4 eexists.
  split; [exact Hr|]. split; [exact Hy|].
  split; [exact (linregress_fits x noise Hlen Hx)|].
  split; [exact (linregress_fits x y Hleny Hx)|].
  split; [exact E1|]. split; [exact E2|].
  now apply residuals_of_noisy.
Qed.

Lemma noisy_fit_decomposes_witness :
  exists noise y sn icn sl ic,
    rng_normal (fun i => inject_Z (Z.of_nat i) * inject_Z (Z.of_nat i)) 3
      (length [1; 2; 4]) = Ok noise
    /\ create_noisy_y_data (fun i => inject_Z (Z.of_nat i) * inject_Z (Z.of_nat i))
         [1; 2; 4] (linear_test_function 4 0) 3 = Ok y
    /\ linregress [1; 2; 4] noise = Fit sn icn
    /\ linregress [1; 2; 4] y = Fit sl ic
    /\ sl == 4 + sn /\ ic == 0 + icn
    /\ Forall2 Qeq (residuals_of sl ic [1; 2; 4] y)
                   (residuals_of sn icn [1; 2; 4] noise).
Proof.
  apply (noisy_fit_decomposes
           (fun i => inject_Z (Z.of_nat i) * inject_Z (Z.of_nat i))
           [1; 2; 4] 4 0 3).
  - exists 1, 2. split; [now left|]. split; [right; now left|]. discriminate.
  - discriminate.
Defined.

(** X8.  Without noise ([sigma = 0]) the fit recovers the line exactly:
    for [x] not constant, [linregress] on the data of
    [linear_test_function(s, b)] returns the slope [s] and the
    intercept [b], and every residual is zero. *)
Theorem noise_free_fit_exact (draw : nat -> Q) (x : list Q) (s b : Q) :
  not_constant x ->
  exists y sl ic,
    create_noisy_y_data draw x (linear_test_function s b) 0 = Ok y
    /\ linregress x y = Fit sl ic
    /\ sl == s /\ ic == b
    /\ Forall (fun r => r == 0) (residuals_of sl ic x y).
Proof.
  intros Hx.
  destruct (create_noisy_y_data_ok draw x s b 0 ltac:(discriminate))
    as (Hr & Hy & Hlen).
  set (noise := map (fun i => 0 + 0 * draw i) (seq 0 (length x))) in *.
  set (y := zip_with Qplus (linear_test_function s b x) noise) in *.
  assert (Hz : Forall (fun a => a == 0) noise).
  { unfold noise. apply Forall_forall. intros a Ha.
    apply list_elem_of_fmap in Ha as (i & -> & _). ring. }
  pose proof (not_constant_length x Hx) as H2.
  pose proof (not_constant_ssxm x Hx) as HV.
  assert (Hpos : (0 < length x)%nat) by lia.
  assert (Hn0 : ~ Qlen x == 0) by now apply Qpos_nonzero, Qlen_pos.
  assert (Hln : Qlen noise = Qlen x) by (unfold Qlen; now rewrite Hlen).
  assert (EC : ssxym x noise == 0).
  { apply (Qmult_inj_r _ _ (Qlen x) Hn0).
    rewrite (ssxym_sums x noise Hlen Hpos), (np_dot_zero x noise Hz),
      (Qsum_zero noise Hz).
    field. exact Hn0. }
  assert (EM : np_mean noise == 0).
  { unfold np_mean. rewrite (Qsum_zero noise Hz), Hln. field. exact Hn0. }
  assert (Hleny : length x = length y)
    by (symmetry; now apply noisy_length).
  destruct (noisy_fit s b x noise Hlen Hx) as [E1 E2]. fold y in E1, E2.
  rewrite EC in E1, E2. rewrite EM in E2.
  assert (E1' : ssxym x y / ssxm x == s) by (rewrite E1; field; exact HV).
  assert (E2' : np_mean y - ssxym x y / ssxm x * np_mean x == b)
    by (rewrite E2; field; exact HV).
  exists y. do 2 eexists.
  split; [exact Hy|]. split; [exact (linregress_fits x y Hleny Hx)|].
  split; [exact E1'|]. split; [exact E2'|].
  assert (HF : Forall2 Qeq
                 (residuals_of (ssxym x y / ssxm x)
                    (np_mean y - ssxym x y / ssxm x * np_mean x) x
                    (zip_with Qplus (linear_test_function s b x) noise))
                 (residuals_of 0 0 x noise)).
  { apply (residuals_of_noisy s b 0 0); [exact Hlen | |].
    - rewrite E1'. ring.
    - rewrite E2'. ring. }
  fold y in HF.
  eapply Forall2_zero; [exact HF|]. now apply residuals_zero_noise.
Qed.

Lemma noise_free_fit_exact_witness :
  exists y sl ic,
    create_noisy_y_data (fun _ => 1) [1; 2; 4] (linear_test_function 4 0) 0 = Ok y
    /\ linregress [1; 2; 4] y = Fit sl ic
    /\ sl == 4 /\ ic == 0
    /\ Forall (fun r => r == 0) (residuals_of sl ic [1; 2; 4] y).
Proof.
  apply (noise_free_fit_exact (fun _ => 1) [1; 2; 4] 4 0).
  exists 1, 2. split; [now left|]. split; [right; now left|]. discriminate.
Defined.

(** X9.  The residuals the script derives from the fit are orthogonal
    to [x]: for equal-length data with [x] not constant, the sum of
    [x * y_residuals] is zero. *)
Theorem residuals_orthogonal_to_x (x y : list Q) :
  length x = length y -> not_constant x ->
  exists res, y_residuals x y = Ok (Some res) /\ np_dot x res == 0.
Proof.
  intros Hlen Hx.
  pose proof (not_constant_length x Hx) as H2.
  pose proof (not_constant_ssxm x Hx) as HV.
  assert (Hpos : (0 < length x)%nat) by lia.
  assert (Hn0 : ~ Qlen x == 0) by now apply Qpos_nonzero, Qlen_pos.
  assert (Hly : Qlen y = Qlen x) by (unfold Qlen; now rewrite Hlen).
  eexists. split.
  { unfold y_residuals. now rewrite (linregress_fits x y Hlen Hx). }
  rewrite np_dot_residuals by exact Hlen.
  pose proof (ssxm_sums x Hpos) as EV.
  pose proof (ssxym_sums x y Hlen Hpos) as EC.
  assert (EVx : Qsum (map (fun xi => xi * xi) x)
                == ssxm x * Qlen x + Qsum x * Qsum x / Qlen x)
    by (rewrite EV; field; exact Hn0).
  assert (ECx : np_dot x y == ssxym x y * Qlen x + Qsum x * Qsum y / Qlen x)
    by (rewrite EC; field; exact Hn0).
  rewrite EVx, ECx. unfold np_mean. rewrite Hly. field. split; assumption.
Qed.

Lemma residuals_orthogonal_to_x_witness :
  exists res, y_residuals [1; 2; 3] [2; 4; 7] = Ok (Some res)
              /\ np_dot [1; 2; 3] res == 0.
Proof.
  apply (residuals_orthogonal_to_x [1; 2; 3] [2; 4; 7]).
  - reflexivity.
  - exists 1, 2. split; [now left|]. split; [right; now left|]. discriminate.
Defined.

Lemma script_x_not_constant : not_constant script_x.
Proof.
  exists (-10 # 1), (-9 # 1).
  split; [left; reflexivity|]. split; [right; left; reflexivity|].
  discriminate.
Qed.

(** X10.  The script's own fit, for every draw of the random
    generator: with [x = np.arange(-10, 11)] and
    [y = create_noisy_y_data(x, linear_test_function(4, 0))] no error
    path is taken, [linregress] returns the slope
    [4 + sum(x * noise) / 770] and the intercept [mean(noise)], and
    the residuals sum to zero. *)
Theorem script_fit_closed_form (draw : nat -> Q) :
  exists noise y sl ic res,
    rng_normal draw default_sigma 21 = Ok noise
    /\ script_y draw = Ok y
    /\ script_fit draw = Ok (Fit sl ic)
    /\ sl == 4 + np_dot script_x noise / 770
    /\ ic == np_mean noise
    /\ y_residuals script_x y = Ok (Some res)
    /\ Qsum res == 0.
Proof.
  pose proof script_x_not_constant as Hx.
  destruct (create_noisy_y_data_ok draw script_x 4 0 default_sigma
              ltac:(discriminate)) as (Hr & Hy & Hlen).
  set (noise := map (fun i => 0 + default_sigma * draw i)
                    (seq 0 (length script_x))) in *.
  set (y := zip_with Qplus (linear_test_function 4 0 script_x) noise) in *.
  assert (Hleny : length script_x = length y)
    by (symmetry; now apply noisy_length).
  destruct (noisy_fit 4 0 script_x noise Hlen Hx) as [E1 E2].
  fold y in E1, E2.
  pose proof (linregress_fits script_x y Hleny Hx) as Hfit.
  assert (EV : ssxm script_x == 110 # 3) by (vm_compute; reflexivity).
  assert (EM : np_mean script_x == 0) by (vm_compute; reflexivity).
  assert (ES : Qsum script_x == 0) by (vm_compute; reflexivity).
  assert (EL : Qlen script_x == 21) by (vm_compute; reflexivity).
  assert (Hpos : (0 < length script_x)%nat) by (apply Nat.ltb_lt; reflexivity).
  assert (EC : ssxym script_x noise == np_dot script_x noise / 21).
  { apply (Qmult_inj_r _ _ (Qlen script_x)); [rewrite EL; discriminate|].
    rewrite (ssxym_sums script_x noise Hlen Hpos), ES, EL.
    field. }
  exists noise, y. do 3 eexists.
  split; [exact Hr|]. split; [exact Hy|].
  split; [unfold script_fit, script_y; now rewrite Hy, <- Hfit|].
  split; [|split; [|split]].
  - rewrite E1, EC, EV. field.
  - rewrite E2, EC, EV, EM. field.
  - unfold y_residuals. now rewrite Hfit.
  - apply Qsum_residuals_zero; [exact Hleny | exact Hpos].
Qed.

Lemma py_sum_concat {A : Type} (l : list (list A)) : py_sum l = concat l.
Proof.
  unfold py_sum.
  assert (H : forall acc, fold_left (fun acc x => acc ++ x) l acc
                          = acc ++ concat l).
  { induction l as [|x l IH]; intros acc; cbn [fold_left concat].
    - now rewrite app_nil_r.
    - now rewrite IH, app_assoc. }
  apply H.
Qed.

Lemma merge_legends_concat {H : Type} (per_axis : list (list H * list string)) :
  merge_legends per_axis
  = (concat (map fst per_axis), concat (map snd per_axis)).
Proof.
  unfold merge_legends. rewrite !py_sum_concat.
  assert (E : forall acc,
             fold_left (fun acc hl => (fst acc ++ [fst hl], snd acc ++ [snd hl]))
                       per_axis acc
             = (fst acc ++ map fst per_axis, snd acc ++ map snd per_axis)).
  { induction per_axis as [|hl l IH]; intros acc; cbn [fold_left map].
    - rewrite !app_nil_r. now destruct acc.
    - rewrite IH. cbn [fst snd]. now rewrite <- !app_assoc. }
  now rewrite E.
Qed.

(** X11.  The common legend keeps handles and labels paired: if every
    axes reports as many labels as handles, the merged lists have one
    length, and pairing them position by position gives the entries of
    the axes one after the other, in the order of the axes. *)
Theorem merge_legends_paired {H : Type} (per_axis : list (list H * list string)) :
  Forall (fun hl => length (fst hl) = length (snd hl)) per_axis ->
  length (fst (merge_legends per_axis)) = length (snd (merge_legends per_axis))
  /\ zip (fst (merge_legends per_axis)) (snd (merge_legends per_axis))
     = concat (map (fun hl => zip (fst hl) (snd hl)) per_axis).
Proof.
  intros Hall. rewrite merge_legends_concat. cbn [fst snd].
  induction Hall as [|[h l] rest Hhl _ [IH1 IH2]]; [split; reflexivity|].
  cbn [map concat fst snd] in *. split.
  - rewrite !length_app. now rewrite Hhl, IH1.
  - rewrite zip_with_app by exact Hhl. now rewrite IH2.
Qed.

Lemma merge_legends_paired_witness :
  length (fst (merge_legends [([1%nat; 2%nat], ["noisy"; "noisy data"]%string);
                              ([3%nat], ["data"%string])]))
  = length (snd (merge_legends [([1%nat; 2%nat], ["noisy"; "noisy data"]%string);
                                ([3%nat], ["data"%string])]))
  /\ zip (fst (merge_legends [([1%nat; 2%nat], ["noisy"; "noisy data"]%string);
                              ([3%nat], ["data"%string])]))
         (snd (merge_legends [([1%nat; 2%nat], ["noisy"; "noisy data"]%string);
                              ([3%nat], ["data"%string])]))
     = concat (map (fun hl => zip (fst hl) (snd hl))
                   [([1%nat; 2%nat], ["noisy"; "noisy data"]%string);
                    ([3%nat], ["data"%string])]).
Proof.
  apply (merge_legends_paired
           [([1%nat; 2%nat], ["noisy"; "noisy data"]%string);
            ([3%nat], ["data"%string])]).
  repeat constructor.
Defined.

End ResidualExtraClaims.

(** ** plot_one_x_many_y: header extraction *)

Section HeaderExtras.
Import Header.
Local Open Scope string_scope.

Implicit Types (s t cur sep : string) (c : ascii).

Lemma append_nil_r s : s ++ "" = s.
Proof.
  induction s as [|c s IH]; [reflexivity|].
  change (String c (s ++ "") = String c s). now rewrite IH.
Qed.

Lemma append_assoc s t u : (s ++ t) ++ u = s ++ (t ++ u).
Proof.
  induction s as [|c s IH]; [reflexivity|].
  change (String c ((s ++ t) ++ u) = String c (s ++ (t ++ u))). now rewrite IH.
Qed.

Lemma string_length_append s t :
  String.length (s ++ t) = (String.length s + String.length t)%nat.
Proof. induction s as [|c s IH]; simpl; [reflexivity | now rewrite IH]. Qed.

Lemma snoc_append cur c s : snoc cur c ++ s = cur ++ String c s.
Proof. unfold snoc. now rewrite append_assoc. Qed.

Lemma snoc_not_empty cur c : String.eqb (snoc cur c) "" = false.
Proof. destruct cur; reflexivity. Qed.

Lemma has_lower_append s t : has_lower (s ++ t) = has_lower s || has_lower t.
Proof.
  induction s as [|c s IH]; simpl; [reflexivity|].
  now rewrite IH, orb_assoc.
Qed.

Lemma has_space_append s t : has_space (s ++ t) = has_space s || has_space t.
Proof.
  induction s as [|c s IH]; simpl; [reflexivity|].
  now rewrite IH, orb_assoc.
Qed.

Lemma is_lower_upper_ascii c : is_lower (upper_ascii c) = false.
Proof. destruct c as [[] [] [] [] [] [] [] []]; reflexivity. Qed.

Lemma isspace_upper_ascii c : isspace (upper_ascii c) = isspace c.
Proof. destruct c as [[] [] [] [] [] [] [] []]; reflexivity. Qed.

Lemma has_lower_upper s : has_lower (upper s) = false.
Proof.
  induction s as [|c s IH]; [reflexivity|].
  cbn [upper has_lower]. now rewrite is_lower_upper_ascii, IH.
Qed.

Lemma upper_snoc cur c : upper (snoc cur c) = snoc (upper cur) (upper_ascii c).
Proof.
  unfold snoc. induction cur as [|d cur IH]; simpl; [reflexivity|].
  now rewrite IH.
Qed.

Lemma upper_empty cur : String.eqb (upper cur) "" = String.eqb cur "".
Proof. now destruct cur. Qed.

(** *** Splitting on whitespace *)

Lemma split_whitespace_from_clean cur s :
  has_space cur = false ->
  Forall (fun t => t <> "" /\ has_space t = false)
         (split_whitespace_from cur s).
Proof.
  revert cur. induction s as [|c s IH]; intros cur Hcur; cbn [split_whitespace_from].
  - destruct (String.eqb cur "") eqn:E; constructor; [|constructor].
    apply String.eqb_neq in E. now split.
  - destruct (isspace c) eqn:Ec.
    + destruct (String.eqb cur "") eqn:E; [now apply IH|].
      constructor; [|now apply IH].
      apply String.eqb_neq in E. now split.
    + apply IH. unfold snoc. rewrite has_space_append, Hcur. cbn.
      now rewrite Ec.
Qed.

Lemma split_whitespace_from_upper cur s :
  split_whitespace_from (upper cur) (upper s)
  = map upper (split_whitespace_from cur s).
Proof.
  revert cur. induction s as [|c s IH]; intros cur;
    cbn [upper split_whitespace_from].
  - rewrite upper_empty. now destruct (String.eqb cur "").
  - rewrite isspace_upper_ascii, upper_empty.
    destruct (isspace c).
    + destruct (String.eqb cur ""); cbn [map]; now rewrite <- (IH "").
    + now rewrite <- upper_snoc, IH.
Qed.

Lemma split_whitespace_from_no_lower cur s :
  has_lower cur = false -> has_lower s = false ->
  Forall (fun t => has_lower t = false) (split_whitespace_from cur s).
Proof.
  revert cur. induction s as [|c s IH]; intros cur Hcur Hs;
    cbn [split_whitespace_from].
  - destruct (String.eqb cur ""); repeat constructor. exact Hcur.
  - cbn [has_lower] in Hs. apply orb_false_iff in Hs as [Hc Hs].
    destruct (isspace c).
    + destruct (String.eqb cur ""); [now apply IH|].
      constructor; [exact Hcur | now apply IH].
    + apply IH; [|exact Hs]. unfold snoc. rewrite has_lower_append, Hcur.
      cbn. now rewrite Hc.
Qed.

(** *** Splitting on a separator *)

Lemma prefix_append sep s : String.prefix sep s = true -> exists t, s = sep ++ t.
Proof.
  revert s. induction sep as [|a sep IH]; intros s H.
  - now exists s.
  - destruct s as [|b s]; [discriminate|]. cbn in H.
    destruct (ascii_dec a b) as [->|]; [|discriminate].
    destruct (IH s H) as [t ->]. now exists t.
Qed.

Lemma split_sep_from_skip sep (n : nat) cur s t :
  String.length s = n ->
  split_sep_from sep n cur (s ++ t) = split_sep_from sep 0 cur t.
Proof.
  revert n. induction s as [|c s IH]; intros n Hn; cbn in Hn; subst n.
  - reflexivity.
  - cbn [append split_sep_from]. now apply IH.
Qed.

Lemma split_sep_from_not_nil sep n cur s : split_sep_from sep n cur s <> [].
Proof.
  revert n cur. induction s as [|c s IH]; intros n cur; cbn [split_sep_from].
  - discriminate.
  - destruct n; [|apply IH].
    destruct (String.prefix sep (String c s)); [discriminate | apply IH].
Qed.

Lemma str_join_cons sep a l :
  l <> [] -> str_join sep (a :: l) = a ++ sep ++ str_join sep l.
Proof. destruct l; [congruence | reflexivity]. Qed.

(** Joining the pieces with the separator gives the string back. *)
Lemma split_sep_from_join sep (n : nat) :
  sep <> "" ->
  forall s cur, String.length s <= n ->
    str_join sep (split_sep_from sep 0 cur s) = cur ++ s.
Proof.
  intros Hsep. induction n as [|n IH]; intros s cur Hn.
  - destruct s; [|cbn in Hn; lia]. cbn. now rewrite append_nil_r.
  - destruct s as [|c s]; [cbn; now rewrite append_nil_r|].
    cbn [split_sep_from].
    destruct (String.prefix sep (String c s)) eqn:Hp.
    + destruct (prefix_append _ _ Hp) as [t Ht].
      destruct sep as [|a sep']; [congruence|].
      cbn in Ht. injection Ht as -> ->.
      replace (String.length (String a sep') - 1) with (String.length sep')
        by (simpl; lia).
      rewrite split_sep_from_skip by reflexivity.
      rewrite str_join_cons by apply split_sep_from_not_nil.
      rewrite IH.
      * reflexivity.
      * simpl in Hn. rewrite string_length_append in Hn. lia.
    + rewrite IH by (simpl in Hn; lia). apply snoc_append.
Qed.

Lemma split_sep_from_no_match sep cur s :
  has_lower sep = true -> has_lower s = false ->
  split_sep_from sep 0 cur s = [cur ++ s].
Proof.
  intros Hsep. revert cur. induction s as [|c s IH]; intros cur Hs.
  - cbn. now rewrite append_nil_r.
  - cbn [split_sep_from].
    destruct (String.prefix sep (String c s)) eqn:Hp.
    + destruct (prefix_append _ _ Hp) as [t Ht].
      rewrite Ht, has_lower_append, Hsep in Hs. discriminate.
    + cbn [has_lower] in Hs. apply orb_false_iff in Hs as [_ Hs].
      rewrite IH by exact Hs. now rewrite snoc_append.
Qed.

Lemma str_join_no_lower sep (l : list string) :
  has_lower (str_join sep l) = false ->
  Forall (fun t => has_lower t = false) l.
Proof.
  induction l as [|a l IH]; [constructor|].
  destruct l as [|b l].
  - cbn. intros H. now repeat constructor.
  - rewrite str_join_cons by discriminate.
    rewrite !has_lower_append. intros H.
    apply orb_false_iff in H as [Ha H]. apply orb_false_iff in H as [_ H].
    constructor; [exact Ha | now apply IH].
Qed.

(** [get_line] with a non-empty delimiter, and what its tokens join to. *)
Lemma split_upper_line_join (fs : file_system) (file_path : string)
    (h : Z) (sep : string) :
  sep <> "" ->
  exists toks,
    get_line fs file_path h true (Some sep) = Ok toks
    /\ str_join sep toks = upper (getline fs file_path (h + 1)).
Proof.
  intros Hsep. unfold get_line, str_split.
  destruct (String.eqb sep "") eqn:E; [apply String.eqb_eq in E; congruence|].
  eexists. split; [reflexivity|].
  now rewrite (split_sep_from_join sep _ Hsep _ "" (Nat.le_refl _)).
Qed.

End HeaderExtras.

Section HeaderExtraClaims.
Import Header.
Local Open Scope string_scope.

(** X12.  With the default whitespace delimiter, for every line that
    exists, [get_line] returns the whitespace-separated tokens of the
    text of that line: the line feed [linecache] keeps is dropped by the
    split, and the tokens are upper-cased when [uppercase] is set. *)
Theorem get_line_whitespace_text (fs : file_system) (file_path : string)
    (h : nat) (uppercase : bool) (l : string) :
  getlines fs file_path !! h = Some l ->
  get_line fs file_path (Z.of_nat h) uppercase None
  = Ok (split_whitespace (if uppercase then upper (chomp l) else chomp l)).
Proof.
  intros Hl. apply get_line_whitespace_tokens.
  unfold spec_tokens. now rewrite Hl.
Qed.

Lemma get_line_whitespace_text_witness :
  get_line example_file_system "example.csv" (Z.of_nat 1) true None
  = Ok (split_whitespace (upper (chomp ("height,flux a,flux b" ++ nl)))).
Proof.
  apply (get_line_whitespace_text example_file_system "example.csv" 1 true).
  reflexivity.
Defined.

(** X13.  With the default whitespace delimiter [get_line] never
    returns an empty token or a token that holds a whitespace
    character, for any file, line index and setting of [uppercase]. *)
Theorem get_line_whitespace_clean (fs : file_system) (file_path : string)
    (h : Z) (uppercase : bool) :
  exists toks,
    get_line fs file_path h uppercase None = Ok toks
    /\ Forall (fun t => t <> "" /\ has_space t = false) toks.
Proof.
  eexists. split; [reflexivity|].
  now apply split_whitespace_from_clean.
Qed.

(** X14.  With a non-empty delimiter nothing of the line is lost or
    added: joining the tokens [get_line] returns with the delimiter
    gives back the line it split, line feed included (the upper-cased
    line when [uppercase] is set, the empty string when the line is
    missing). *)
Theorem get_line_join (fs : file_system) (file_path : string) (h : Z)
    (uppercase : bool) (sep : string) :
  sep <> "" ->
  exists toks,
    get_line fs file_path h uppercase (Some sep) = Ok toks
    /\ str_join sep toks = header_text fs file_path h uppercase.
Proof.
  intros Hsep. unfold get_line, str_split. fold (header_text fs file_path h uppercase).
  destruct (String.eqb sep "") eqn:E; [apply String.eqb_eq in E; congruence|].
  eexists. split; [reflexivity|].
  now rewrite (split_sep_from_join sep _ Hsep _ "" (Nat.le_refl _)).
Qed.

Lemma get_line_join_witness :
  exists toks,
    get_line example_file_system "example.csv" 1 true (Some ",") = Ok toks
    /\ str_join "," toks = header_text example_file_system "example.csv" 1 true.
Proof.
  apply (get_line_join example_file_system "example.csv" 1 true ",").
  discriminate.
Defined.

(** X15.  The line is upper-cased before it is split, so with
    [uppercase] set a delimiter that holds a lowercase ASCII letter is
    never found: [get_line] returns the whole upper-cased line as its
    only token. *)
Theorem get_line_lowercase_delimiter (fs : file_system) (file_path : string)
    (h : Z) (sep : string) :
  has_lower sep = true ->
  get_line fs file_path h true (Some sep)
  = Ok [header_text fs file_path h true].
Proof.
  intros Hsep. unfold get_line, str_split, header_text.
  destruct (String.eqb sep "") eqn:E.
  { apply String.eqb_eq in E. subst sep. discriminate Hsep. }
  now rewrite (split_sep_from_no_match sep "" _ Hsep (has_lower_upper _)).
Qed.

Lemma get_line_lowercase_delimiter_witness :
  get_line example_file_system "example.csv" 1 true (Some "flux")
  = Ok [header_text example_file_system "example.csv" 1 true].
Proof.
  apply (get_line_lowercase_delimiter example_file_system "example.csv" 1 "flux").
  reflexivity.
Defined.

(** X16.  With [uppercase] set, no token [get_line] returns holds a
    lowercase ASCII letter, whatever the (non-empty or absent)
    delimiter. *)
Theorem get_line_upper_tokens (fs : file_system) (file_path : string) (h : Z)
    (d : option string) :
  d <> Some "" ->
  exists toks,
    get_line fs file_path h true d = Ok toks
    /\ Forall (fun t => has_lower t = false) toks.
Proof.
  intros Hd. destruct d as [sep|].
  - assert (Hsep : sep <> "") by congruence.
    destruct (split_upper_line_join fs file_path h sep Hsep)
      as (toks & Ht & Hj).
    exists toks. split; [exact Ht|].
    apply (str_join_no_lower sep). rewrite Hj. apply has_lower_upper.
  - eexists. split; [reflexivity|].
    apply split_whitespace_from_no_lower; [reflexivity | apply has_lower_upper].
Qed.

Lemma get_line_upper_tokens_witness :
  exists toks,
    get_line example_file_system "example.csv" 1 true (Some ",") = Ok toks
    /\ Forall (fun t => has_lower t = false) toks.
Proof.
  apply (get_line_upper_tokens example_file_system "example.csv" 1 (Some ",")).
  discriminate.
Defined.

(** X17.  With the default whitespace delimiter upper-casing and
    splitting commute: the tokens returned with [uppercase=True] are
    the upper-cased tokens returned with [uppercase=False]. *)
Theorem get_line_uppercase_maps (fs : file_system) (file_path : string) (h : Z) :
  exists toks,
    get_line fs file_path h false None = Ok toks
    /\ get_line fs file_path h true None = Ok (map upper toks).
Proof.
  eexists. split; [reflexivity|].
  unfold get_line, str_split, split_whitespace. f_equal.
  apply (split_whitespace_from_upper "").
Qed.

End HeaderExtraClaims.

(** ** plot_one_x_many_y: fit and plot *)

Section PlotExtras.
Import Plot.
Local Open Scope string_scope.

(** [plot_data] run to its end when there are at least as many labels
    as series. *)
Lemma plot_data_ok_le (st : pyplot) (x_data : list Q) (y_data : list (list Q))
    (labels : list string) (kwargs : data_kwargs) (cm : Colormap)
    (fk ak lk : kwargs_dict) (start stop : Q) :
  let ax := length (axes st) in
  let m := length labels in
  let drawn :=
    after_series cm m x_data labels (linear_condition kwargs) start stop
      0 y_data
      {| prop_cycle := cycle_colors cm m; fill_idx := 0; collections := [];
         lines := []; ax_props := None; legend_ := None |} in
  let final :=
    {| prop_cycle := prop_cycle drawn; fill_idx := fill_idx drawn;
       collections := collections drawn; lines := lines drawn;
       ax_props := Some ak;
       legend_ := Some (omap (series_entry cm m labels)
                             (seq 0 (length y_data))) |} in
  fig_kwargs kwargs = Some fk ->
  ax_kwargs kwargs = Some ak ->
  legend_kwargs kwargs = Some lk ->
  get_cmap (default (CmapName "viridis") (color_cycle kwargs)) st = Ok (cm, st) ->
  (length y_data <= length labels)%nat ->
  Forall (fun y => length y = length x_data) y_data ->
  head x_data = Some start ->
  last x_data = Some stop ->
  (4 <= length x_data)%nat ->
  increasing true x_data = true ->
  plot_data x_data y_data labels kwargs st
  = Ok (ax, with_axes st (axes st ++ [final])).
Proof.
  intros ax m drawn final Hfk Hak Hlk Hcm Hm Hall Hhead Hstop Hn Hinc.
  unfold plot_data. rewrite Hfk, Hak, Hlk.
  set (a0 := new_axes (rc_prop_cycle st)).
  set (st0 := with_axes st (axes st ++ [a0])).
  assert (Hsub : subplots (Some fk) st = Ok (ax, st0)) by reflexivity.
  rewrite (bind_ok _ _ _ _ _ Hsub).
  assert (Ha0 : axes st0 !! ax = Some a0)
    by (cbn [st0 with_axes axes]; apply list_lookup_middle; reflexivity).
  rewrite (bind_ok _ _ _ _ _
             (set_color_cycle_ok st0 ax a0 _ cm m Ha0
                (get_cmap_with_axes _ _ _ _ Hcm))).
  set (a1 := {| prop_cycle := cycle_colors cm m; fill_idx := 0;
                collections := collections a0; lines := lines a0;
                ax_props := ax_props a0; legend_ := legend_ a0 |}).
  set (st1 := with_axes st0 (<[ax := a1]> (axes st0))).
  assert (Ha1 : axes st1 !! ax = Some a1)
    by exact (lookup_with_axes_insert st0 ax a0 a1 Ha0).
  assert (Hlen1 : length (axes st1) = S ax).
  { cbn [st1 st0 with_axes axes]. rewrite length_insert, length_app.
    cbn [length]. unfold ax. lia. }
  rewrite (bind_ok _ _ _ _ _
             (plot_loop_ok ax x_data labels kwargs cm m start stop y_data
                Hhead Hstop Hn Hinc 0 st1 a1 Ha1 Hlen1 eq_refl
                (zero_mod m)
                ltac:(unfold m; lia) Hall
                ltac:(intros i Hi; apply series_label_is_Some; lia))).
  set (a2 := after_series _ _ _ _ _ _ _ _ _ a1).
  set (st2 := with_axes st1 (<[ax := a2]> (axes st1))).
  assert (Ha2 : axes st2 !! ax = Some a2)
    by exact (lookup_with_axes_insert st1 ax a1 a2 Ha1).
  unfold ax_set. rewrite (bind_ok _ _ _ _ _ (update_axes_ok _ _ _ _ Ha2)).
  set (a3 := {| prop_cycle := prop_cycle a2; fill_idx := fill_idx a2;
                collections := collections a2; lines := lines a2;
                ax_props := Some ak; legend_ := legend_ a2 |}).
  set (st3 := with_axes st2 (<[ax := a3]> (axes st2))).
  assert (Ha3 : axes st3 !! ax = Some a3)
    by exact (lookup_with_axes_insert st2 ax a2 a3 Ha2).
  unfold legend. rewrite (bind_ok _ _ _ _ _ (update_axes_ok _ _ _ _ Ha3)).
  unfold mret, M_ret. do 2 f_equal.
  cbn [st3 st2 st1 st0 with_axes axes cmap_registry rc_image_cmap rc_prop_cycle].
  rewrite !list_insert_insert_eq.
  f_equal.
  replace ax with (length (axes st) + 0)%nat by (unfold ax; lia).
  rewrite insert_app_r. cbn [insert list_insert]. do 2 f_equal.
  unfold final, drawn. fold a1.
  change (after_series cm m x_data labels (linear_condition kwargs) start stop
            0 y_data a1) with a2.
  f_equal.
  unfold legend_entries. cbn [lines a3 a2 after_series a1 a0 new_axes app].
  now rewrite series_legend_entries.
Qed.

(** The two lines of a series among the lines the loop adds. *)
Lemma series_lines_lookup (cm : Colormap) (m : nat) (x_data : list Q)
    (labels : list string) (cond : option (list Q -> list Q -> bool))
    (start stop : Q) (cols : list (list Q)) (j i : nat) (y : list Q) :
  cols !! i = Some y ->
  exists curve handle,
    series_lines cm m x_data labels cond start stop (j + i) y = [curve; handle]
    /\ concat (zip_with (series_lines cm m x_data labels cond start stop)
                        (seq j (length cols)) cols) !! (2 * i)%nat = Some curve
    /\ concat (zip_with (series_lines cm m x_data labels cond start stop)
                        (seq j (length cols)) cols) !! (2 * i + 1)%nat = Some handle.
Proof.
  revert j i. induction cols as [|y0 cols IH]; intros j i Hy; [discriminate|].
  destruct i as [|i].
  - cbn in Hy. injection Hy as ->. rewrite Nat.add_0_r.
    do 2 eexists. split; [reflexivity|]. split; reflexivity.
  - cbn in Hy. destruct (IH (S j) i Hy) as (curve & handle & E & H1 & H2).
    exists curve, handle.
    replace (j + S i)%nat with (S j + i)%nat by lia.
    split; [exact E|].
    cbn [length seq zip_with concat]. unfold series_lines at 1 3.
    replace (2 * S i)%nat with (S (S (2 * i))) by lia.
    replace (S (S (2 * i)) + 1)%nat with (S (S (2 * i + 1))) by lia.
    cbn [app lookup list_lookup]. split; assumption.
Qed.

(** The labels [labels[i - 1]] for [i = 0 .. m-1], when there are at
    least [m >= 1] labels: the last label, then the first [m - 1]. *)
Lemma series_labels_take (labels : list string) (z : string) (m : nat) :
  last labels = Some z -> (m <= length labels)%nat ->
  map (fun i => default "" (series_label labels i)) (seq 0 (S m))
  = z :: take m labels.
Proof.
  intros Hz Hm. cbn [seq map series_label]. rewrite Hz. cbn [default from_option].
  f_equal. rewrite <- seq_shift, map_map. cbn [series_label].
  apply list_eq. intros i. rewrite list_lookup_fmap.
  destruct (decide (i < m)%nat) as [Hi|Hi].
  - rewrite lookup_seq_lt by exact Hi. cbn.
    rewrite lookup_take_lt by exact Hi.
    destruct (lookup_lt_is_Some_2 labels i ltac:(lia)) as [s Hs].
    now rewrite Hs.
  - rewrite lookup_seq_ge by lia. cbn. symmetry.
    apply lookup_ge_None. rewrite length_take. lia.
Qed.

Lemma series_entries_visible (cm : Colormap) (labels : list string) (m n : nat) :
  Forall (fun s => legend_visible s = true) labels ->
  (n <= length labels)%nat ->
  omap (series_entry cm m labels) (seq 0 n)
  = map (fun i => (default "" (series_label labels i), series_color cm m i))
        (seq 0 n).
Proof.
  intros Hvis Hn.
  assert (Hin : forall i, i ∈ seq 0 n -> (i < length labels)%nat)
    by (intros i Hi; apply elem_of_seq in Hi; lia).
  induction (seq 0 n) as [|i l IH]; [reflexivity|].
  cbn [omap list_omap map]. unfold series_entry at 1. cbv zeta.
  destruct (series_label_is_Some labels i) as [s Hs]; [apply Hin; left|].
  rewrite Hs. change (default "" (Some s)) with s.
  rewrite Forall_forall in Hvis.
  rewrite (Hvis s (series_label_elem _ _ _ Hs)).
  f_equal. apply IH. intros k Hk. apply Hin. now right.
Qed.

(** *** Error paths *)

Lemma lift_raise {A : Type} (e : exn) (st : pyplot) :
  lift (@Raise A e) st = Raise e.
Proof. reflexivity. Qed.

Lemma bind_always_raises {A B : Type} (m : M A) (k : A -> M B) (st : pyplot) :
  (forall a st', exists e, k a st' = Raise e) ->
  exists e, (m ≫= k) st = Raise e.
Proof.
  intros Hk. unfold mbind, M_bind.
  destruct (m st) as [[a st']|e]; [apply Hk | now exists e].
Qed.

Lemma plot_fit_too_few (ax : nat) (x y : list Q)
    (cond : option (list Q -> list Q -> bool)) (kwargs : fit_kwargs)
    (st : pyplot) :
  length x = length y ->
  (1 <= requested_degree cond x y kwargs <= 5)%Z ->
  (Z.of_nat (length x) <= requested_degree cond x y kwargs)%Z ->
  plot_fit ax x y cond kwargs st = Raise TypeError.
Proof.
  intros Hlen [Hk1 Hk5] Hm. unfold plot_fit.
  apply bind_raise.
  assert (E : splrep x y
                (default empty_splrep_kw
                   (splrep_kwargs (apply_linear_condition cond x y kwargs)))
              = Raise TypeError).
  { unfold splrep. rewrite apply_linear_condition_k.
    rewrite Hlen, Nat.eqb_refl. cbn [negb].
    replace (1 <=? requested_degree cond x y kwargs)%Z with true
      by (symmetry; now apply Z.leb_le).
    replace (requested_degree cond x y kwargs <=? 5)%Z with true
      by (symmetry; now apply Z.leb_le).
    cbn [andb negb].
    replace (Z.of_nat (length y) <=? requested_degree cond x y kwargs)%Z
      with true by (symmetry; apply Z.leb_le; lia).
    reflexivity. }
  now rewrite E.
Qed.

Lemma last_scatter_color_raises (st : pyplot) :
  (axes st = []
   \/ exists a_last, last (axes st) = Some a_last /\ collections a_last = []) ->
  last_scatter_color st = Raise IndexError.
Proof.
  intros [He|(a_last & Ha & Hc)]; unfold last_scatter_color.
  - assert (Hg : gca st = Ok (0%nat, with_axes st [new_axes (rc_prop_cycle st)]))
      by (unfold gca; now rewrite He).
    rewrite (bind_ok _ _ _ _ _ Hg).
    assert (Hget : get_axes 0 (with_axes st [new_axes (rc_prop_cycle st)])
                   = Ok (new_axes (rc_prop_cycle st),
                         with_axes st [new_axes (rc_prop_cycle st)]))
      by reflexivity.
    rewrite (bind_ok _ _ _ _ _ Hget). reflexivity.
  - rewrite (bind_ok _ _ _ _ _ (gca_ok st a_last Ha)).
    assert (Hl : axes st !! (length (axes st) - 1)%nat = Some a_last).
    { rewrite last_lookup in Ha.
      now replace (length (axes st) - 1)%nat with (pred (length (axes st)))
        by lia. }
    rewrite (bind_ok _ _ _ _ _ (get_axes_ok _ _ _ Hl)).
    rewrite Hc. reflexivity.
Qed.

(** The start of [plot_data]: the new axes with its colour cycle. *)
Lemma plot_data_start (st : pyplot) (x_data : list Q) (y_data : list (list Q))
    (labels : list string) (kwargs : data_kwargs) (cm : Colormap)
    (fk : kwargs_dict) :
  let ax := length (axes st) in
  let a1 := {| prop_cycle := cycle_colors cm (length labels); fill_idx := 0;
               collections := []; lines := []; ax_props := None;
               legend_ := None |} in
  let st1 := with_axes st (axes st ++ [a1]) in
  fig_kwargs kwargs = Some fk ->
  get_cmap (default (CmapName "viridis") (color_cycle kwargs)) st = Ok (cm, st) ->
  axes st1 !! ax = Some a1
  /\ length (axes st1) = S ax
  /\ plot_data x_data y_data labels kwargs st
     = (mfor (zip (seq 0 (length y_data)) y_data)
             (plot_series ax x_data labels kwargs);;
        ax_set ax (ax_kwargs kwargs);;
        legend ax (legend_kwargs kwargs);;
        mret ax) st1.
Proof.
  intros ax a1 st1 Hfk Hcm.
  split; [cbn [st1 with_axes axes]; apply list_lookup_middle; reflexivity|].
  split; [cbn [st1 with_axes axes]; rewrite length_app; cbn; unfold ax; lia|].
  unfold plot_data. rewrite Hfk.
  set (a0 := new_axes (rc_prop_cycle st)).
  set (st0 := with_axes st (axes st ++ [a0])).
  assert (Hsub : subplots (Some fk) st = Ok (ax, st0)) by reflexivity.
  rewrite (bind_ok _ _ _ _ _ Hsub).
  assert (Ha0 : axes st0 !! ax = Some a0)
    by (cbn [st0 with_axes axes]; apply list_lookup_middle; reflexivity).
  rewrite (bind_ok _ _ _ _ _
             (set_color_cycle_ok st0 ax a0 _ cm (length labels) Ha0
                (get_cmap_with_axes _ _ _ _ Hcm))).
  f_equal. unfold st1, st0. cbn [with_axes axes cmap_registry rc_image_cmap
                                   rc_prop_cycle].
  f_equal.
  replace ax with (length (axes st) + 0)%nat by (unfold ax; lia).
  rewrite insert_app_r. reflexivity.
Qed.

Lemma series_lines_length (cm : Colormap) (m : nat) (x_data : list Q)
    (labels : list string) (cond : option (list Q -> list Q -> bool))
    (start stop : Q) (cols : list (list Q)) (j : nat) :
  length (concat (zip_with (series_lines cm m x_data labels cond start stop)
                           (seq j (length cols)) cols))
  = (2 * length cols)%nat.
Proof.
  revert j. induction cols as [|y cols IH]; intros j; [reflexivity|].
  cbn [length seq zip_with concat]. unfold series_lines at 1.
  cbn [app length]. rewrite IH. lia.
Qed.

(** The first turn of the loop up to the fit, on the axes [plot_data]
    has just created. *)
Lemma plot_series_until_fit (st : pyplot) (ax : nat) (a : Axes)
    (x_data y : list Q) (labels : list string) (kwargs : data_kwargs)
    (i : nat) (c : Color) (start stop : Q) (e : exn) :
  axes st !! ax = Some a ->
  length (axes st) = S ax ->
  prop_cycle a !! fill_idx a = Some c ->
  length x_data = length y ->
  head x_data = Some start ->
  last x_data = Some stop ->
  (forall st', plot_fit ax x_data y (linear_condition kwargs)
                 (loop_fit_kwargs start stop) st' = Raise e) ->
  plot_series ax x_data labels kwargs (i, y) st = Raise e.
Proof.
  intros Ha Hlast Hc Hlen Hhead Hstop Hfit. unfold plot_series.
  rewrite (bind_ok _ _ _ _ _ (scatter_ok _ _ _ _ _ _ Ha Hlen Hc)).
  set (a1 := {| prop_cycle := prop_cycle a;
                fill_idx := S (fill_idx a) mod length (prop_cycle a);
                collections := collections a ++ [series_scatter x_data y c];
                lines := lines a; ax_props := ax_props a;
                legend_ := legend_ a |}).
  set (st1 := with_axes st (<[ax := a1]> (axes st))).
  assert (Hlast1 : last (axes st1) = Some a1)
    by (apply last_insert_last; exact Hlast).
  assert (Hpc : last (collections a1) = Some (series_scatter x_data y c))
    by (cbn [collections a1]; apply last_snoc).
  rewrite (bind_ok _ _ _ _ _ (last_scatter_color_ok _ _ _ Hlast1 Hpc)).
  assert (Hstart : py_index x_data 0 = Ok start).
  { apply (py_index_nat x_data 0). now rewrite <- head_lookup. }
  rewrite (bind_ok _ _ _ _ _ (lift_ok _ _ _ Hstart)).
  rewrite (bind_ok _ _ _ _ _ (lift_ok _ _ _ (py_index_last _ _ Hstop))).
  apply bind_raise. apply Hfit.
Qed.

Lemma head_last_nonempty (x : list Q) :
  (1 <= length x)%nat -> exists start stop, head x = Some start /\ last x = Some stop.
Proof.
  intros Hn. destruct x as [|x0 x]; [cbn in Hn; lia|].
  exists x0. destruct (last (x0 :: x)) as [z|] eqn:E; [now exists z|].
  apply last_None in E. discriminate E.
Qed.

End PlotExtras.

Section PlotExtraClaims.
Import Plot.
Local Open Scope string_scope.

(** X18.  Given every keyword dictionary, a registered colormap, at
    least as many labels as series, series as long as [x_data], and at
    least four strictly increasing abscissae, [plot_data] returns: it
    leaves the existing axes as they are and appends one axes whose
    colour cycle has one colour per label, with one scatter group and
    one fitted curve per series and two lines per series in all. *)
Theorem plot_data_counts (st : pyplot) (x_data : list Q)
    (y_data : list (list Q)) (labels : list string) (kwargs : data_kwargs)
    (cm : Colormap) (fk ak lk : kwargs_dict) :
  fig_kwargs kwargs = Some fk ->
  ax_kwargs kwargs = Some ak ->
  legend_kwargs kwargs = Some lk ->
  get_cmap (default (CmapName "viridis") (color_cycle kwargs)) st = Ok (cm, st) ->
  (length y_data <= length labels)%nat ->
  Forall (fun y => length y = length x_data) y_data ->
  (4 <= length x_data)%nat ->
  increasing true x_data = true ->
  exists st' a,
    plot_data x_data y_data labels kwargs st = Ok (length (axes st), st')
    /\ axes st' = (axes st ++ [a])%list
    /\ prop_cycle a = cycle_colors cm (length labels)
    /\ length (collections a) = length y_data
    /\ length (filter (fun l => is_fit_curve l = true) (lines a))
       = length y_data
    /\ length (lines a) = (2 * length y_data)%nat
    /\ ax_props a = Some ak.
Proof.
  intros Hfk Hak Hlk Hcm Hm Hall Hn Hinc.
  destruct (head_last_exist x_data Hn) as (start & stop & Hhead & Hstop).
  do 2 eexists.
  split; [exact (plot_data_ok_le st x_data y_data labels kwargs cm fk ak lk
                   start stop Hfk Hak Hlk Hcm Hm Hall Hhead Hstop Hn Hinc)|].
  split; [reflexivity|].
  cbn [prop_cycle collections lines ax_props after_series app].
  split; [reflexivity|].
  split; [apply series_scatters_length|].
  split; [apply series_curves_count|].
  split; [apply series_lines_length | reflexivity].
Qed.

Lemma plot_data_counts_witness :
  exists st' a,
    plot_data [0; 1; 2; 3]%Q [[1; 2; 3; 4]%Q; [4; 3; 2; 1]%Q]
      ["X"; "A"; "B"] example_data_kwargs example_pyplot
    = Ok (length (axes example_pyplot), st')
    /\ axes st' = (axes example_pyplot ++ [a])%list
    /\ prop_cycle a = cycle_colors ramp_cmap (length ["X"; "A"; "B"])
    /\ length (collections a) = length [[1; 2; 3; 4]%Q; [4; 3; 2; 1]%Q]
    /\ length (filter (fun l => is_fit_curve l = true) (lines a))
       = length [[1; 2; 3; 4]%Q; [4; 3; 2; 1]%Q]
    /\ length (lines a) = (2 * length [[1; 2; 3; 4]%Q; [4; 3; 2; 1]%Q])%nat
    /\ ax_props a = Some ∅.
Proof.
  apply (plot_data_counts example_pyplot [0; 1; 2; 3]%Q
           [[1; 2; 3; 4]%Q; [4; 3; 2; 1]%Q] ["X"; "A"; "B"]
           example_data_kwargs ramp_cmap ∅ ∅ ∅);
    first [reflexivity | simpl; lia | repeat constructor].
Defined.

(** X19.  Under the same conditions, series [i] with data [y] is drawn
    as the scatter group [i] of [(x_data, y)], the line [2i] showing a
    spline fitted to [(x_data, y)], and the empty line [2i + 1] that
    carries the legend label [labels[i - 1]]; all three have the colour
    [cm(i / len(labels))]. *)
Theorem plot_data_series_artists (st : pyplot) (x_data : list Q)
    (y_data : list (list Q)) (labels : list string) (kwargs : data_kwargs)
    (cm : Colormap) (fk ak lk : kwargs_dict) :
  fig_kwargs kwargs = Some fk ->
  ax_kwargs kwargs = Some ak ->
  legend_kwargs kwargs = Some lk ->
  get_cmap (default (CmapName "viridis") (color_cycle kwargs)) st = Ok (cm, st) ->
  (length y_data <= length labels)%nat ->
  Forall (fun y => length y = length x_data) y_data ->
  (4 <= length x_data)%nat ->
  increasing true x_data = true ->
  exists st' a,
    plot_data x_data y_data labels kwargs st = Ok (length (axes st), st')
    /\ axes st' !! length (axes st) = Some a
    /\ forall i y, y_data !! i = Some y ->
         exists grid spl label,
           collections a !! i
           = Some (series_scatter x_data y (series_color cm (length labels) i))
           /\ lines a !! (2 * i)%nat
              = Some (series_curve grid spl (series_color cm (length labels) i))
           /\ lines a !! (2 * i + 1)%nat
              = Some (series_handle label (series_color cm (length labels) i))
           /\ spl_x spl = x_data /\ spl_y spl = y
           /\ series_label labels i = Some label.
Proof.
  intros Hfk Hak Hlk Hcm Hm Hall Hn Hinc.
  destruct (head_last_exist x_data Hn) as (start & stop & Hhead & Hstop).
  do 2 eexists.
  split; [exact (plot_data_ok_le st x_data y_data labels kwargs cm fk ak lk
                   start stop Hfk Hak Hlk Hcm Hm Hall Hhead Hstop Hn Hinc)|].
  split; [cbn [with_axes axes]; apply list_lookup_middle; reflexivity|].
  intros i y Hy. cbn [collections lines after_series app].
  pose proof (lookup_lt_Some _ _ _ Hy) as Hi.
  destruct (series_label_is_Some labels i ltac:(lia)) as [label Hlabel].
  destruct (series_lines_lookup cm (length labels) x_data labels
              (linear_condition kwargs) start stop y_data 0 i y Hy)
    as (curve & handle & E & H1 & H2).
  cbn [Nat.add] in E. unfold series_lines in E. rewrite Hlabel in E.
  injection E as <- <-.
  do 3 eexists.
  split; [now rewrite (series_scatters_lookup _ _ _ _ _ _ _ Hy)|].
  split; [exact H1|]. split; [exact H2|].
  repeat split. exact Hlabel.
Qed.

Lemma plot_data_series_artists_witness :
  exists st' a,
    plot_data [0; 1; 2; 3]%Q [[1; 2; 3; 4]%Q; [4; 3; 2; 1]%Q]
      ["X"; "A"; "B"] example_data_kwargs example_pyplot
    = Ok (length (axes example_pyplot), st')
    /\ axes st' !! length (axes example_pyplot) = Some a
    /\ forall i y, [[1; 2; 3; 4]%Q; [4; 3; 2; 1]%Q] !! i = Some y ->
         exists grid spl label,
           collections a !! i
           = Some (series_scatter [0; 1; 2; 3]%Q y
                     (series_color ramp_cmap (length ["X"; "A"; "B"]) i))
           /\ lines a !! (2 * i)%nat
              = Some (series_curve grid spl
                        (series_color ramp_cmap (length ["X"; "A"; "B"]) i))
           /\ lines a !! (2 * i + 1)%nat
              = Some (series_handle label
                        (series_color ramp_cmap (length ["X"; "A"; "B"]) i))
           /\ spl_x spl = [0; 1; 2; 3]%Q /\ spl_y spl = y
           /\ series_label ["X"; "A"; "B"] i = Some label.
Proof.
  apply (plot_data_series_artists example_pyplot [0; 1; 2; 3]%Q
           [[1; 2; 3; 4]%Q; [4; 3; 2; 1]%Q] ["X"; "A"; "B"]
           example_data_kwargs ramp_cmap ∅ ∅ ∅);
    first [reflexivity | simpl; lia | repeat constructor].
Defined.

(** X20.  The legend of [plot_data], for labels the legend shows and at
    least one series: its entries are in series order, and since series
    [i] is labelled [labels[i - 1]] they read the last label first and
    then the first [m - 1] labels, [m] being the number of series. *)
Theorem plot_data_legend_labels (st : pyplot) (x_data : list Q)
    (y_data : list (list Q)) (labels : list string) (kwargs : data_kwargs)
    (cm : Colormap) (fk ak lk : kwargs_dict) :
  fig_kwargs kwargs = Some fk ->
  ax_kwargs kwargs = Some ak ->
  legend_kwargs kwargs = Some lk ->
  get_cmap (default (CmapName "viridis") (color_cycle kwargs)) st = Ok (cm, st) ->
  (1 <= length y_data <= length labels)%nat ->
  Forall (fun s => legend_visible s = true) labels ->
  Forall (fun y => length y = length x_data) y_data ->
  (4 <= length x_data)%nat ->
  increasing true x_data = true ->
  exists st' a z,
    plot_data x_data y_data labels kwargs st = Ok (length (axes st), st')
    /\ axes st' !! length (axes st) = Some a
    /\ last labels = Some z
    /\ legend_labels a = Some (z :: take (length y_data - 1) labels).
Proof.
  intros Hfk Hak Hlk Hcm [Hm1 Hm] Hvis Hall Hn Hinc.
  destruct (head_last_exist x_data Hn) as (start & stop & Hhead & Hstop).
  destruct (last labels) as [z|] eqn:Hz;
    [|apply last_None in Hz; subst labels; cbn in Hm; lia].
  do 2 eexists. exists z.
  split; [exact (plot_data_ok_le st x_data y_data labels kwargs cm fk ak lk
                   start stop Hfk Hak Hlk Hcm Hm Hall Hhead Hstop Hn Hinc)|].
  split; [cbn [with_axes axes]; apply list_lookup_middle; reflexivity|].
  split; [reflexivity|].
  unfold legend_labels. cbn [legend_ fmap option_fmap option_map]. f_equal.
  rewrite (series_entries_visible cm labels _ _ Hvis Hm), map_map. cbn [fst].
  destruct (length y_data) as [|m'] eqn:Em; [lia|].
  replace (S m' - 1)%nat with m' by lia.
  apply series_labels_take; [exact Hz | lia].
Qed.

Lemma plot_data_legend_labels_witness :
  exists st' a z,
    plot_data [0; 1; 2; 3]%Q [[1; 2; 3; 4]%Q; [4; 3; 2; 1]%Q]
      ["X"; "A"; "B"] example_data_kwargs example_pyplot
    = Ok (length (axes example_pyplot), st')
    /\ axes st' !! length (axes example_pyplot) = Some a
    /\ last ["X"; "A"; "B"] = Some z
    /\ legend_labels a
       = Some (z :: take (length [[1; 2; 3; 4]%Q; [4; 3; 2; 1]%Q] - 1)
                        ["X"; "A"; "B"]).
Proof.
  apply (plot_data_legend_labels example_pyplot [0; 1; 2; 3]%Q
           [[1; 2; 3; 4]%Q; [4; 3; 2; 1]%Q] ["X"; "A"; "B"]
           example_data_kwargs ramp_cmap ∅ ∅ ∅);
    first [reflexivity | simpl; lia | repeat constructor].
Defined.

(** X21.  The keyword dictionaries are not optional: without
    [fig_kwargs] [plot_data] raises [TypeError] before it draws
    anything, and without [ax_kwargs] or [legend_kwargs] it raises as
    well, for every input; it never returns then. *)
Theorem plot_data_needs_kwargs (st : pyplot) (x_data : list Q)
    (y_data : list (list Q)) (labels : list string) (kwargs : data_kwargs) :
  (fig_kwargs kwargs = None ->
   plot_data x_data y_data labels kwargs st = Raise TypeError)
  /\ (ax_kwargs kwargs = None \/ legend_kwargs kwargs = None ->
      exists e, plot_data x_data y_data labels kwargs st = Raise e).
Proof.
  split.
  - intros Hfk. unfold plot_data. now rewrite Hfk.
  - intros H. unfold plot_data.
    apply bind_always_raises. intros ax st1.
    apply bind_always_raises. intros _ st2.
    apply bind_always_raises. intros _ st3.
    destruct H as [Hak|Hlk].
    + rewrite Hak. exists TypeError. reflexivity.
    + apply bind_always_raises. intros _ st4.
      rewrite Hlk. exists TypeError. reflexivity.
Qed.

(** X22.  A series of one to three points cannot be fitted with the
    default cubic spline: when the predicate is absent or does not hold
    on the first series, [plot_data] raises the [TypeError] of [splrep]
    at that series; it neither skips the fit nor falls back to a
    line. *)
Theorem plot_data_too_few_points (st : pyplot) (x_data y : list Q)
    (rest : list (list Q)) (labels : list string) (kwargs : data_kwargs)
    (cm : Colormap) (fk : kwargs_dict) :
  fig_kwargs kwargs = Some fk ->
  get_cmap (default (CmapName "viridis") (color_cycle kwargs)) st = Ok (cm, st) ->
  labels <> [] ->
  length y = length x_data ->
  (1 <= length x_data <= 3)%nat ->
  (linear_condition kwargs = None
   \/ exists c, linear_condition kwargs = Some c /\ c x_data y = false) ->
  plot_data x_data (y :: rest) labels kwargs st = Raise TypeError.
Proof.
  intros Hfk Hcm Hlabels Hlen [Hn1 Hn3] Hcond.
  destruct (plot_data_start st x_data (y :: rest) labels kwargs cm fk Hfk Hcm)
    as (Ha1 & Hlast1 & ->).
  destruct (head_last_nonempty x_data Hn1) as (start & stop & Hhead & Hstop).
  apply bind_raise.
  change (zip (seq 0 (length (y :: rest))) (y :: rest))
    with ((0%nat, y) :: zip (seq 1 (length rest)) rest).
  cbn [mfor]. apply bind_raise.
  eapply (plot_series_until_fit _ _ _ _ _ _ _ _ _ start stop);
    [exact Ha1 | exact Hlast1 | | now symmetry | exact Hhead | exact Hstop |].
  - cbn [prop_cycle fill_idx]. apply cycle_colors_lookup.
    destruct labels; [congruence | cbn; lia].
  - intros st'.
    assert (Ek : requested_degree (linear_condition kwargs) x_data y
                   (loop_fit_kwargs start stop) = 3%Z).
    { unfold requested_degree.
      destruct Hcond as [-> | (c & -> & ->)]; reflexivity. }
    apply plot_fit_too_few; rewrite ?Ek; [now symmetry | lia | lia].
Qed.

Lemma plot_data_too_few_points_witness :
  plot_data [0; 1; 2]%Q ([1; 2; 3]%Q :: []) ["A"] example_data_kwargs
    example_pyplot
  = Raise TypeError.
Proof.
  apply (plot_data_too_few_points example_pyplot [0; 1; 2]%Q [1; 2; 3]%Q []
           ["A"] example_data_kwargs ramp_cmap ∅);
    first [reflexivity | discriminate | simpl; lia | now left].
Defined.

(** X23.  [plot_fit] looks up the colour of the last scatter group of
    the current axes before it looks at [color]: when the current axes
    holds no scatter group (or no axes exists yet), a fit that [splrep]
    accepts still ends in [IndexError], whether or not the caller
    passes [color]. *)
Theorem plot_fit_needs_scatter (st : pyplot) (ax : nat) (x y : list Q)
    (cond : option (list Q -> list Q -> bool)) (kwargs : fit_kwargs)
    (ls : linspace_kw) :
  let kw := default empty_splrep_kw (splrep_kwargs kwargs) in
  let k := requested_degree cond x y kwargs in
  (axes st = []
   \/ exists a_last, last (axes st) = Some a_last /\ collections a_last = []) ->
  linspace_kwargs kwargs = Some ls ->
  length x = length y ->
  (1 <= k <= 5)%Z ->
  (k < Z.of_nat (length x))%Z ->
  Qle_bool 0 (default 0%Q (kw_s kw)) = true ->
  increasing (Qeq_bool (default 0%Q (kw_s kw)) 0) x = true ->
  plot_fit ax x y cond kwargs st = Raise IndexError.
Proof.
  intros kw k Hno Hls Hlen Hk Hm Hs Hinc.
  pose proof (apply_linear_condition_k cond x y kwargs) as Ek.
  pose proof (apply_linear_condition_s cond x y kwargs) as Es.
  destruct (apply_linear_condition_rest cond x y kwargs) as [El _].
  fold k in Ek. fold kw in Es.
  unfold plot_fit.
  set (kwargs' := apply_linear_condition cond x y kwargs) in *.
  set (kw' := default empty_splrep_kw (splrep_kwargs kwargs')) in *.
  assert (Hfit : splrep x y kw'
                 = Ok {| spl_x := x; spl_y := y;
                         spl_s := default 0%Q (kw_s kw');
                         spl_k := default 3%Z (kw_k kw') |})
    by (apply splrep_ok; rewrite ?Ek, ?Es; assumption).
  assert (Hgrid : linspace (linspace_kwargs kwargs')
                  = Ok (linspace_samples (ls_start ls) (ls_stop ls)))
    by now rewrite El, Hls.
  rewrite (bind_ok _ _ _ _ _ (lift_ok _ _ _ Hfit)).
  rewrite (bind_ok _ _ _ _ _ (lift_ok _ _ _ Hgrid)).
  apply bind_raise. now apply last_scatter_color_raises.
Qed.

Lemma plot_fit_needs_scatter_witness :
  plot_fit 0 [0; 1; 2; 3]%Q [5; 4; 2; 1]%Q None
    {| splrep_kwargs := None;
       linspace_kwargs := Some {| ls_start := 0; ls_stop := 3 |};
       color := Some (RGBA 1 0 0 1) |}
    (with_axes example_pyplot [new_axes []])
  = Raise IndexError.
Proof.
  apply (plot_fit_needs_scatter (with_axes example_pyplot [new_axes []]) 0
           [0; 1; 2; 3]%Q [5; 4; 2; 1]%Q None
           {| splrep_kwargs := None;
              linspace_kwargs := Some {| ls_start := 0; ls_stop := 3 |};
              color := Some (RGBA 1 0 0 1) |}
           {| ls_start := 0; ls_stop := 3 |});
    first [reflexivity | (vm_compute; split; discriminate) | idtac].
  right. exists (new_axes []). split; reflexivity.
Defined.

(** X24.  [set_color_cycle] changes the colour cycle of its axes and
    nothing else: the artists, the properties and the legend of that
    axes, every other axes, and the colormap registry stay as they
    were. *)
Theorem set_color_cycle_frame (st : pyplot) (ax : nat) (a : Axes)
    (colormap : cmap_arg) (cm : Colormap) (m : nat) :
  axes st !! ax = Some a ->
  get_cmap colormap st = Ok (cm, st) ->
  exists st' a',
    set_color_cycle ax colormap m st = Ok (tt, st')
    /\ axes st' !! ax = Some a'
    /\ collections a' = collections a /\ lines a' = lines a
    /\ ax_props a' = ax_props a /\ legend_ a' = legend_ a
    /\ length (axes st') = length (axes st)
    /\ (forall j, j <> ax -> axes st' !! j = axes st !! j)
    /\ cmap_registry st' = cmap_registry st
    /\ rc_image_cmap st' = rc_image_cmap st
    /\ rc_prop_cycle st' = rc_prop_cycle st.
Proof.
  intros Ha Hcm.
  do 2 eexists. split; [exact (set_color_cycle_ok _ _ _ _ _ m Ha Hcm)|].
  split; [exact (lookup_with_axes_insert st ax a _ Ha)|].
  cbn [collections lines ax_props legend_ with_axes axes cmap_registry
       rc_image_cmap rc_prop_cycle].
  repeat (split; [reflexivity|]).
  split; [apply length_insert|].
  split; [|repeat split].
  intros j Hj. now apply list_lookup_insert_ne.
Qed.

Lemma set_color_cycle_frame_witness :
  exists st' a',
    set_color_cycle 0 (CmapName "viridis") 3 example_scatter_state = Ok (tt, st')
    /\ axes st' !! 0%nat = Some a'
    /\ length (collections a') = 1%nat.
Proof.
  destruct (set_color_cycle_frame example_scatter_state 0 _
              (CmapName "viridis") ramp_cmap 3 eq_refl eq_refl)
    as (st' & a' & H1 & H2 & H3 & _).
  exists st', a'. split; [exact H1|]. split; [exact H2|]. now rewrite H3.
Defined.

(** X25.  A colormap name that is not registered makes
    [set_color_cycle] raise [ValueError], and [plot_data] with it as
    [color_cycle] raises [ValueError] too, once [fig_kwargs] is there. *)
Theorem unknown_colormap_raises (st : pyplot) (name : string) :
  cmap_registry st !! name = None ->
  (forall ax m, set_color_cycle ax (CmapName name) m st = Raise ValueError)
  /\ (forall x_data y_data labels kwargs fk,
        fig_kwargs kwargs = Some fk ->
        color_cycle kwargs = Some (CmapName name) ->
        plot_data x_data y_data labels kwargs st = Raise ValueError).
Proof.
  intros Hname. split.
  - intros ax m. unfold set_color_cycle. apply bind_raise.
    unfold get_cmap. now rewrite Hname.
  - intros x_data y_data labels kwargs fk Hfk Hcc.
    unfold plot_data. rewrite Hfk, Hcc. cbn [default from_option id].
    assert (Hsub : subplots (Some fk) st
                   = Ok (length (axes st),
                         with_axes st (axes st ++ [new_axes (rc_prop_cycle st)])))
      by reflexivity.
    rewrite (bind_ok _ _ _ _ _ Hsub).
    apply bind_raise. unfold set_color_cycle. apply bind_raise.
    unfold get_cmap. cbn [with_axes cmap_registry]. now rewrite Hname.
Qed.

Lemma unknown_colormap_raises_witness :
  (forall ax m, set_color_cycle ax (CmapName "plasma") m example_pyplot
                = Raise ValueError)
  /\ (forall x_data y_data labels kwargs fk,
        fig_kwargs kwargs = Some fk ->
        color_cycle kwargs = Some (CmapName "plasma") ->
        plot_data x_data y_data labels kwargs example_pyplot = Raise ValueError).
Proof.
  apply (unknown_colormap_raises example_pyplot "plasma"). reflexivity.
Defined.

(** X26.  If the series do not have as many points as [x_data],
    [plot_data] raises the [ValueError] of the first [scatter]. *)
Theorem plot_data_row_mismatch (st : pyplot) (x_data y : list Q)
    (rest : list (list Q)) (labels : list string) (kwargs : data_kwargs)
    (cm : Colormap) (fk : kwargs_dict) :
  fig_kwargs kwargs = Some fk ->
  get_cmap (default (CmapName "viridis") (color_cycle kwargs)) st = Ok (cm, st) ->
  length x_data <> length y ->
  plot_data x_data (y :: rest) labels kwargs st = Raise ValueError.
Proof.
  intros Hfk Hcm Hlen.
  destruct (plot_data_start st x_data (y :: rest) labels kwargs cm fk Hfk Hcm)
    as (Ha1 & Hlast1 & ->).
  apply bind_raise.
  change (zip (seq 0 (length (y :: rest))) (y :: rest))
    with ((0%nat, y) :: zip (seq 1 (length rest)) rest).
  cbn [mfor]. apply bind_raise.
  unfold plot_series. apply bind_raise. unfold scatter.
  rewrite (bind_ok _ _ _ _ _ (get_axes_ok _ _ _ Ha1)).
  apply Nat.eqb_neq in Hlen. now rewrite Hlen.
Qed.

Lemma plot_data_row_mismatch_witness :
  plot_data [0; 1; 2; 3]%Q ([1; 2; 3]%Q :: []) ["A"] example_data_kwargs
    example_pyplot
  = Raise ValueError.
Proof.
  apply (plot_data_row_mismatch example_pyplot [0; 1; 2; 3]%Q [1; 2; 3]%Q []
           ["A"] example_data_kwargs ramp_cmap ∅);
    first [reflexivity | discriminate].
Defined.

End PlotExtraClaims.

Section PlotGridExtras.
Import Plot.
Local Open Scope string_scope.

Lemma linspace_samples_shape (start stop : Q) :
  length (linspace_samples start stop) = 50%nat
  /\ last (linspace_samples start stop) = Some stop
  /\ exists g0, head (linspace_samples start stop) = Some g0 /\ (g0 == start)%Q.
Proof.
  unfold linspace_samples. split; [|split].
  - now rewrite length_app, length_map, length_seq.
  - apply last_snoc.
  - eexists. split; [reflexivity|]. cbn. ring.
Qed.

(** X27.  In [plot_data] the predicate alone selects the degree: the
    curve of series [i] shows a spline of degree 1 when
    [linear_condition] is given and holds on [(x_data, y_i)], and of
    degree 3 otherwise, fitted without smoothing and evaluated on 50
    samples that start at [x_data[0]] and end at [x_data[-1]]. *)
Theorem plot_data_fit_degree (st : pyplot) (x_data : list Q)
    (y_data : list (list Q)) (labels : list string) (kwargs : data_kwargs)
    (cm : Colormap) (fk ak lk : kwargs_dict) :
  fig_kwargs kwargs = Some fk ->
  ax_kwargs kwargs = Some ak ->
  legend_kwargs kwargs = Some lk ->
  get_cmap (default (CmapName "viridis") (color_cycle kwargs)) st = Ok (cm, st) ->
  (length y_data <= length labels)%nat ->
  Forall (fun y => length y = length x_data) y_data ->
  (4 <= length x_data)%nat ->
  increasing true x_data = true ->
  exists st' a start stop,
    plot_data x_data y_data labels kwargs st = Ok (length (axes st), st')
    /\ axes st' !! length (axes st) = Some a
    /\ head x_data = Some start /\ last x_data = Some stop
    /\ forall i y, y_data !! i = Some y ->
         exists grid spl c g0,
           lines a !! (2 * i)%nat = Some (series_curve grid spl c)
           /\ spl_k spl
              = (if match linear_condition kwargs with
                    | Some p => p x_data y
                    | None => false
                    end
                 then 1 else 3)%Z
           /\ spl_s spl = 0%Q
           /\ length grid = 50%nat
           /\ head grid = Some g0 /\ (g0 == start)%Q
           /\ last grid = Some stop.
Proof.
  intros Hfk Hak Hlk Hcm Hm Hall Hn Hinc.
  destruct (head_last_exist x_data Hn) as (start & stop & Hhead & Hstop).
  do 2 eexists. exists start, stop.
  split; [exact (plot_data_ok_le st x_data y_data labels kwargs cm fk ak lk
                   start stop Hfk Hak Hlk Hcm Hm Hall Hhead Hstop Hn Hinc)|].
  split; [cbn [with_axes axes]; apply list_lookup_middle; reflexivity|].
  split; [exact Hhead|]. split; [exact Hstop|].
  intros i y Hy. cbn [lines after_series app].
  destruct (series_lines_lookup cm (length labels) x_data labels
              (linear_condition kwargs) start stop y_data 0 i y Hy)
    as (curve & handle & E & H1 & _).
  cbn [Nat.add] in E. unfold series_lines in E. injection E as <- _.
  destruct (linspace_samples_shape start stop) as (Hl & Hlast & g0 & Hg0 & Eg0).
  do 3 eexists. exists g0.
  split; [exact H1|]. cbn [spl_k spl_s].
  split; [reflexivity|]. split; [reflexivity|].
  split; [exact Hl|]. split; [exact Hg0|]. split; [exact Eg0 | exact Hlast].
Qed.

Lemma plot_data_fit_degree_witness :
  exists st' a start stop,
    plot_data [0; 1; 2; 3]%Q [[1; 2; 3; 40]%Q; [4; 3; 2; 1]%Q]
      ["X"; "A"; "B"] script_data_kwargs example_pyplot
    = Ok (length (axes example_pyplot), st')
    /\ axes st' !! length (axes example_pyplot) = Some a
    /\ head [0; 1; 2; 3]%Q = Some start /\ last [0; 1; 2; 3]%Q = Some stop
    /\ forall i y, [[1; 2; 3; 40]%Q; [4; 3; 2; 1]%Q] !! i = Some y ->
         exists grid spl c g0,
           lines a !! (2 * i)%nat = Some (series_curve grid spl c)
           /\ spl_k spl
              = (if match linear_condition script_data_kwargs with
                    | Some p => p [0; 1; 2; 3]%Q y
                    | None => false
                    end
                 then 1 else 3)%Z
           /\ spl_s spl = 0%Q
           /\ length grid = 50%nat
           /\ head grid = Some g0 /\ (g0 == start)%Q
           /\ last grid = Some stop.
Proof.
  apply (plot_data_fit_degree example_pyplot [0; 1; 2; 3]%Q
           [[1; 2; 3; 40]%Q; [4; 3; 2; 1]%Q] ["X"; "A"; "B"]
           script_data_kwargs ramp_cmap ∅ ∅ ∅);
    first [reflexivity | simpl; lia | repeat constructor].
Defined.

End PlotGridExtras.
